(** * Vyx client: session core

    A shallow embedding of the Go packages [conn], [config] and [auth]
    of the Vyx desktop client, with the properties its design document
    states about them and further properties of the same code.

    Conventions.
    - A Go [string] is a sequence of 8-bit values: it is a [string] here
      (a list of [ascii]); a [[]byte] is a [list byte].  The conversions
      [[]byte(s)] and [string(b)] are [list_byte_of_string] and
      [string_of_list_byte].
    - Go integers are [Z]; a conversion to a narrower unsigned type writes
      its wrap-around out ([uint16], [uint32]).
    - A [time.Duration] is a [Z] counting nanoseconds.
    - What a Go function obtains from the operating system or the network
      (a dial, a DNS lookup, an HTTP exchange, a write on the control
      stream) is an explicit argument of its embedding.  *)

From Stdlib Require Import ZArith Lia String Ascii List.
From Stdlib Require Import Floats Uint63.
From Stdlib.Strings Require Import Byte.
From stdpp Require Import gmap strings list.

Local Open Scope Z_scope.

(** ** Results and errors *)

(** The errors of package [io] the framing code can meet, and an opaque
    error of the underlying writer. *)
Inductive ioerr : Type :=
  | EOF
  | ErrUnexpectedEOF
  | ErrShortWrite.

(** [fmt.Errorf("<ctx>: %w", cause)]. *)
Record error : Type := Errorf { err_ctx : string; err_cause : ioerr }.

(** ** Fixed-width integers and bytes *)

Definition Z_of_byte (b : byte) : Z := Z.of_N (Byte.to_N b).

(** [byte(z)]: the low eight bits. *)
Definition byte_of_Z (z : Z) : byte :=
  match Byte.of_N (Z.to_N (z mod 256)) with
  | Some b => b
  | None => x00
  end.

Definition uint16 (z : Z) : Z := z mod 65536.
Definition uint32 (z : Z) : Z := z mod 4294967296.

(** [len(s)] for a string and for a byte slice. *)
Definition len_string (s : string) : Z := Z.of_nat (String.length s).
Definition len_bytes (b : list byte) : Z := Z.of_nat (List.length b).

(** [binary.BigEndian]: most significant byte first. *)
Definition put_uint16 (v : Z) : list byte :=
  [byte_of_Z (v / 256); byte_of_Z v].

Definition put_uint32 (v : Z) : list byte :=
  [byte_of_Z (v / 16777216); byte_of_Z (v / 65536);
   byte_of_Z (v / 256); byte_of_Z v].

Definition get_uint16 (b0 b1 : byte) : Z :=
  Z_of_byte b0 * 256 + Z_of_byte b1.

Definition get_uint32 (b0 b1 b2 b3 : byte) : Z :=
  Z_of_byte b0 * 16777216 + Z_of_byte b1 * 65536
  + Z_of_byte b2 * 256 + Z_of_byte b3.

(** ** Text messages *)

Module Msg.

(** [Message]: the JSON message of the control stream.  [Data] holds base64
    text for [connect] and [data] messages. *)
Record Message : Type := mkMessage {
  Type_ : string;
  ID : string;
  Addr : string;
  Data : string
}.

(** The eleven message type names. *)
Definition known_types : list string :=
  ["auth"; "auth_success"; "error"; "connect"; "connected"; "data"; "close";
   "ping"; "pong"; "address"; "uid-register"]%string.

End Msg.

(** ** Binary frames: the binary protocol of package [conn] *)

Module Frame.

(** Message types (1 byte). *)
Definition MsgTypeAuth : byte := byte_of_Z 0.
Definition MsgTypeAuthSuccess : byte := byte_of_Z 1.
Definition MsgTypeError : byte := byte_of_Z 2.
Definition MsgTypeConnect : byte := byte_of_Z 3.
Definition MsgTypeConnected : byte := byte_of_Z 4.
Definition MsgTypeData : byte := byte_of_Z 5.
Definition MsgTypeClose : byte := byte_of_Z 6.
Definition MsgTypePing : byte := byte_of_Z 7.
Definition MsgTypePong : byte := byte_of_Z 8.
Definition MsgTypeAddress : byte := byte_of_Z 9.
Definition MsgTypeUIDRegister : byte := byte_of_Z 10.

Definition msg_type_codes : list byte :=
  [MsgTypeAuth; MsgTypeAuthSuccess; MsgTypeError; MsgTypeConnect;
   MsgTypeConnected; MsgTypeData; MsgTypeClose; MsgTypePing; MsgTypePong;
   MsgTypeAddress; MsgTypeUIDRegister].

(** [BinaryMessage]: a message in binary format (no JSON, no base64).  A
    [nil] and an empty [Data] slice hold the same bytes and are the same
    list. *)
Record BinaryMessage : Type := mkBinaryMessage {
  Type_ : byte;
  ID : string;
  Addr : string;
  Data : list byte
}.

(** *** Writers

    [io.Writer] is an interface; [write w p] is [w.Write(p)], giving the
    writer afterwards and the error, if any. *)
Class Writer (W : Type) : Type :=
  write : W -> list byte -> W * option ioerr.

(** [bytes.Buffer]: the written bytes; never fails. *)
#[export] Instance buffer_writer : Writer (list byte) :=
  fun buf p => (buf ++ p, None).

(** A writer that accepts a bounded number of bytes, as a pipe or a stream
    with a closed peer does: what fits is written, the rest is an error. *)
Record limited : Type := Limited { lim_room : nat; lim_buf : list byte }.

#[export] Instance limited_writer : Writer limited :=
  fun w p =>
    if (List.length p <=? lim_room w)%nat
    then (Limited (lim_room w - List.length p) (lim_buf w ++ p), None)
    else (Limited 0 (lim_buf w ++ firstn (lim_room w) p), Some ErrShortWrite).

(** Writing code threads the writer and stops at the first error. *)
Definition WM (W A : Type) : Type := W -> W * (error + A).

Definition wret {W A} (a : A) : WM W A := fun w => (w, inr a).

Definition wbind {W A B} (m : WM W A) (k : A -> WM W B) : WM W B :=
  fun w =>
    match m w with
    | (w', inl e) => (w', inl e)
    | (w', inr a) => k a w'
    end.

(** [if err := <write>; err != nil { return fmt.Errorf(ctx + ": %w", err) }] *)
Definition wtry {W} `{Writer W} (ctx : string) (p : list byte) : WM W unit :=
  fun w =>
    match write w p with
    | (w', Some e) => (w', inl (Errorf ctx e))
    | (w', None) => (w', inr tt)
    end.

#[export] Instance wm_ret {W} : MRet (WM W) := fun A a => wret a.
#[export] Instance wm_bind {W} : MBind (WM W) := fun A B k m => wbind m k.

(** [WriteBinaryMessage] writes a message in binary format to a writer.
    Format: [1 byte: type][2 bytes: ID len][ID bytes][2 bytes: addr len]
    [addr bytes][4 bytes: data len][data bytes]. *)
Definition WriteBinaryMessage {W} `{Writer W} (msg : BinaryMessage)
  : WM W unit :=
  (wtry "failed to write message type" [Type_ msg] ;;
   let idLen := uint16 (len_string (ID msg)) in
   wtry "failed to write ID length" (put_uint16 idLen) ;;
   (if 0 <? idLen
    then wtry "failed to write ID" (list_byte_of_string (ID msg))
    else wret tt) ;;
   let addrLen := uint16 (len_string (Addr msg)) in
   wtry "failed to write addr length" (put_uint16 addrLen) ;;
   (if 0 <? addrLen
    then wtry "failed to write addr" (list_byte_of_string (Addr msg))
    else wret tt) ;;
   let dataLen := uint32 (len_bytes (Data msg)) in
   wtry "failed to write data length" (put_uint32 dataLen) ;;
   (if 0 <? dataLen
    then wtry "failed to write data" (Data msg)
    else wret tt) ;;
   wret tt).

(** The bytes [WriteBinaryMessage] leaves in an empty [bytes.Buffer]. *)
Definition encode (msg : BinaryMessage) : list byte :=
  fst (WriteBinaryMessage msg ([] : list byte)).

(** What [WriteBinaryMessage] appends to a [bytes.Buffer]. *)
Definition frame_bytes (msg : BinaryMessage) : list byte :=
  let idLen := uint16 (len_string (ID msg)) in
  let addrLen := uint16 (len_string (Addr msg)) in
  let dataLen := uint32 (len_bytes (Data msg)) in
  [Type_ msg]
  ++ put_uint16 idLen
  ++ (if 0 <? idLen then list_byte_of_string (ID msg) else [])
  ++ put_uint16 addrLen
  ++ (if 0 <? addrLen then list_byte_of_string (Addr msg) else [])
  ++ put_uint32 dataLen
  ++ (if 0 <? dataLen then Data msg else []).

(** *** Readers

    The reader is the sequence of bytes still to come; [io.ReadFull] takes
    exactly [n] of them or fails. *)
Definition RM (A : Type) : Type := list byte -> error + (A * list byte).

Definition rret {A} (a : A) : RM A := fun r => inr (a, r).

Definition rbind {A B} (m : RM A) (k : A -> RM B) : RM B :=
  fun r =>
    match m r with
    | inl e => inl e
    | inr (a, r') => k a r'
    end.

#[export] Instance rm_ret : MRet RM := fun A a => rret a.
#[export] Instance rm_bind : MBind RM := fun A B k m => rbind m k.

(** [io.ReadFull(r, buf)] with [len(buf) = n], failing under [ctx]. *)
Definition ReadFull (ctx : string) (n : nat) : RM (list byte) :=
  fun r =>
    if (n <=? List.length r)%nat then inr (firstn n r, skipn n r)
    else match r with
         | [] => inl (Errorf ctx EOF)
         | _ => inl (Errorf ctx ErrUnexpectedEOF)
         end.

Definition read_uint8 (ctx : string) : RM byte :=
  (b ← ReadFull ctx 1;
   rret (match b with [b0] => b0 | _ => x00 end)).

Definition read_uint16 (ctx : string) : RM Z :=
  (b ← ReadFull ctx 2;
   rret (match b with [b0; b1] => get_uint16 b0 b1 | _ => 0 end)).

Definition read_uint32 (ctx : string) : RM Z :=
  (b ← ReadFull ctx 4;
   rret (match b with
         | [b0; b1; b2; b3] => get_uint32 b0 b1 b2 b3
         | _ => 0
         end)).

(** [ReadBinaryMessage] reads a message in binary format from a reader. *)
Definition ReadBinaryMessage : RM BinaryMessage :=
  ty ← read_uint8 "failed to read message type";
  idLen ← read_uint16 "failed to read ID length";
  id ← (if 0 <? idLen
        then idBytes ← ReadFull "failed to read ID" (Z.to_nat idLen);
             rret (string_of_list_byte idBytes)
        else rret EmptyString);
  addrLen ← read_uint16 "failed to read addr length";
  addr ← (if 0 <? addrLen
          then addrBytes ← ReadFull "failed to read addr" (Z.to_nat addrLen);
               rret (string_of_list_byte addrBytes)
          else rret EmptyString);
  dataLen ← read_uint32 "failed to read data length";
  data ← (if 0 <? dataLen
          then ReadFull "failed to read data" (Z.to_nat dataLen)
          else rret []);
  rret (mkBinaryMessage ty id addr data).

(** Helper: convert old [Message] to [BinaryMessage].  The type string is
    mapped to its byte, an unknown one leaving the zero value; only a
    ["data"] message carries its [Data] over. *)
Definition MessageToBinary (m : Msg.Message) : BinaryMessage :=
  let bm := mkBinaryMessage x00 (Msg.ID m) (Msg.Addr m) [] in
  let ty := Msg.Type_ m in
  let setType (t : byte) := mkBinaryMessage t (ID bm) (Addr bm) (Data bm) in
  if String.eqb ty "auth" then setType MsgTypeAuth
  else if String.eqb ty "auth_success" then setType MsgTypeAuthSuccess
  else if String.eqb ty "error" then setType MsgTypeError
  else if String.eqb ty "connect" then setType MsgTypeConnect
  else if String.eqb ty "connected" then setType MsgTypeConnected
  else if String.eqb ty "data"
       then mkBinaryMessage MsgTypeData (ID bm) (Addr bm)
                            (list_byte_of_string (Msg.Data m))
  else if String.eqb ty "close" then setType MsgTypeClose
  else if String.eqb ty "ping" then setType MsgTypePing
  else if String.eqb ty "pong" then setType MsgTypePong
  else if String.eqb ty "address" then setType MsgTypeAddress
  else if String.eqb ty "uid-register" then setType MsgTypeUIDRegister
  else bm.

(** Helper: convert [BinaryMessage] to the old [Message] format.  An unknown
    type byte leaves the type string empty. *)
Definition BinaryToMessage (bm : BinaryMessage) : Msg.Message :=
  let ty :=
    match Z_of_byte (Type_ bm) with
    | 0 => "auth"
    | 1 => "auth_success"
    | 2 => "error"
    | 3 => "connect"
    | 4 => "connected"
    | 5 => "data"
    | 6 => "close"
    | 7 => "ping"
    | 8 => "pong"
    | 9 => "address"
    | 10 => "uid-register"
    | _ => ""
    end%string in
  Msg.mkMessage ty (ID bm) (Addr bm) (string_of_list_byte (Data bm)).

End Frame.

(** ** Reconnect backoff: [getRetryDelay] *)

Module Backoff.

(** [time.Duration] constants, in nanoseconds. *)
Definition Second : Z := 1000000000.
Definition Minute : Z := 60 * Second.

(** [getRetryDelay] calculates the retry delay from the attempt count.
    - Attempt 1: immediate; attempts 2-4: 5 seconds; attempts 5-7: 15 seconds;
      attempts 8-10: 30 seconds; attempts 11-15: 60 seconds; then 5 minutes.
    - Not logged in: 30 second intervals; auth failures: 60 second intervals. *)
Definition getRetryDelay (attempt : Z) (authFailed notLoggedIn : bool) : Z :=
  if notLoggedIn then 30 * Second
  else if authFailed then 60 * Second
  else if attempt =? 1 then 0
  else if attempt <=? 4 then 5 * Second
  else if attempt <=? 7 then 15 * Second
  else if attempt <=? 10 then 30 * Second
  else if attempt <=? 15 then 60 * Second
  else 5 * Minute.

End Backoff.

(** ** Package [net] and [strings]: what the client uses of them *)

Module Net.

(** [err.Error()]: an error is known by its message. *)
Definition goerror : Type := string.

(** [strings.Contains(s, substr)]. *)
Fixpoint Contains (s substr : string) : bool :=
  String.prefix substr s
  || match s with
     | EmptyString => false
     | String _ s' => Contains s' substr
     end.

(** The address helpers of package [net], which are not part of this
    repository: any implementation can be plugged in. *)
Class NetLib : Type := {
  SplitHostPort : string -> goerror + (string * string);
  JoinHostPort : string -> string -> string
}.

(** [net.Dialer{Timeout: t}]. *)
Record Dialer : Type := mkDialer { Timeout : Z }.

(** A [net.Resolver] whose [Dial] function ignores the server it is asked
    for and dials [dns_server] with [dns_dialer]. *)
Record Resolver : Type := mkResolver {
  PreferGo : bool;
  dns_dialer : Dialer;
  dns_server : string
}.

(** TCP options set on an established connection. *)
Record Tuning : Type := mkTuning {
  ReadBuffer : Z;
  WriteBuffer : Z;
  NoDelay : bool;
  KeepAlive : bool;
  KeepAlivePeriod : Z
}.

(** A [net.Conn]: the peer it is connected to, whether [Close] was called,
    the chunks written to it so far, and its TCP options. *)
Record Socket : Type := mkSocket {
  remote : string;
  sock_closed : bool;
  sock_written : list (list byte);
  sock_tuning : option Tuning
}.

(** The network as the client meets it: the error of a dial under a dialer
    and a context deadline, if any, and the outcome of a host lookup under
    a resolver. *)
Record NetEnv : Type := mkNetEnv {
  dial_error : Dialer -> Z -> string -> string -> option goerror;
  LookupHost : Resolver -> Z -> string -> goerror + list string
}.

(** [dialer.DialContext(ctx, network, address)]: the error, or a fresh
    connection to [address]. *)
Definition DialContext (env : NetEnv) (d : Dialer) (deadline : Z)
    (network address : string) : goerror + Socket :=
  match dial_error env d deadline network address with
  | Some err => inl err
  | None => inr (mkSocket address false [] None)
  end.

(** What a function did on the network, in order. *)
Inductive NetEvent : Type :=
  | EvDial (d : Dialer) (deadline : Z) (network address : string)
  | EvLookup (r : Resolver) (deadline : Z) (host : string)
  | EvLog (line : string).

Definition log_lines (tr : list NetEvent) : list string :=
  omap (fun e => match e with EvLog l => Some l | _ => None end) tr.

End Net.

(** ** Dialing a destination: [dialWithDNSFallback] *)

Module Dial.
Import Net.

Section WithNetLib.
Context `{NetLib}.

Definition second : Z := 1000000000.

(** The line logged on entering the fallback path. *)
Definition fallback_line : string :=
  "DNS resolution failed with system DNS, trying with custom resolver...".

(** Whether the first dial's error asks for the fallback. *)
Definition resolution_failed (err : goerror) : bool :=
  Contains err "no such host" || Contains err "Temporary failure".

(** Custom DNS resolver (Google DNS 8.8.8.8). *)
Definition custom_resolver : Resolver :=
  mkResolver true (mkDialer (3 * second)) "8.8.8.8:53".

(** [dialWithDNSFallback] tries to connect, with a DNS fallback: the result
    and what was done on the network. *)
Definition dialWithDNSFallback (env : NetEnv) (address : string)
  : (goerror + Socket) * list NetEvent :=
  (* First attempt with default DNS (5 second timeout) *)
  let dialer := mkDialer (5 * second) in
  let ctx := 10 * second in
  let first := [EvDial dialer ctx "tcp" address] in
  match DialContext env dialer ctx "tcp" address with
  | inr conn => (inr conn, first)
  | inl err =>
      (* If DNS resolution failed, try with Google DNS *)
      if resolution_failed err then
        let tr := first ++ [EvLog fallback_line] in
        let resolver := custom_resolver in
        (* Extract host and port from address *)
        match SplitHostPort address with
        | inl splitErr => (inl splitErr, tr)
        | inr (host, port) =>
            (* Resolve with custom DNS *)
            let tr := tr ++ [EvLookup resolver ctx host] in
            match LookupHost env resolver ctx host with
            | inl resolveErr => (inl err, tr) (* Return original error *)
            | inr (ip0 :: _) =>
                (* Try to connect with resolved IP *)
                let resolvedAddr := JoinHostPort ip0 port in
                (DialContext env dialer ctx "tcp" resolvedAddr,
                 tr ++ [EvDial dialer ctx "tcp" resolvedAddr])
            | inr [] => (inl err, tr)
            end
        end
      else (inl err, first)
  end.

End WithNetLib.

(** Stand-ins for the address helpers on plain [host:port] strings, to run
    the functions on examples: the port is what follows the first colon. *)
Fixpoint split_colon (s : string) : option (string * string) :=
  match s with
  | EmptyString => None
  | String c s' =>
      if Ascii.eqb c ":"%char then Some (EmptyString, s')
      else match split_colon s' with
           | Some (h, p) => Some (String c h, p)
           | None => None
           end
  end.

Definition plain_netlib : NetLib := {|
  SplitHostPort s :=
    match split_colon s with
    | Some hp => inr hp
    | None => inl ("address " +:+ s +:+ ": missing port in address")
    end;
  JoinHostPort h p := h +:+ ":" +:+ p
|}.

(** The network of scenario S2: the system resolver does not know the
    host, the resolver at 8.8.8.8 answers 192.0.2.9, and that address
    accepts the connection. *)
Definition s2_env : NetEnv := {|
  dial_error d ctx network address :=
    if String.eqb address "192.0.2.9:80" then None
    else Some "dial tcp: lookup unreachable.invalid: no such host"%string;
  LookupHost r ctx host :=
    if String.eqb (dns_server r) "8.8.8.8:53" then inr ["192.0.2.9"]
    else inl "lookup failed"
|}.

(** The network of scenario S3: the destination refuses the connection. *)
Definition s3_env : NetEnv := {|
  dial_error d ctx network address :=
    Some ("dial tcp " +:+ address +:+ ": connect: connection refused");
  LookupHost r ctx host := inl "lookup failed"
|}.

End Dial.

(** ** The relay engine: package [conn] *)

Module Conn.
Import Msg Net Dial.

(** [base64.StdEncoding], which is not part of this repository.
    [DecodeString] gives the bytes decoded and the error, if any. *)
Class Base64 : Type := {
  EncodeToString : list byte -> string;
  DecodeString : string -> list byte * option goerror
}.

(** A buffered [chan []byte]: its capacity, the slices waiting in it, oldest
    first, and whether it was closed. *)
Record Chan : Type := mkChan {
  ch_cap : Z;
  ch_buf : list (list byte);
  ch_closed : bool
}.

Record Connection : Type := mkConnection {
  conn : Socket;
  dataChan : Chan
}.

(** The package variables.  [clientConns] maps a sub-connection id to a
    [*Connection]; the connections themselves live in [heap], so that a
    relay task and the table can hold the same one.  [sent] is what has
    been written on control streams so far, one message per JSON line, and
    [logs] the lines given to the logger. *)
Record State : Type := mkState {
  quicConn : option nat;
  quicStream : option nat;
  clientConns : gmap string nat;
  shouldAutoReconnect : bool;
  heap : gmap nat Connection;
  sent : list Message;
  logs : list string
}.

Definition set_quic (c s : option nat) (st : State) : State :=
  mkState c s (clientConns st) (shouldAutoReconnect st) (heap st) (sent st)
          (logs st).

Definition set_clientConns (t : gmap string nat) (st : State) : State :=
  mkState (quicConn st) (quicStream st) t (shouldAutoReconnect st) (heap st)
          (sent st) (logs st).

Definition set_shouldAutoReconnect (b : bool) (st : State) : State :=
  mkState (quicConn st) (quicStream st) (clientConns st) b (heap st) (sent st)
          (logs st).

Definition set_heap (h : gmap nat Connection) (st : State) : State :=
  mkState (quicConn st) (quicStream st) (clientConns st)
          (shouldAutoReconnect st) h (sent st) (logs st).

Definition set_sent (l : list Message) (st : State) : State :=
  mkState (quicConn st) (quicStream st) (clientConns st)
          (shouldAutoReconnect st) (heap st) l (logs st).

Definition set_logs (l : list string) (st : State) : State :=
  mkState (quicConn st) (quicStream st) (clientConns st)
          (shouldAutoReconnect st) (heap st) (sent st) l.

(** [log.Printf] / [log.Println]. *)
Definition log (line : string) (st : State) : State :=
  set_logs (logs st ++ [line]) st.

(** The package variables when the process starts. *)
Definition initial : State := mkState None None ∅ true ∅ [] [].

(** *** Sockets and channels *)

Definition close_socket (s : Socket) : Socket :=
  mkSocket (remote s) true (sock_written s) (sock_tuning s).

Definition close_chan (c : Chan) : Chan :=
  mkChan (ch_cap c) (ch_buf c) true.

(** [cc.conn.Close(); close(cc.dataChan)]. *)
Definition close_connection (cc : Connection) : Connection :=
  mkConnection (close_socket (conn cc)) (close_chan (dataChan cc)).

(** [cc.conn.Close()] alone. *)
Definition close_conn_only (cc : Connection) : Connection :=
  mkConnection (close_socket (conn cc)) (dataChan cc).

(** [conn.Write(data)] on the connection at [l]: a closed socket refuses;
    an open one fails with [w] if the network says so, and takes the data
    otherwise. *)
Definition conn_Write (w : option goerror) (l : nat) (data : list byte)
    (st : State) : State * option goerror :=
  match heap st !! l with
  | None => (st, Some "use of closed network connection"%string)
  | Some cc =>
      if sock_closed (conn cc)
      then (st, Some "use of closed network connection"%string)
      else match w with
           | Some e => (st, Some e)
           | None =>
               let s := conn cc in
               let s' := mkSocket (remote s) false (sock_written s ++ [data])
                                  (sock_tuning s) in
               (set_heap (<[l := mkConnection s' (dataChan cc)]> (heap st)) st,
                None)
           end
  end.

(** *** Sending on the control stream *)

(** [sendMessage]: [w] is the error of [quicStream.Write], if any. *)
Definition sendMessage (w : option goerror) (msg : Message) (st : State)
  : State * option goerror :=
  match quicStream st with
  | None =>
      (log "Cannot send message: no active QUIC stream" st,
       Some "no active QUIC stream"%string)
  | Some _ =>
      match w with
      | Some e => (log ("Error writing to QUIC stream: " +:+ e) st, Some e)
      | None => (set_sent (sent st ++ [msg]) st, None)
      end
  end.

(** Whether a write on the control stream goes out: there is a stream and
    the write does not fail. *)
Definition delivered (w : option goerror) (st : State) : bool :=
  match quicStream st, w with
  | Some _, None => true
  | _, _ => false
  end.

Definition closeMsg (id : string) : Message := mkMessage "close" id "" "".

(** [sendCloseMessage]: send CLOSE, then close and forget the entry of
    [id], if there is one. *)
Definition sendCloseMessage (w : option goerror) (id : string) (st : State)
  : State :=
  let st := fst (sendMessage w (closeMsg id) st) in
  match clientConns st !! id with
  | Some l =>
      set_clientConns (delete id (clientConns st))
        (set_heap (alter close_connection l (heap st)) st)
  | None => st
  end.

(** The loop that closes every client connection and empties the table,
    as it stands in [quicReader] (twice) and in [DisconnectQuic]. *)
Definition closeAllClientConns (st : State) : State :=
  let h := map_fold (fun _ l h => alter close_connection l h)
                    (heap st) (clientConns st) in
  set_clientConns ∅ (set_heap h st).

(** [DisconnectQuic] closes the QUIC connection and disables
    auto-reconnect. *)
Definition DisconnectQuic (st : State) : State :=
  let st := set_shouldAutoReconnect false st in
  let st := set_quic None None st in
  closeAllClientConns st.

(** [ReconnectQuic] forces a reconnection and enables auto-reconnect. *)
Definition ReconnectQuic (st : State) : State :=
  let st := log "Enabling bandwidth sharing..." st in
  let st := set_shouldAutoReconnect true st in
  let st := set_quic None None st in
  log "Auto-reconnect enabled, will connect shortly..." st.

(** *** Tasks *)

(** The goroutines of the relay engine. *)
Inductive Task : Type :=
  | HandleConnect (msg : Message)
  | RelayConnToQuic (cc : nat) (id : string)
  | RelayChanToConn (cc : nat) (id : string).

(** What the outside world answers during one step of a task. *)
Record Oracle : Type := mkOracle {
  o_net : NetEnv;                    (* the network, for a dial *)
  o_read : goerror + list byte;      (* [conn.Read] on an open socket *)
  o_sock_write : option goerror;     (* error of [conn.Write], if any *)
  o_stream_write : option goerror;   (* error of the step's first stream write *)
  o_close_write : option goerror     (* error of the stream write of CLOSE *)
}.

Section WithLibraries.
Context `{NetLib} `{Base64}.

(** TCP optimizations applied to a fresh connection. *)
Definition tune (s : Socket) : Socket :=
  mkSocket (remote s) (sock_closed s) (sock_written s)
    (Some (mkTuning (4 * 1024 * 1024) (4 * 1024 * 1024) true true
                    (30 * second))).

Definition relay_tasks (l : nat) (id : string) : list Task :=
  [RelayConnToQuic l id; RelayChanToConn l id].

(** [handleConnect]: the state afterwards and the goroutines started. *)
Definition handleConnect (o : Oracle) (msg : Message) (st : State)
  : State * list Task :=
  let '(res, tr) := dialWithDNSFallback (o_net o) (Addr msg) in
  let st := set_logs (logs st ++ log_lines tr) st in
  match res with
  | inl err =>
      let st := log ("Failed to establish connection: " +:+ err) st in
      (sendCloseMessage (o_close_write o) (ID msg) st, [])
  | inr c =>
      let c := tune c in
      let dataChan := mkChan 10000 [] false in
      let cc := mkConnection c dataChan in
      let l := fresh (dom (heap st)) in
      let st := set_heap (<[l := cc]> (heap st)) st in
      let st := set_clientConns (<[ID msg := l]> (clientConns st)) st in
      (* Send confirmation to server that connection is established *)
      let confirmMsg := mkMessage "connected" (ID msg) "" "" in
      match sendMessage (o_stream_write o) confirmMsg st with
      | (st, Some err) =>
          let st := log ("Failed to send connect confirmation: " +:+ err) st in
          (set_heap (alter close_conn_only l (heap st)) st, [])
      | (st, None) =>
          (* Write initial data if any *)
          if negb (String.eqb (Data msg) "") then
            let data := fst (DecodeString (Data msg)) in
            match conn_Write (o_sock_write o) l data st with
            | (st, Some err) =>
                let st := log ("Failed to write initial data: " +:+ err) st in
                (sendCloseMessage (o_close_write o) (ID msg) st, [])
            | (st, None) => (st, relay_tasks l (ID msg))
            end
          else (st, relay_tasks l (ID msg))
      end
  end.

(** One turn of the loop of [relayFromConnToQuic], with its deferred
    [sendCloseMessage] when the turn leaves the loop: the state afterwards
    and whether the task has ended.  A read gives at most the 256 KB of
    the buffer. *)
Definition relayFromConnToQuic_step (o : Oracle) (cc : nat) (id : string)
    (st : State) : State * bool :=
  let read :=
    match heap st !! cc with
    | Some c =>
        if sock_closed (conn c)
        then inl "use of closed network connection"%string
        else o_read o
    | None => inl "use of closed network connection"%string
    end in
  match read with
  | inl _ => (sendCloseMessage (o_close_write o) id st, true)
  | inr buf =>
      let buf := take (Z.to_nat (256 * 1024)) buf in
      match buf with
      | [] => (st, false)
      | _ =>
          let data := EncodeToString buf in
          let msg := mkMessage "data" id "" data in
          match sendMessage (o_stream_write o) msg st with
          | (st, Some err) =>
              let st :=
                log ("Failed to relay data from client connection "
                     +:+ id +:+ ": " +:+ err) st in
              (sendCloseMessage (o_close_write o) id st, true)
          | (st, None) => (st, false)
          end
      end
  end.

(** One turn of the loop of [relayFromChanToConn]: [None] while the task
    waits on an empty, open channel. *)
Definition relayFromChanToConn_step (o : Oracle) (cc : nat) (id : string)
    (st : State) : option (State * bool) :=
  match heap st !! cc with
  | None => None
  | Some c =>
      let ch := dataChan c in
      match ch_buf ch with
      | data :: rest =>
          let ch' := mkChan (ch_cap ch) rest (ch_closed ch) in
          let st := set_heap (<[cc := mkConnection (conn c) ch']> (heap st)) st in
          match data with
          | [] => Some (st, false)
          | _ =>
              match conn_Write (o_sock_write o) cc data st with
              | (st, Some _) =>
                  Some (sendCloseMessage (o_close_write o) id st, true)
              | (st, None) => Some (st, false)
              end
          end
      | [] =>
          if ch_closed ch
          then Some (sendCloseMessage (o_close_write o) id st, true)
          else None
      end
  end.

(** One step of a task: the state, the goroutines it started, and whether
    it has ended. *)
Definition task_step (o : Oracle) (t : Task) (st : State)
  : option (State * list Task * bool) :=
  match t with
  | HandleConnect msg =>
      let '(st, spawned) := handleConnect o msg st in
      Some (st, spawned, true)
  | RelayConnToQuic cc id =>
      let '(st, ended) := relayFromConnToQuic_step o cc id st in
      Some (st, [], ended)
  | RelayChanToConn cc id =>
      match relayFromChanToConn_step o cc id st with
      | Some (st, ended) => Some (st, [], ended)
      | None => None
      end
  end.

(** *** The reader of the control stream *)

(** What one turn of the loop of [quicReader] meets. *)
Inductive ReaderInput : Type :=
  | HealthFailed
  | ReadTimeout
  | ReadError (e : goerror)
  | Received (msg : Message).

(** How the turn ends: the loop goes on, the reader returns, or the
    goroutine panics (a send on a closed channel). *)
Inductive ReaderStatus : Type := Continue | Return | Panic.

(** The non-blocking send [select { case cc.dataChan <- data: default: }]:
    the channel afterwards, or [None] when it is full. *)
Definition try_send (data : list byte) (ch : Chan) : option Chan :=
  if Z.of_nat (List.length (ch_buf ch)) <? ch_cap ch
  then Some (mkChan (ch_cap ch) (ch_buf ch ++ [data]) (ch_closed ch))
  else None.

Definition channel_full_line (id : string) : string :=
  "Warning: Data channel full for connection " +:+ id.

(** One turn of the loop of [quicReader]; [w] is the error of the stream
    write of a PONG, if any. *)
Definition quicReader_step (w : option goerror) (inp : ReaderInput)
    (st : State) : State * list Task * ReaderStatus :=
  match inp with
  | HealthFailed =>
      let st := log "Health check failed, closing connection" st in
      (closeAllClientConns st, [], Return)
  | ReadTimeout => (st, [], Continue)
  | ReadError e =>
      let st := log ("QUIC read error: " +:+ e) st in
      (closeAllClientConns st, [], Return)
  | Received msg =>
      let ty := Type_ msg in
      if String.eqb ty "connect" then (st, [HandleConnect msg], Continue)
      else if String.eqb ty "data" then
        match clientConns st !! ID msg with
        | Some l =>
            match heap st !! l with
            | Some cc =>
                match DecodeString (Data msg) with
                | (data, None) =>
                    if ch_closed (dataChan cc) then (st, [], Panic)
                    else
                      match try_send data (dataChan cc) with
                      | Some ch =>
                          (set_heap (<[l := mkConnection (conn cc) ch]> (heap st)) st,
                           [], Continue)
                      | None =>
                          (log (channel_full_line (ID msg)) st, [], Continue)
                      end
                | (_, Some _) => (st, [], Continue)
                end
            | None => (st, [], Panic)
            end
        | None => (st, [], Continue)
        end
      else if String.eqb ty "close" then
        match clientConns st !! ID msg with
        | Some l =>
            (set_clientConns (delete (ID msg) (clientConns st))
               (set_heap (alter close_connection l (heap st)) st),
             [], Continue)
        | None => (st, [], Continue)
        end
      else if String.eqb ty "ping" then
        match sendMessage w (mkMessage "pong" (ID msg) "" "") st with
        | (st, Some err) => (log ("Error sending pong: " +:+ err) st, [], Return)
        | (st, None) => (st, [], Continue)
        end
      else (log ("Warning: Unknown message type: " +:+ ty) st, [], Continue)
  end.

(** *** The agent as a whole *)

(** The package state and the live goroutines of the relay engine. *)
Record Sys : Type := mkSys {
  state : State;
  tasks : list Task
}.

(** What can happen next: a turn of the reader, a step of the [i]-th live
    task, a call of [DisconnectQuic] or [ReconnectQuic] from the tray, or
    [ConnectQuicServer] installing a fresh connection and stream.  The
    goroutines interleave at these steps: [handleConnect] and each turn of
    a relay loop run as one step.  A trace may go on after the reader has
    returned, so the traces of the agent are among those considered. *)
Inductive Event : Type :=
  | EReader (w : option goerror) (inp : ReaderInput)
  | ETask (i : nat) (o : Oracle)
  | EDisconnect
  | EReconnect
  | ESession (c s : nat).

Definition sys_step (ev : Event) (S : Sys) : Sys :=
  match ev with
  | EReader w inp =>
      let '(st, spawned, _) := quicReader_step w inp (state S) in
      mkSys st (tasks S ++ spawned)
  | ETask i o =>
      match tasks S !! i with
      | Some t =>
          match task_step o t (state S) with
          | Some (st, spawned, ended) =>
              mkSys st ((if ended then delete i (tasks S) else tasks S)
                        ++ spawned)
          | None => S
          end
      | None => S
      end
  | EDisconnect => mkSys (DisconnectQuic (state S)) (tasks S)
  | EReconnect => mkSys (ReconnectQuic (state S)) (tasks S)
  | ESession c s => mkSys (set_quic (Some c) (Some s) (state S)) (tasks S)
  end.

(** The events of a trace, one after the other. *)
Definition run (evs : list Event) (S : Sys) : Sys :=
  foldl (fun S ev => sys_step ev S) S evs.

End WithLibraries.

(** *** Counting CLOSE frames *)

Definition is_close (id : string) (m : Message) : bool :=
  String.eqb (Type_ m) "close" && String.eqb (ID m) id.

Definition is_connected (id : string) (m : Message) : bool :=
  String.eqb (Type_ m) "connected" && String.eqb (ID m) id.

(** How many CLOSE(id) were written on the control stream. *)
Definition closes (id : string) (l : list Message) : nat :=
  List.length (List.filter (is_close id) l).

(** How many CLOSE(id) the live tasks may still send: one for each relay
    task of [id], and two for a CONNECT(id) not handled yet. *)
Definition owed (id : string) (t : Task) : nat :=
  match t with
  | HandleConnect msg => if String.eqb (ID msg) id then 2 else 0
  | RelayConnToQuic _ id' => if String.eqb id' id then 1 else 0
  | RelayChanToConn _ id' => if String.eqb id' id then 1 else 0
  end.

Definition pending (id : string) (ts : list Task) : nat :=
  list_sum (List.map (owed id) ts).

(** How many CONNECT(id) the reader receives in a trace. *)
Definition connects (id : string) (evs : list Event) : nat :=
  List.length
    (List.filter
       (fun ev =>
          match ev with
          | EReader _ (Received msg) =>
              String.eqb (Type_ msg) "connect" && String.eqb (ID msg) id
          | _ => false
          end) evs).

(** The number of CLOSE(id) a call of [sendCloseMessage] adds: one when it
    is for [id] and the write goes out. *)
Definition close_sent (w : option goerror) (id' id : string) (st : State) : nat :=
  if delivered w st && String.eqb id' id then 1%nat else 0%nat.

(** The outcome of the write of the initial payload in [handleConnect]:
    there is a payload and the socket refuses it. *)
Definition initial_write_fails (o : Oracle) (msg : Message) : bool :=
  negb (String.eqb (Data msg) "")
  && match o_sock_write o with Some _ => true | None => false end.

(** A CONNECT(id) is waiting for its handler among the tasks. *)
Definition handles (id : string) (t : Task) : bool :=
  match t with
  | HandleConnect msg => String.eqb (ID msg) id
  | _ => false
  end.

(** The control stream takes what the event writes on it: the CLOSE of a
    task goes out, and the tray does not drop the stream. *)
Definition writable (ev : Event) : bool :=
  match ev with
  | ETask _ o => match o_close_write o with None => true | Some _ => false end
  | EDisconnect | EReconnect => false
  | _ => true
  end.

(** *** The table

    What holds of the table in every state the agent reaches. *)

(** Every entry of the table is a connection whose channel is open and has
    capacity 10000, and no connection is registered under two ids. *)
Definition registered_open (st : State) : Prop :=
  forall id l, clientConns st !! id = Some l ->
    exists cc, heap st !! l = Some cc
               /\ ch_closed (dataChan cc) = false
               /\ ch_cap (dataChan cc) = 10000.

Definition table_injective (st : State) : Prop :=
  forall id1 id2 l,
    clientConns st !! id1 = Some l -> clientConns st !! id2 = Some l ->
    id1 = id2.

Definition wf (st : State) : Prop := registered_open st /\ table_injective st.

(** A stand-in for [base64.StdEncoding] to run the functions on examples:
    the text is the bytes themselves. *)
Definition plain_base64 : Base64 := {|
  EncodeToString b := string_of_list_byte b;
  DecodeString s := (list_byte_of_string s, None)
|}.

End Conn.

(** ** Configuration: package [config] *)

Module Config.
Import Net.

(** What package [config] uses of [encoding/json] and [path/filepath],
    which are not part of this repository: the JSON text of a string, and
    the path helpers. *)
Class ConfigLib : Type := {
  json_string : string -> string;
  filepath_Join : list string -> string;
  filepath_Dir : string -> string
}.

Record Config : Type := mkConfig {
  ServerURL : string;        (* json:"server_url" *)
  APIToken : string;         (* json:"-": excluded from JSON serialization *)
  UserID : string;           (* json:"user_id,omitempty" *)
  Email : string;            (* json:"email,omitempty" *)
  VerboseLogging : bool;     (* json:"verbose_logging,omitempty" *)
  AutoStart : option bool    (* json:"auto_start,omitempty", a pointer *)
}.

Definition with_token (token : string) (c : Config) : Config :=
  mkConfig (ServerURL c) token (UserID c) (Email c) (VerboseLogging c)
           (AutoStart c).

(** [KeyringService] is the application identifier for the OS keyring. *)
Definition KeyringService : string := "vyx-proxy-client".

(** [SecureStorage]: the service and the account of a keyring entry. *)
Record SecureStorage : Type := mkSecureStorage {
  service : string;
  userID : string
}.

(** [NewSecureStorage]: [userID] is the account identifier in the keyring. *)
Definition NewSecureStorage (userID : string) : SecureStorage :=
  let userID := if String.eqb userID "" then "default-user"%string else userID in
  mkSecureStorage KeyringService userID.

(** The machine: the home directory, the directories and the files (their
    bytes and permission bits), the OS keyring keyed by service and
    account, and the log. *)
Record World : Type := mkWorld {
  home : string;
  dirs : gset string;
  files : gmap string (string * Z);
  keyring : gmap (string * string) string;
  logs : list string
}.

(** What the operating system answers during one [SaveConfig]: the error,
    if any, of [os.MkdirAll], of [keyring.Set] and of [os.WriteFile]. *)
Record Oracle : Type := mkOracle {
  mkdir_err : option goerror;
  keyring_err : option goerror;
  write_err : option goerror
}.

Definition log (line : string) (w : World) : World :=
  mkWorld (home w) (dirs w) (files w) (keyring w) (logs w ++ [line]).

(** [SaveToken] stores the API token in the OS keyring. *)
Definition SaveToken (o : Oracle) (s : SecureStorage) (token : string)
    (w : World) : World * option goerror :=
  if String.eqb token "" then (w, Some "token cannot be empty"%string)
  else
    match keyring_err o with
    | Some err =>
        (w, Some ("failed to save token to secure storage: " +:+ err))
    | None =>
        let w := mkWorld (home w) (dirs w) (files w)
                         (<[(service s, userID s) := token]> (keyring w))
                         (logs w) in
        (log ("Token securely saved for user: " +:+ userID s) w, None)
    end.

Section WithConfigLib.
Context `{ConfigLib}.

Definition dquote : string := String (ascii_of_nat 34) EmptyString.
Definition newline : string := String (ascii_of_nat 10) EmptyString.

(** One member of the object as [json.MarshalIndent(v, "", "  ")] lays it
    out. *)
Definition member (key value : string) : string :=
  "  " +:+ dquote +:+ key +:+ dquote +:+ ": " +:+ value.

Definition json_bool (b : bool) : string := if b then "true" else "false".

(** The members of a [Config], in the order of the struct: [APIToken] has
    none, and the [omitempty] ones are left out when empty. *)
Definition members (c : Config) : list string :=
  [member "server_url" (json_string (ServerURL c))]
  ++ (if String.eqb (UserID c) "" then []
      else [member "user_id" (json_string (UserID c))])
  ++ (if String.eqb (Email c) "" then []
      else [member "email" (json_string (Email c))])
  ++ (if VerboseLogging c then [member "verbose_logging" (json_bool true)]
      else [])
  ++ match AutoStart c with
     | Some b => [member "auto_start" (json_bool b)]
     | None => []
     end.

Fixpoint join (sep : string) (l : list string) : string :=
  match l with
  | [] => EmptyString
  | [x] => x
  | x :: l' => x +:+ sep +:+ join sep l'
  end.

Definition MarshalIndent (c : Config) : string :=
  "{" +:+ newline +:+ join ("," +:+ newline) (members c) +:+ newline +:+ "}".

(** [getConfigPath] returns the path to config.json. *)
Definition getConfigPath (w : World) : string :=
  filepath_Join [home w; ".vyx"; "config.json"]%string.

(** [os.WriteFile(path, data, perm)]: the permission bits apply to a file
    that is created. *)
Definition WriteFile (path data : string) (perm : Z) (w : World) : World :=
  let mode := match files w !! path with
              | Some (_, m) => m
              | None => perm
              end in
  mkWorld (home w) (dirs w) (<[path := (data, mode)]> (files w)) (keyring w)
          (logs w).

(** [SaveConfig] writes the configuration to config.json and stores the
    token in secure storage. *)
Definition SaveConfig (o : Oracle) (config : Config) (w : World)
  : World * option goerror :=
  let configPath := getConfigPath w in
  (* Create config directory if it doesn't exist *)
  let configDir := filepath_Dir configPath in
  match mkdir_err o with
  | Some err => (w, Some err)
  | None =>
      let w := mkWorld (home w) ({[configDir]} ∪ dirs w) (files w) (keyring w)
                       (logs w) in
      (* Save token to secure storage (OS keyring) if present *)
      let w :=
        if negb (String.eqb (APIToken config) "")
           && negb (String.eqb (UserID config) "")
        then
          let storage := NewSecureStorage (UserID config) in
          match SaveToken o storage (APIToken config) w with
          | (w, Some err) =>
              log ("Warning: Failed to save token to secure storage: " +:+ err) w
          | (w, None) => w
          end
        else w in
      (* Marshal config to JSON (APIToken excluded) *)
      let data := MarshalIndent config in
      match write_err o with
      | Some err => (w, Some err)
      | None => (WriteFile configPath data 384 w, None)
      end
  end.

End WithConfigLib.

(** Stand-ins to run the functions on examples: strings without characters
    that JSON escapes, and Unix paths. *)
Definition plain_configlib : ConfigLib := {|
  json_string s :=
    String (ascii_of_nat 34) s +:+ String (ascii_of_nat 34) EmptyString;
  filepath_Join l := (fix go (l : list string) : string :=
                        match l with
                        | [] => EmptyString
                        | [x] => x
                        | x :: l' => x +:+ "/" +:+ go l'
                        end) l;
  filepath_Dir p := p
|}.

End Config.

(** ** Binary64 numbers by class, exponent and mantissa *)

Module Binary64.

(** A key that orders the numbers as [<] does: first the class (negative
    infinity, negative, zero, positive, positive infinity), then exponent
    and mantissa, reversed for the negative ones. *)
Definition sf_key (f : spec_float) : Z * Z * Z :=
  match f with
  | S754_zero _ => (0, 0, 0)
  | S754_infinity true => (-2, 0, 0)
  | S754_infinity false => (2, 0, 0)
  | S754_nan => (0, 0, 0)
  | S754_finite true m e => (-1, - e, - Z.pos m)
  | S754_finite false m e => (1, e, Z.pos m)
  end.

Definition key_lt (a b : Z * Z * Z) : Prop :=
  a.1.1 < b.1.1
  \/ (a.1.1 = b.1.1
      /\ (a.1.2 < b.1.2 \/ (a.1.2 = b.1.2 /\ a.2 < b.2))).

Definition sf_is_nan (f : spec_float) : bool :=
  match f with S754_nan => true | _ => false end.

End Binary64.

(** ** Server discovery and selection: [server_discovery.go] *)

Module Directory.
Import Net.

(** [float64] is the kernel's binary64. *)
Abbreviation float64 := PrimFloat.float.

(** [float64(n)] for an [int64] that is a number of milliseconds. *)
Definition float64_of_int (n : Z) : float64 :=
  if n <? 0 then PrimFloat.opp (PrimFloat.of_uint63 (Uint63.of_Z (- n)))
  else PrimFloat.of_uint63 (Uint63.of_Z n).

(** The constants of the score, as binary64 values: 0.6, 0.4, 10 and 90. *)
Definition c0_6 : float64 := 0x1.3333333333333p-1%float.
Definition c0_4 : float64 := 0x1.999999999999ap-2%float.
Definition c10 : float64 := 10%float.
Definition c90 : float64 := 90%float.

Record Connections : Type := mkConnections {
  Current : Z;
  Maximum : Z;
  Available : Z;
  UtilizationPercent : float64
}.

(** [ServerInfo] represents a QUIC server from the API. *)
Record ServerInfo : Type := mkServerInfo {
  ID : string;
  Name : string;
  Region : string;
  Address : string;
  Status : string;
  Conns : Connections
}.

Definition utilization (s : ServerInfo) : float64 :=
  UtilizationPercent (Conns s).

(** The answer to an HTTP GET: a transport error, or a status code and
    what decoding the body as a [ServerListResponse] gives, its [servers]
    or an error. *)
Inductive HttpResult : Type :=
  | HttpErr (e : goerror)
  | HttpResp (status : Z) (body : goerror + list ServerInfo).

(** The outside world of the directory: the HTTP exchange under a client
    timeout, and a TCP probe under a dial timeout, which gives the time it
    took or fails. *)
Record DirEnv : Type := mkDirEnv {
  http_get : Z -> string -> HttpResult;
  probe : Z -> string -> goerror + Z
}.

Definition Millisecond : Z := 1000000.
Definition Second : Z := 1000000000.

(** [d.Milliseconds()]. *)
Definition Milliseconds (d : Z) : Z := Z.quot d Millisecond.

Section WithNetLib.
Context `{NetLib}.

(** [DiscoverServers] fetches the list of available servers from the API. *)
Definition DiscoverServers (env : DirEnv) (apiURL : string)
  : goerror + list ServerInfo :=
  match http_get env (5 * Second) (apiURL +:+ "/api/servers") with
  | HttpErr err => inl ("failed to fetch server list: " +:+ err)
  | HttpResp status body =>
      if negb (status =? 200) then inl "API returned status"%string
      else
        match body with
        | inl err => inl ("failed to decode response: " +:+ err)
        | inr [] => inl "no servers available"%string
        | inr servers => inr servers
        end
  end.

(** The address [TestLatency] dials: the HTTPS port of the host. *)
Definition testAddr (address : string) : string :=
  let host := match SplitHostPort address with
              | inr (host, _) => host
              | inl _ => address
              end in
  JoinHostPort host "443".

(** [TestLatency] measures latency to a server address (TCP connection
    probe); a failed probe counts as five seconds. *)
Definition TestLatency (env : DirEnv) (address : string) : Z :=
  match probe env (3 * Second) (testAddr address) with
  | inl _ => 5 * Second
  | inr latency => latency
  end.

Record serverScore : Type := mkServerScore {
  server : ServerInfo;
  latency : Z;
  score : float64  (* Lower is better *)
}.

(** The milliseconds that enter the score: those of the probe, or 5000
    when it failed. *)
Definition latency_ms (env : DirEnv) (s : ServerInfo) : Z :=
  match probe env (3 * Second) (testAddr (Address s)) with
  | inl _ => 5000
  | inr d => Milliseconds d
  end.

(** The score of a candidate: load weight 60%, latency weight 40%. *)
Definition totalScore (env : DirEnv) (s : ServerInfo) : float64 :=
  let loadScore := utilization s in
  let latencyScore :=
    (float64_of_int (Milliseconds (TestLatency env (Address s))) / c10)%float in
  ((loadScore * c0_6) + (latencyScore * c0_4))%float.

(** [best := l[0]; for _, s := range l[1:] { if key(s) < key(best) { best = s } }] *)
Definition lowest {A : Type} (key : A -> float64) (best : A) (l : list A) : A :=
  fold_left (fun best s => if (key s <? key best)%float then s else best) l best.

Definition overloaded (s : ServerInfo) : bool :=
  (c90 <? utilization s)%float.

Definition is_healthy (s : ServerInfo) : bool :=
  String.eqb (Status s) "healthy".

(** The candidates selection works on: the healthy ones, or all of them
    when none is healthy. *)
Definition healthy_set (servers : list ServerInfo) : list ServerInfo :=
  match List.filter is_healthy servers with
  | [] => servers
  | healthy => healthy
  end.

(** [SelectBestServer] chooses the optimal server based on load and
    latency: the address or the error, and the addresses probed, in
    order. *)
Definition SelectBestServer (env : DirEnv) (servers : list ServerInfo)
  : (goerror + string) * list string :=
  match servers with
  | [] => (inl "no servers available"%string, [])
  | _ =>
      (* Filter out unhealthy servers *)
      let healthy := healthy_set servers in
      match healthy with
      | [only] => (inr (Address only), [])   (* If only one server, use it *)
      | _ =>
          (* Skip overloaded servers (>90% utilization), score the others *)
          let kept := List.filter (fun s => negb (overloaded s)) healthy in
          let scores :=
            List.map (fun s => mkServerScore s (TestLatency env (Address s))
                                             (totalScore env s)) kept in
          let probes := List.map (fun s => testAddr (Address s)) kept in
          match scores with
          | [] =>
              (* All servers overloaded, use least loaded *)
              match healthy with
              | [] => (inl "no servers available"%string, probes)
              | h0 :: rest => (inr (Address (lowest utilization h0 rest)), probes)
              end
          | s0 :: rest =>
              (* Select server with lowest score *)
              (inr (Address (server (lowest score s0 rest))), probes)
          end
      end
  end.

(** [GetOptimalServer] discovers and selects the best server, with a
    fallback.  [debugMode] stands for
    [config.GlobalConfig != nil && config.GlobalConfig.DebugMode]. *)
Definition GetOptimalServer (debugMode : bool) (env : DirEnv)
    (apiURL fallbackAddr : string) : string :=
  if debugMode then "127.0.0.1:8443"%string
  else
    match DiscoverServers env apiURL with
    | inl _ => fallbackAddr
    | inr servers =>
        match fst (SelectBestServer env servers) with
        | inl _ => fallbackAddr
        | inr bestAddr => bestAddr
        end
    end.

End WithNetLib.

End Directory.

(** ** Scenarios

    Concrete networks, states and traces on which the functions are run. *)

Module Scenarios.
Import Msg Net Dial Conn Directory.

#[local] Existing Instance plain_netlib.
#[local] Existing Instance plain_base64.

(** A session with a control stream and no sub-connection. *)
Definition running : State := set_quic (Some 1%nat) (Some 1%nat) initial.

(** A network where every dial succeeds. *)
Definition open_env : NetEnv := {|
  dial_error d ctx network address := None;
  LookupHost r ctx host := inl "lookup failed"%string
|}.

(** The destination accepts; later its socket reports the end of the
    stream; every write on the control stream succeeds. *)
Definition o_accept : Oracle :=
  mkOracle open_env (inl "EOF"%string) None None None.

(** The destination refuses the connection (scenario S3). *)
Definition o_refuse : Oracle :=
  mkOracle s3_env (inl "EOF"%string) None None None.

(** The destination accepts, and the write of CONNECTED fails. *)
Definition o_confirm_fails : Oracle :=
  mkOracle open_env (inl "EOF"%string) None (Some "stream closed"%string) None.

Definition connect_y_ok : Message := mkMessage "connect" "y" "a.example:80" "".
Definition connect_y_refused : Message := mkMessage "connect" "y" "127.0.0.1:1" "".

(** A sub-connection whose queue holds 10000 slices. *)
Definition full_queue : State :=
  set_clientConns {[ "x" := 0%nat ]}
    (set_heap {[ 0%nat := mkConnection (mkSocket "a.example:80" false [] None)
                            (mkChan 10000 (replicate (Z.to_nat 10000) [x00])
                                    false) ]}
       running).

(** The server asks for ["y"]; the destination accepts; then its socket
    reports the end of the stream and both relay tasks end. *)
Definition accepted_then_ended : list Event :=
  [EReader None (Received connect_y_ok); ETask 0 o_accept;
   ETask 0 o_accept; ETask 0 o_accept].

(** The server asks for ["y"]; the destination accepts but CONNECTED cannot
    be written; later the reader meets the end of the control stream. *)
Definition confirmation_lost : list Event :=
  [EReader None (Received connect_y_ok); ETask 0 o_confirm_fails;
   EReader None (ReadError "EOF")].

Definition candidate (name address status : string) (u : float) : ServerInfo :=
  mkServerInfo name name "eu" address status (mkConnections 0 100 100 u).

(** Three candidates: two healthy ones, of which the less loaded cannot be
    probed, and one that is not healthy. *)
Definition three : list ServerInfo :=
  [candidate "a" "a.example:8443" "healthy" 50%float;
   candidate "b" "b.example:8443" "healthy" 20%float;
   candidate "c" "c.example:8443" "draining" 5%float].

(** The API answers with the three candidates; [a.example:443] connects in
    20 ms and nothing else does. *)
Definition three_env : DirEnv := {|
  http_get t url := HttpResp 200 (inr three);
  probe t address :=
    if String.eqb address "a.example:443" then inr (20 * Millisecond)
    else inl "i/o timeout"%string
|}.

(** The API cannot be reached. *)
Definition down_env : DirEnv := {|
  http_get t url := HttpErr "connection refused";
  probe t address := inl "i/o timeout"%string
|}.

(** A fresh machine, and a login saved on it. *)
Definition fresh_machine : Config.World := Config.mkWorld "/home/u" ∅ ∅ ∅ [].

Definition all_fine : Config.Oracle := Config.mkOracle None None None.

End Scenarios.

(** ** More scenarios *)

Module Cases.
Import Frame.

(** An identifier of 65536 bytes: one more than a 16-bit length can tell. *)
Definition long_id : string :=
  string_of_list_byte (repeat x61 (Z.to_nat 65536)).

(** The writes [WriteBinaryMessage] makes, in order: the bytes and the
    context under which a failure is reported.  An empty field is not
    written. *)
Definition frame_writes (msg : BinaryMessage) : list (string * list byte) :=
  let idLen := uint16 (len_string (ID msg)) in
  let addrLen := uint16 (len_string (Addr msg)) in
  let dataLen := uint32 (len_bytes (Data msg)) in
  [("failed to write message type"%string, [Type_ msg]);
   ("failed to write ID length"%string, put_uint16 idLen)]
  ++ (if 0 <? idLen
      then [("failed to write ID"%string, list_byte_of_string (ID msg))]
      else [])
  ++ [("failed to write addr length"%string, put_uint16 addrLen)]
  ++ (if 0 <? addrLen
      then [("failed to write addr"%string, list_byte_of_string (Addr msg))]
      else [])
  ++ [("failed to write data length"%string, put_uint32 dataLen)]
  ++ (if 0 <? dataLen then [("failed to write data"%string, Data msg)] else []).

(** Making writes one after the other, up to the first that fails. *)
Fixpoint write_each {W} `{Writer W} (ws : list (string * list byte))
  : WM W unit :=
  match ws with
  | [] => wret tt
  | (ctx, p) :: ws' => wbind (wtry ctx p) (fun _ => write_each ws')
  end.

End Cases.

(** ** What the relay engine writes on the control stream *)

Module Wire.
Import Msg Conn.

(** The frame types the relay engine writes. *)
Definition relay_types : list string :=
  ["connected"; "data"; "close"; "pong"]%string.

Definition relay_frame (m : Message) : bool :=
  existsb (String.eqb (Type_ m)) relay_types.

(** A CONNECTED(id) is among the frames. *)
Definition has_connected (id : string) (l : list Message) : bool :=
  existsb (is_connected id) l.

(** Every DATA frame of the list comes after a CONNECTED frame for the
    same id. *)
Fixpoint data_after_connected (seen l : list Message) : bool :=
  match l with
  | [] => true
  | m :: l' =>
      (if String.eqb (Type_ m) "data" then has_connected (ID m) seen else true)
      && data_after_connected (seen ++ [m]) l'
  end.

(** No event of the trace installs a control stream. *)
Definition no_session (ev : Event) : bool :=
  match ev with ESession _ _ => false | _ => true end.

(** [IsConnected] returns true if currently connected to the QUIC server. *)
Definition IsConnected (st : State) : bool :=
  match quicConn st, quicStream st with
  | Some _, Some _ => true
  | _, _ => false
  end.

(** The frames one step adds: [app] after what was sent, none without a
    stream, all of the relay types. *)
Definition adds (st st' : State) (app : list Message) : Prop :=
  sent st' = sent st ++ app
  /\ quicStream st' = quicStream st
  /\ (quicStream st = None -> app = [])
  /\ forallb relay_frame app = true.

(** Every relay task towards the stream was started after the CONNECTED
    frame of its id, and every DATA frame comes after one. *)
Definition started_after_connected (S : Sys) : Prop :=
  data_after_connected [] (sent (state S)) = true
  /\ forall cc id, In (RelayConnToQuic cc id) (tasks S) ->
                   has_connected id (sent (state S)) = true.

(** The frame of a write that may not go out. *)
Ltac frame_cases Hm :=
  match type of Hm with
  | In _ (if ?d then _ else _) =>
      destruct d; [destruct Hm as [<- | []] | destruct Hm]
  end.

(** The server pings, then asks for ["y"], and the destination accepts. *)
Definition ping_then_connect : list Event :=
  [EReader None (Received (mkMessage "ping" "p" "" ""));
   EReader None (Received Scenarios.connect_y_ok);
   ETask 0 Scenarios.o_accept].

End Wire.

(** ** The queues of the sub-connections *)

Module Queue.
Import Msg Net Conn.

(** The queue of a connection has the capacity [handleConnect] gave it
    and holds no more slices than that. *)
Definition chan_bounded (cc : Connection) : Prop :=
  ch_cap (dataChan cc) = 10000
  /\ Z.of_nat (List.length (ch_buf (dataChan cc))) <= 10000.

Definition heap_bounded (h : gmap nat Connection) : Prop :=
  forall l cc, h !! l = Some cc -> chan_bounded cc.

Definition queues_bounded (st : State) : Prop := heap_bounded (heap st).

(** The slices [relayFromChanToConn] writes: the empty ones are skipped. *)
Definition payloads (q : list (list byte)) : list (list byte) :=
  List.filter (fun d => negb (Nat.eqb (List.length d) 0)) q.

(** A DATA frame for each text, as the reader receives them. *)
Definition data_frames (w : option goerror) (id : string) (ds : list string)
  : list Event :=
  List.map (fun d => EReader w (Received (mkMessage "data" id "" d))) ds.

(** A session starts, the server asks for ["y"], and the destination
    accepts. *)
Definition session_then_connect : list Event :=
  [ESession 1 1; EReader None (Received Scenarios.connect_y_ok);
   ETask 0 Scenarios.o_accept].

(** A session with one sub-connection ["x"], its queue empty and its two
    relay tasks running. *)
Definition one_open : Sys :=
  mkSys
    (set_clientConns {[ "x"%string := 0%nat ]}
       (set_heap {[ 0%nat := mkConnection
                               (mkSocket "a.example:80" false [] None)
                               (mkChan 10000 [] false) ]}
          Scenarios.running))
    [RelayConnToQuic 0 "x"; RelayChanToConn 0 "x"].

End Queue.

(** ** Credentials: the rest of package [config], and package [auth] *)

Module Account.
Import Net Config.

(** What the OS keyring answers besides what it holds: the error, if any,
    of [keyring.Get] and of [keyring.Delete] other than [ErrNotFound]. *)
Record KeyOracle : Type := mkKeyOracle {
  get_err : option goerror;
  delete_err : option goerror
}.

Definition set_keyring (k : gmap (string * string) string) (w : World)
  : World :=
  mkWorld (home w) (dirs w) (files w) k (logs w).

(** [GetToken] retrieves the API token from the OS keyring. *)
Definition GetToken (ko : KeyOracle) (s : SecureStorage) (w : World)
  : string * option goerror :=
  match get_err ko with
  | Some err =>
      (EmptyString,
       Some ("failed to retrieve token from secure storage: " +:+ err))
  | None =>
      match keyring w !! (service s, userID s) with
      | None =>
          (EmptyString,
           Some ("no token found in secure storage (user: "
                 +:+ userID s +:+ ")"))
      | Some token =>
          if String.eqb token ""
          then (EmptyString, Some "retrieved token is empty"%string)
          else (token, None)
      end
  end.

(** [DeleteToken] removes the API token from the OS keyring. *)
Definition DeleteToken (ko : KeyOracle) (s : SecureStorage) (w : World)
  : World * option goerror :=
  match delete_err ko with
  | Some err =>
      (w, Some ("failed to delete token from secure storage: " +:+ err))
  | None =>
      match keyring w !! (service s, userID s) with
      | None =>
          (* Ignore error if token doesn't exist *)
          (log ("Token not found in secure storage (user: " +:+ userID s
                +:+ "), nothing to delete") w, None)
      | Some _ =>
          let w := set_keyring (delete (service s, userID s) (keyring w)) w in
          (log ("Token securely deleted for user: " +:+ userID s) w, None)
      end
  end.

(** [HasToken] checks if a token exists in secure storage. *)
Definition HasToken (ko : KeyOracle) (s : SecureStorage) (w : World) : bool :=
  match snd (GetToken ko s w) with
  | None => true
  | Some _ => false
  end.

(** [MigrateFromPlaintextConfig] migrates an existing plaintext token to
    secure storage. *)
Definition MigrateFromPlaintextConfig (o : Oracle)
    (plaintextToken userID : string) (w : World) : World * option goerror :=
  if String.eqb plaintextToken ""
  then (w, Some "no plaintext token to migrate"%string)
  else
    let storage := NewSecureStorage userID in
    match SaveToken o storage plaintextToken w with
    | (w, Some err) => (w, Some ("migration failed: " +:+ err))
    | (w, None) =>
        (log ("Successfully migrated token to secure storage for user: "
              +:+ userID) w, None)
    end.

(** The package variable [GlobalConfig], a pointer that may be nil, and
    the machine. *)
Record Pkg : Type := mkPkg {
  GlobalConfig : option Config;
  world : World
}.

(** [IsLoggedIn] checks if the user is authenticated. *)
Definition IsLoggedIn (ko : KeyOracle) (p : Pkg) : bool :=
  match GlobalConfig p with
  | None => false
  | Some c =>
      if String.eqb (UserID c) "" then false
      else if negb (String.eqb (APIToken c) "") then true
      else HasToken ko (NewSecureStorage (UserID c)) (world p)
  end.

(** [ClearAuthToken] removes the authentication token from secure
    storage. *)
Definition ClearAuthToken (ko : KeyOracle) (p : Pkg) : Pkg * option goerror :=
  match GlobalConfig p with
  | None => (p, None)
  | Some c =>
      if String.eqb (UserID c) "" then (p, None)
      else
        let storage := NewSecureStorage (UserID c) in
        match DeleteToken ko storage (world p) with
        | (w, Some err) => (mkPkg (GlobalConfig p) w, Some err)
        | (w, None) => (mkPkg (Some (with_token "" c)) w, None)
        end
  end.

(** [GetAutoStartEnabled] returns the autostart preference. *)
Definition GetAutoStartEnabled (p : Pkg) : bool :=
  match GlobalConfig p with
  | None => true
  | Some c =>
      match AutoStart c with
      | None => true
      | Some b => b
      end
  end.

Definition with_AutoStart (a : option bool) (c : Config) : Config :=
  mkConfig (ServerURL c) (APIToken c) (UserID c) (Email c) (VerboseLogging c)
           a.

(** What [encoding/json] makes of the bytes of config.json: the [Config]
    it decodes, and the ["api_token"] member older versions wrote. *)
Class ConfigReader : Type := {
  Unmarshal_Config : string -> goerror + Config;
  Unmarshal_legacy : string -> goerror + string
}.

(** What the operating system answers during one [LoadConfig]: the error
    of [os.ReadFile], if any, and the answers to the [SaveConfig] of a
    default configuration, to the migration, to the [SaveConfig] after
    it, and to the keyring lookup. *)
Record LoadOracle : Type := mkLoadOracle {
  read_err : option goerror;
  o_default : Oracle;
  o_migrate : Oracle;
  o_resave : Oracle;
  o_key : KeyOracle
}.

(** The answer of an HTTP POST and the decoding of its body. *)
Record UserProfile : Type := mkUserProfile {
  ID : string;
  Email_ : string
}.

Record AuthResponse : Type := mkAuthResponse {
  Token : string;
  RefreshToken : string;
  User : UserProfile
}.

Inductive HttpOutcome : Type :=
  | PostFailed (err : goerror)
  | Response (status : Z) (body : string) (decoded : goerror + AuthResponse).

Definition StatusOK : Z := 200.

Section WithConfigLib.
Context `{ConfigLib}.

(** [SetAutoStartEnabled] sets the autostart preference. *)
Definition SetAutoStartEnabled (o : Oracle) (enabled : bool) (p : Pkg)
  : Pkg * option goerror :=
  match GlobalConfig p with
  | None => (p, Some "config not initialized"%string)
  | Some c =>
      let c := with_AutoStart (Some enabled) c in
      let '(w, err) := SaveConfig o c (world p) in
      (mkPkg (Some c) w, err)
  end.

(** The block of [LoadConfig] that checks for a legacy plaintext token in
    the JSON and migrates it to the keyring. *)
Definition migrate_legacy `{ConfigReader} (lo : LoadOracle) (data : string)
    (config : Config) (w : World) : Config * World :=
  match Unmarshal_legacy data with
  | inr legacy =>
      if negb (String.eqb legacy "") then
        let w :=
          log "SECURITY: Migrating plaintext token to secure storage..." w in
        if negb (String.eqb (UserID config) "") then
          match MigrateFromPlaintextConfig (o_migrate lo) legacy
                  (UserID config) w with
          | (w, Some err) =>
              (config,
               log ("Warning: Failed to migrate token to secure storage: "
                    +:+ err) w)
          | (w, None) =>
              (* Migration successful - re-save config without plaintext
                 token *)
              let config := with_token legacy config in
              match SaveConfig (o_resave lo) config w with
              | (w, Some err) =>
                  (config,
                   log ("Warning: Failed to save config after migration: "
                        +:+ err) w)
              | (w, None) => (config, w)
              end
          end
        else (config, w)
      else (config, w)
  | inl _ => (config, w)
  end.

(** The block of [LoadConfig] that retrieves the token from secure
    storage, if the configuration names a user. *)
Definition retrieve_token (ko : KeyOracle) (config : Config) (w : World)
  : Config * World :=
  if negb (String.eqb (UserID config) "") then
    let storage := NewSecureStorage (UserID config) in
    match GetToken ko storage w with
    | (token, None) => (with_token token config, w)
    | (_, Some _) =>
        (config,
         log ("No token found in secure storage for user " +:+ UserID config)
             w)
    end
  else (config, w).

Definition defaultConfig : Config :=
  mkConfig "proxy.vyx.network" "" "" "" false None.

(** [LoadConfig] reads the configuration from config.json and retrieves
    the token from secure storage.  The decoded [Config] has no token:
    the field is tagged [json:"-"]. *)
Definition LoadConfig `{ConfigReader} (lo : LoadOracle) (p : Pkg)
  : Pkg * (goerror + Config) :=
  let w := world p in
  let configPath := getConfigPath w in
  match files w !! configPath with
  | None =>
      (* Create default config if doesn't exist *)
      let w := fst (SaveConfig (o_default lo) defaultConfig w) in
      (mkPkg (Some defaultConfig) w, inr defaultConfig)
  | Some (data, _) =>
      match read_err lo with
      | Some err => (p, inl err)
      | None =>
          match Unmarshal_Config data with
          | inl err => (p, inl err)
          | inr config =>
              let config := with_token "" config in
              let '(config, w) := migrate_legacy lo data config w in
              let '(config, w) := retrieve_token (o_key lo) config w in
              (mkPkg (Some config) w, inr config)
          end
      end
  end.

(** [Login] authenticates the user and saves the credentials; [http] is
    the answer to the POST of the credentials.  [None] is the nil
    dereference of [GlobalConfig]. *)
Definition Login (http : HttpOutcome) (o : Oracle) (p : Pkg)
  : option (Pkg * option goerror) :=
  match http with
  | PostFailed err => Some (p, Some err)
  | Response status body decoded =>
      if negb (status =? StatusOK)
      then Some (p, Some ("login failed: " +:+ body))
      else
        match decoded with
        | inl err => Some (p, Some err)
        | inr authResp =>
            match GlobalConfig p with
            | None => None
            | Some c =>
                let c := mkConfig (ServerURL c) (Token authResp)
                                  (ID (User authResp)) (Email_ (User authResp))
                                  (VerboseLogging c) (AutoStart c) in
                let '(w, err) := SaveConfig o c (world p) in
                Some (mkPkg (Some c) w, err)
            end
        end
  end.

(** [Register] creates a new account. *)
Definition Register (http : HttpOutcome) (o : Oracle) (p : Pkg)
  : option (Pkg * option goerror) :=
  match http with
  | PostFailed err => Some (p, Some err)
  | Response status body decoded =>
      if negb (status =? StatusOK)
      then Some (p, Some ("registration failed: " +:+ body))
      else
        match decoded with
        | inl err => Some (p, Some err)
        | inr authResp =>
            match GlobalConfig p with
            | None => None
            | Some c =>
                let c := mkConfig (ServerURL c) (Token authResp)
                                  (ID (User authResp)) (Email_ (User authResp))
                                  (VerboseLogging c) (AutoStart c) in
                let '(w, err) := SaveConfig o c (world p) in
                Some (mkPkg (Some c) w, err)
            end
        end
  end.

(** [Logout] clears the credentials from both memory and secure
    storage. *)
Definition Logout (ko : KeyOracle) (o : Oracle) (p : Pkg)
  : option (Pkg * option goerror) :=
  match ClearAuthToken ko p with
  | (p, Some err) =>
      Some (p, Some ("failed to clear authentication token: " +:+ err))
  | (p, None) =>
      match GlobalConfig p with
      | None => None
      | Some c =>
          (* Clear user data from config *)
          let c := mkConfig (ServerURL c) "" "" "" (VerboseLogging c)
                            (AutoStart c) in
          let '(w, err) := SaveConfig o c (world p) in
          Some (mkPkg (Some c) w, err)
      end
  end.

End WithConfigLib.

(** A keyring that answers. *)
Definition key_fine : KeyOracle := mkKeyOracle None None.

(** The user ["u1"] logged in on a fresh machine, the token in memory. *)
Definition logged_in : Pkg :=
  mkPkg (Some (mkConfig "proxy.vyx.network" "secret" "u1" "u@example.org"
                        false None))
        (mkWorld "/home/u" ∅ ∅ {[ (KeyringService, "u1"%string) := "secret"%string ]} []).

(** The server accepts the credentials of ["u1"]. *)
Definition accepted : HttpOutcome :=
  Response 200 "{}"
    (inr (mkAuthResponse "secret" "r" (mkUserProfile "u1" "u@example.org"))).

(** A package whose configuration was loaded on a fresh machine. *)
Definition loaded : Pkg :=
  mkPkg (Some (mkConfig "proxy.vyx.network" "" "" "" false None))
        (mkWorld "/home/u" ∅ ∅ ∅ []).

(** A machine with the config.json of an older version, readable by
    everyone, and a reader that knows that file: it names the user ["u1"]
    and holds the token ["old-token"]. *)
Definition old_file : string := "<config.json of an older version>".

Definition old_config : Config :=
  mkConfig "proxy.vyx.network" "" "u1" "" false None.

Definition old_machine : Pkg :=
  mkPkg None
        (mkWorld "/home/u" ∅
                 {[ "/home/u/.vyx/config.json"%string := (old_file, 420) ]}
                 ∅ []).

Definition old_reader : ConfigReader := {|
  Unmarshal_Config data :=
    if String.eqb data old_file then inr old_config
    else inl "unexpected end of JSON input"%string;
  Unmarshal_legacy data :=
    if String.eqb data old_file then inr "old-token"%string
    else inl "unexpected end of JSON input"%string
|}.

(** A machine that answers every request. *)
Definition load_fine : LoadOracle :=
  mkLoadOracle None (mkOracle None None None) (mkOracle None None None)
               (mkOracle None None None) key_fine.

End Account.

(** ** The connection loop: [ConnectQuicServer] *)

Module Supervisor.
Import Msg Net Dial Conn Directory Backoff.

(** The variables of the loop. *)
Record Loop : Type := mkLoop {
  connectionAttempts : Z;
  consecutiveAuthFailures : Z;
  lastConnectionSuccessful : bool
}.

Definition loop0 : Loop := mkLoop 0 0 false.

(** What the loop reads of the [Config] that [config.GlobalConfig] points
    to. *)
Record Settings : Type := mkSettings {
  DebugMode : bool;
  ServerURL : string
}.

Record TLSConfig : Type := mkTLSConfig {
  NextProtos : list string;
  MinVersion : Z;
  ServerName : string;
  InsecureSkipVerify : bool
}.

Definition VersionTLS12 : Z := 771.

Definition Millisecond : Z := 1000000.

(** What a turn of the loop does that can be seen from outside, in order:
    a status shown to the user, a line of the log, a sleep, a discovery of
    the servers, a QUIC dial, the closing of a QUIC connection.  Of the
    status record only the status text is followed. *)
Inductive Action : Type :=
  | UpdateStatus (status : string)
  | Log (line : string)
  | Sleep (d : Z)
  | Discover (apiURL fallbackAddr : string)
  | DialAddr (serverAddr : string) (tlsConf : TLSConfig)
  | CloseWithError (code : Z) (reason : string).

(** [fmt]: the text of an integer under [%d] and of a duration under
    [%v]. *)
Class Fmt : Type := {
  fmt_d : Z -> string;
  fmt_duration : Z -> string
}.

(** What the outside answers during one turn of the loop: what the other
    goroutines and the tray did since the turn before, the package
    variable [config.GlobalConfig] as the turn finds it (nil when no
    configuration was loaded), the directory, the error of
    [quic.DialAddr] or the connection, the error of [OpenStreamSync] or
    the stream, the result of [authenticateWithServer], that of
    [config.IsLoggedIn], and what happens while [quicReader] runs. *)
Record Turn : Type := mkTurn {
  t_meanwhile : list Event;
  t_config : option Settings;
  t_directory : DirEnv;
  t_dial : goerror + nat;
  t_stream : goerror + nat;
  t_auth : bool;
  t_loggedIn : bool;
  t_session : list Event
}.

(** How a run of the loop stands. *)
Record Run : Type := mkRun {
  vars : Loop;
  sys : Sys;
  actions : list Action;
  panicked : bool
}.

Section WithLibraries.
Context `{NetLib} `{Base64} `{Fmt}.

(** [buildTLSConfig] creates the TLS configuration from the server
    address, and logs the mode. *)
Definition buildTLSConfig (serverAddr : string) : TLSConfig * list Action :=
  (* Extract hostname from address *)
  let host :=
    if Contains serverAddr ":"
    then match SplitHostPort serverAddr with
         | inr (host, _) => host
         | inl _ => EmptyString
         end
    else serverAddr in
  if String.eqb host "localhost" || String.eqb host "127.0.0.1"
  then (mkTLSConfig ["vyx-proxy"%string] VersionTLS12 "" true,
        [Log "Development mode: Using InsecureSkipVerify for localhost"])
  else (mkTLSConfig ["vyx-proxy"%string] VersionTLS12 host false,
        [Log ("Production mode: Verifying TLS certificate for " +:+ host)]).

(** The API URL of production mode: the configured one, with https://
    in front if it names no protocol. *)
Definition production_apiURL (ServerURL : string) : string :=
  if String.eqb ServerURL "" then "https://vyx.network"%string
  else if negb (String.prefix "http://" ServerURL)
          && negb (String.prefix "https://" ServerURL)
       then "https://" +:+ ServerURL
       else ServerURL.

(** The wait after a failure, as the three failure branches write it. *)
Definition retry (attempts : Z) (authFailed notLoggedIn : bool)
  : list Action :=
  let retryDelay := getRetryDelay (attempts + 1) authFailed notLoggedIn in
  [Log ("Retrying in " +:+ fmt_duration retryDelay +:+ "..."); Sleep retryDelay].

(** The body of the loop of [ConnectQuicServer] from the choice of the
    server on, with the [Config] that [config.GlobalConfig] points to. *)
Definition attempt (cfg : Settings) (t : Turn) (L : Loop) (S : Sys)
  : Loop * Sys * list Action :=
    let '(serverAddr, a1) :=
      if DebugMode cfg then
        ("127.0.0.1:8443"%string,
         [Log ("DEBUG MODE: Using localhost server (QUIC: 127.0.0.1:8443"
               +:+ ", API: http://127.0.0.1:8080)")])
      else
        let apiURL := production_apiURL (ServerURL cfg) in
        (* the debug guard of [GetOptimalServer] reads the same [Config] *)
        (GetOptimalServer false (t_directory t) apiURL "us.vyx.network:8443",
         [Discover apiURL "us.vyx.network:8443"]) in
    let a2 :=
      if 0 <? connectionAttempts L
      then [Log ("Connection attempt #" +:+ fmt_d (connectionAttempts L + 1)
                 +:+ " to server: " +:+ serverAddr)]
      else [Log ("Using server: " +:+ serverAddr)] in
    let '(tlsConf, a3) := buildTLSConfig serverAddr in
    let a := a1 ++ a2 ++ a3 ++ [DialAddr serverAddr tlsConf] in
    match t_dial t with
    | inl err =>
        (mkLoop (connectionAttempts L + 1) (consecutiveAuthFailures L)
                (lastConnectionSuccessful L),
         S,
         a ++ [Log ("Failed to connect to QUIC server: " +:+ err);
               UpdateStatus ("Connection failed (attempt "
                             +:+ fmt_d (connectionAttempts L + 1) +:+ ")")]
           ++ retry (connectionAttempts L) false false)
    | inr conn =>
        let a := a ++ [Log "Connected to QUIC server";
                       UpdateStatus "Connected";
                       Sleep (100 * Millisecond)] in
        match t_stream t with
        | inl err =>
            (mkLoop (connectionAttempts L + 1) (consecutiveAuthFailures L)
                    (lastConnectionSuccessful L),
             S,
             a ++ [Log ("Failed to open QUIC stream: " +:+ err);
                   UpdateStatus "Stream failed";
                   CloseWithError 1 "failed to open stream"]
               ++ retry (connectionAttempts L) false false)
        | inr stream =>
            let S := mkSys (set_quic (Some conn) (Some stream) (state S))
                           (tasks S) in
            if negb (t_auth t) then
              let failures := consecutiveAuthFailures L + 1 in
              let notLoggedIn := negb (t_loggedIn t) in
              (mkLoop (connectionAttempts L + 1) failures
                      (lastConnectionSuccessful L),
               S,
               a ++ [Log ("Authentication failed (failure #"
                          +:+ fmt_d failures +:+ ")")]
                 ++ (if notLoggedIn
                     then [UpdateStatus
                             "Not logged in - Click 'Connect' to authenticate";
                           Log "Not logged in. Waiting for user authentication..."]
                     else [UpdateStatus "Authentication failed";
                           Log "Authentication failed. Check credentials or API token."])
                 ++ [CloseWithError 1 "authentication failed"]
                 ++ retry (connectionAttempts L) true notLoggedIn)
            else
              (* Reset counters on successful auth *)
              let L := mkLoop 0 0 true in
              let a := a ++ [Log "Successfully authenticated with server";
                             UpdateStatus "Running"] in
              (* Run the reader (blocks until connection closes) *)
              let S := run (t_session t) S in
              let a := a ++ [Log "QUIC connection closed, reconnecting...";
                             UpdateStatus "Reconnecting..."] in
              if lastConnectionSuccessful L then
                (mkLoop (connectionAttempts L) (consecutiveAuthFailures L) false,
                 S,
                 a ++ [Log "Previous connection was successful, attempting quick reconnect...";
                       Sleep (2 * Second)])
              else
                let retryDelay := getRetryDelay 1 false false in
                (L, S,
                 a ++ [Log ("Reconnecting in " +:+ fmt_duration retryDelay
                            +:+ "...");
                       Sleep retryDelay])
        end
    end.

(** One turn of the loop of [ConnectQuicServer].  With auto-reconnect on,
    the turn reads [config.GlobalConfig.DebugMode] without a nil check:
    [None] is the panic of that dereference when no configuration is
    loaded, which ends the program. *)
Definition turn (t : Turn) (L : Loop) (S : Sys)
  : option (Loop * Sys * list Action) :=
  let S := run (t_meanwhile t) S in
  (* Check if auto-reconnect is disabled (user clicked "Stop Sharing") *)
  if negb (shouldAutoReconnect (state S)) then
    Some (L, S, [UpdateStatus "Stopped"; Sleep (5 * Second)])
  else
    match t_config t with
    | None => None
    | Some cfg => Some (attempt cfg t L S)
    end.

(** The loop, for as many turns as the outside gives answers, or up to
    its panic: the variables of the loop, the package state, what was
    done, and whether the loop panicked. *)
Fixpoint ConnectQuicServer (ts : list Turn) (L : Loop) (S : Sys) : Run :=
  match ts with
  | [] => mkRun L S [] false
  | t :: ts' =>
      match turn t L S with
      | None => mkRun L (run (t_meanwhile t) S) [] true
      | Some (L1, S1, a) =>
          let r := ConnectQuicServer ts' L1 S1 in
          mkRun (vars r) (sys r) (a ++ actions r) (panicked r)
      end
  end.

End WithLibraries.

(** The waits among the actions, and the dials. *)
Definition sleeps (a : list Action) : list Z :=
  omap (fun x => match x with Sleep d => Some d | _ => None end) a.

Definition dials (a : list Action) : list string :=
  omap (fun x => match x with DialAddr s _ => Some s | _ => None end) a.

Definition discoveries (a : list Action) : list (string * string) :=
  omap (fun x => match x with Discover u f => Some (u, f) | _ => None end) a.

(** Every event but a call of [DisconnectQuic]. *)
Definition stays_on (ev : Event) : bool :=
  match ev with EDisconnect => false | _ => true end.

(** The turn gets to its dial and the dial fails: nothing in the meantime
    turned auto-reconnect off, the configuration is there, and
    [quic.DialAddr] returns an error. *)
Definition dial_fails (t : Turn) : bool :=
  forallb stays_on (t_meanwhile t)
  && match t_config t, t_dial t with
     | Some _, inl _ => true
     | _, _ => false
     end.

(** A URL names its protocol. *)
Definition has_scheme (u : string) : bool :=
  String.prefix "http://" u || String.prefix "https://" u.

(** Whether a turn gets as far as a session. *)
Definition reaches_session (t : Turn) : bool :=
  match t_dial t, t_stream t with
  | inr _, inr _ => t_auth t
  | _, _ => false
  end.

(** Debug mode, a turn whose dial is refused, and a turn that finds no
    configuration. *)
Definition debug_settings : Settings := mkSettings true "".

Definition refused : Turn :=
  mkTurn [] (Some debug_settings) Scenarios.down_env
         (inl "connection refused"%string) (inl "no stream"%string)
         false false [].

Definition unconfigured : Turn :=
  mkTurn [] None Scenarios.down_env (inl "connection refused"%string)
         (inl "no stream"%string) false false [].

Definition plain_fmt : Fmt := {|
  fmt_d z := "<int>"%string;
  fmt_duration z := "<duration>"%string
|}.

End Supervisor.

(** * Properties *)

(** ** Bytes and fixed-width integers *)

Lemma Z_of_byte_of_Z (z : Z) : Z_of_byte (byte_of_Z z) = z mod 256.
Proof.
  unfold Z_of_byte, byte_of_Z.
  assert (Hb : 0 <= z mod 256 < 256) by (apply Z.mod_pos_bound; lia).
  destruct (Byte.of_N (Z.to_N (z mod 256))) as [b|] eqn:E.
  - apply Byte.to_of_N in E. rewrite E. lia.
  - apply Byte.of_N_None_iff in E. lia.
Qed.

Lemma Z_of_byte_range (b : byte) : 0 <= Z_of_byte b < 256.
Proof.
  unfold Z_of_byte. pose proof (Byte.to_N_bounded b). lia.
Qed.

Lemma byte_of_Z_of_byte (b : byte) : byte_of_Z (Z_of_byte b) = b.
Proof.
  unfold byte_of_Z. rewrite Z.mod_small by apply Z_of_byte_range.
  unfold Z_of_byte. rewrite N2Z.id, Byte.of_to_N. reflexivity.
Qed.

Lemma get_put_uint16 (v : Z) :
  0 <= v < 65536 ->
  get_uint16 (byte_of_Z (v / 256)) (byte_of_Z v) = v.
Proof.
  intros Hv. unfold get_uint16. rewrite !Z_of_byte_of_Z.
  rewrite (Z.mod_small (v / 256)) by (split; [apply Z.div_pos | apply Z.div_lt_upper_bound]; lia).
  pose proof (Z.div_mod v 256). lia.
Qed.

Lemma get_put_uint32 (v : Z) :
  0 <= v < 4294967296 ->
  get_uint32 (byte_of_Z (v / 16777216)) (byte_of_Z (v / 65536))
             (byte_of_Z (v / 256)) (byte_of_Z v) = v.
Proof.
  intros Hv. unfold get_uint32. rewrite !Z_of_byte_of_Z.
  rewrite (Z.mod_small (v / 16777216))
    by (split; [apply Z.div_pos | apply Z.div_lt_upper_bound]; lia).
  replace 16777216 with (256 * 65536) at 1 by reflexivity.
  replace 65536 with (256 * 256) at 1 2 by reflexivity.
  rewrite <- !Z.div_div by lia.
  set (a := v / 256). set (b := a / 256). set (c := b / 256).
  pose proof (Z.div_mod v 256) as Hv0. pose proof (Z.div_mod a 256) as Ha.
  pose proof (Z.div_mod b 256) as Hb.
  assert (Hc : c = v / 16777216).
  { unfold c, b, a. rewrite !Z.div_div by lia. reflexivity. }
  fold a in Hv0. fold b in Ha. fold c in Hb. lia.
Qed.

Lemma length_list_byte_of_string (s : string) :
  List.length (list_byte_of_string s) = String.length s.
Proof.
  unfold list_byte_of_string. rewrite length_map.
  induction s as [|c s IH]; simpl; [reflexivity | now f_equal].
Qed.

(** ** Binary frames *)

Module FrameFacts.
Import Frame.

Lemma ReadFull_app (ctx : string) (p rest : list byte) :
  ReadFull ctx (List.length p) (p ++ rest) = inr (p, rest).
Proof.
  unfold ReadFull.
  assert (H : (List.length p <=? List.length (p ++ rest))%nat = true).
  { apply Nat.leb_le. rewrite length_app. lia. }
  rewrite H. f_equal. f_equal.
  - apply take_app_length.
  - apply drop_app_length.
Qed.

Lemma read_uint8_cons (ctx : string) (b : byte) (r : list byte) :
  read_uint8 ctx (b :: r) = inr (b, r).
Proof. reflexivity. Qed.

Lemma read_uint16_put (ctx : string) (v : Z) (r : list byte) :
  0 <= v < 65536 ->
  read_uint16 ctx (put_uint16 v ++ r) = inr (v, r).
Proof.
  intros Hv. unfold read_uint16, put_uint16, mbind, rm_bind, rbind.
  change ([byte_of_Z (v / 256); byte_of_Z v] ++ r)
    with (byte_of_Z (v / 256) :: byte_of_Z v :: r).
  cbn [ReadFull List.length Nat.leb firstn skipn].
  unfold mret, rm_ret, rret. now rewrite get_put_uint16.
Qed.

Lemma read_uint32_put (ctx : string) (v : Z) (r : list byte) :
  0 <= v < 4294967296 ->
  read_uint32 ctx (put_uint32 v ++ r) = inr (v, r).
Proof.
  intros Hv. unfold read_uint32, put_uint32, mbind, rm_bind, rbind.
  cbn [app ReadFull List.length Nat.leb firstn skipn].
  unfold mret, rm_ret, rret. now rewrite get_put_uint32.
Qed.

Lemma WriteBinaryMessage_buffer (msg : BinaryMessage) (buf : list byte) :
  WriteBinaryMessage msg buf = (buf ++ frame_bytes msg, inr tt).
Proof.
  unfold WriteBinaryMessage, frame_bytes, mbind, wm_bind, wbind, wtry, wret,
    write, buffer_writer.
  destruct (0 <? uint16 (len_string (ID msg)));
    destruct (0 <? uint16 (len_string (Addr msg)));
    destruct (0 <? uint32 (len_bytes (Data msg)));
    cbn [fst snd]; rewrite <- ?app_assoc, ?app_nil_r; reflexivity.
Qed.

Lemma encode_frame_bytes (msg : BinaryMessage) : encode msg = frame_bytes msg.
Proof. unfold encode. now rewrite WriteBinaryMessage_buffer. Qed.

(** A writer that takes three bytes only: the type and the ID length go
    through, the ID does not, and the error names the step. *)
Example WriteBinaryMessage_short_write :
  WriteBinaryMessage (mkBinaryMessage MsgTypeClose "s1" "" []) (Limited 3 [])
  = (Limited 0 [x06; x00; x02], inl (Errorf "failed to write ID" ErrShortWrite)).
Proof. reflexivity. Qed.

Lemma string_length_0 (s : string) : String.length s = 0%nat -> s = EmptyString.
Proof. destruct s; [reflexivity | discriminate]. Qed.

(** Reading back a length-prefixed string field. *)
Lemma read_string_field (ctx : string) (s : string) (r : list byte) :
  let n := len_string s in
  (if 0 <? n
   then idBytes ← ReadFull ctx (Z.to_nat n); rret (string_of_list_byte idBytes)
   else rret EmptyString)
    ((if 0 <? n then list_byte_of_string s else []) ++ r)
  = inr (s, r).
Proof.
  cbv zeta. unfold len_string.
  destruct (0 <? Z.of_nat (String.length s)) eqn:E.
  - unfold mbind, rm_bind, rbind. rewrite Nat2Z.id.
    rewrite <- length_list_byte_of_string, ReadFull_app.
    unfold rret. now rewrite string_of_list_byte_of_string.
  - apply Z.ltb_ge in E. unfold rret. cbn [app].
    rewrite (string_length_0 s) by lia. reflexivity.
Qed.

Lemma read_bytes_field (ctx : string) (d r : list byte) :
  let n := len_bytes d in
  (if 0 <? n then ReadFull ctx (Z.to_nat n) else rret [])
    ((if 0 <? n then d else []) ++ r)
  = inr (d, r).
Proof.
  cbv zeta. unfold len_bytes.
  destruct (0 <? Z.of_nat (List.length d)) eqn:E.
  - rewrite Nat2Z.id. apply ReadFull_app.
  - apply Z.ltb_ge in E. destruct d; [reflexivity | simpl in E; lia].
Qed.

(** Decoding what was encoded gives the frame back and leaves the rest of
    the stream, for any type byte. *)
Lemma ReadBinaryMessage_frame_bytes (msg : BinaryMessage) (rest : list byte) :
  len_string (ID msg) <= 65535 ->
  len_string (Addr msg) <= 65535 ->
  len_bytes (Data msg) <= 4294967295 ->
  ReadBinaryMessage (frame_bytes msg ++ rest) = inr (msg, rest).
Proof.
  intros Hid Haddr Hdata. destruct msg as [ty id addr data]. cbn [ID Addr Data] in *.
  assert (Hid0 : 0 <= len_string id) by (unfold len_string; lia).
  assert (Haddr0 : 0 <= len_string addr) by (unfold len_string; lia).
  assert (Hdata0 : 0 <= len_bytes data) by (unfold len_bytes; lia).
  unfold frame_bytes. cbn [Type_ ID Addr Data]. cbv zeta.
  unfold uint16, uint32. rewrite !Z.mod_small by lia.
  rewrite <- !app_assoc. cbn [app].
  unfold ReadBinaryMessage, mbind, rm_bind.
  unfold rbind at 1. rewrite read_uint8_cons.
  unfold rbind at 1. rewrite read_uint16_put by lia.
  unfold rbind at 1.
  pose proof (read_string_field "failed to read ID" id) as Hr. cbv zeta in Hr.
  unfold mbind, rm_bind in Hr. rewrite Hr. clear Hr.
  unfold rbind at 1. rewrite read_uint16_put by lia.
  unfold rbind at 1.
  pose proof (read_string_field "failed to read addr" addr) as Hr. cbv zeta in Hr.
  unfold mbind, rm_bind in Hr. rewrite Hr. clear Hr.
  unfold rbind at 1. rewrite read_uint32_put by lia.
  unfold rbind at 1.
  pose proof (read_bytes_field "failed to read data" data) as Hr. cbv zeta in Hr.
  rewrite Hr. reflexivity.
Qed.

(** C1.  For every frame whose id and addr are at most 65535 bytes long and
    whose payload is at most 2^32-1 bytes long, and for each of the eleven
    type codes 0 to 10, reading the bytes [WriteBinaryMessage] produced
    gives the same frame (type byte, id, addr and payload) and consumes
    exactly those bytes. *)
Theorem binary_frame_roundtrip (msg : BinaryMessage) (rest : list byte) :
  In (Type_ msg) msg_type_codes ->
  len_string (ID msg) <= 65535 ->
  len_string (Addr msg) <= 65535 ->
  len_bytes (Data msg) <= 4294967295 ->
  WriteBinaryMessage msg ([] : list byte) = (encode msg, inr tt)
  /\ ReadBinaryMessage (encode msg ++ rest) = inr (msg, rest).
Proof.
  intros _ Hid Haddr Hdata. split.
  - rewrite WriteBinaryMessage_buffer, encode_frame_bytes. reflexivity.
  - rewrite encode_frame_bytes. now apply ReadBinaryMessage_frame_bytes.
Qed.

Lemma binary_frame_roundtrip_witness :
  let msg := mkBinaryMessage MsgTypeData "s1" "a.example:80" [x68; x69] in
  ReadBinaryMessage (encode msg ++ [x07]) = inr (msg, [x07]).
Proof.
  intros msg.
  refine (proj2 (binary_frame_roundtrip msg [x07] _ _ _ _)).
  - unfold msg, msg_type_codes. cbn [Type_ In]. tauto.
  - vm_compute. discriminate.
  - vm_compute. discriminate.
  - vm_compute. discriminate.
Defined.

(** C10.  For a text message whose type is one of the eleven known names,
    converting to the binary form and back keeps [Type], [ID] and [Addr];
    [Data] is kept when the type is ["data"], and for every other known
    type the binary form has an empty [Data], so the message that comes
    back has lost its payload. *)
Theorem message_binary_roundtrip (m : Msg.Message) :
  In (Msg.Type_ m) Msg.known_types ->
  let bm := MessageToBinary m in
  let m' := BinaryToMessage bm in
  Msg.Type_ m' = Msg.Type_ m
  /\ Msg.ID m' = Msg.ID m
  /\ Msg.Addr m' = Msg.Addr m
  /\ (Msg.Type_ m = "data"%string -> Msg.Data m' = Msg.Data m)
  /\ (Msg.Type_ m <> "data"%string ->
      Data bm = [] /\ Msg.Data m' = EmptyString).
Proof.
  destruct m as [ty id addr data]. cbn [Msg.Type_ Msg.ID Msg.Addr Msg.Data].
  unfold Msg.known_types. cbn [In].
  intros H.
  repeat (destruct H as [<- | H]; [| try contradiction]);
    cbv zeta; unfold MessageToBinary; cbn [Msg.Type_ Msg.ID Msg.Addr Msg.Data];
    cbn -[list_byte_of_string string_of_list_byte];
    (repeat split; try reflexivity; try congruence);
    intros _; apply string_of_list_byte_of_string.
Qed.

Lemma message_binary_roundtrip_witness :
  BinaryToMessage (MessageToBinary (Msg.mkMessage "connect" "c7" "h:80" "aGk="))
  = Msg.mkMessage "connect" "c7" "h:80" "".
Proof.
  pose proof (message_binary_roundtrip
                (Msg.mkMessage "connect" "c7" "h:80" "aGk=")) as H.
  cbv zeta in H.
  destruct H as (Hty & Hid & Haddr & _ & Hdata).
  - unfold Msg.known_types. cbn. tauto.
  - destruct Hdata as [_ Hd]; [discriminate |].
    destruct (BinaryToMessage _) as [ty id addr data].
    cbn in Hty, Hid, Haddr, Hd. now subst.
Defined.

End FrameFacts.

(** ** Reconnect backoff *)

Module BackoffFacts.
Import Backoff.

(** C3.  For every attempt index [n >= 1] and both flags, the retry delay is
    the one of the schedule: 30 s when not logged in, else 60 s when
    authentication failed, else 0 s for attempt 1, 5 s for attempts 2-4,
    15 s for 5-7, 30 s for 8-10, 60 s for 11-15 and 300 s from attempt 16
    on. *)
Theorem getRetryDelay_schedule (n : Z) (authFailed notLoggedIn : bool) :
  1 <= n ->
  let d := getRetryDelay n authFailed notLoggedIn in
  (notLoggedIn = true -> d = 30 * Second)
  /\ (notLoggedIn = false -> authFailed = true -> d = 60 * Second)
  /\ (notLoggedIn = false -> authFailed = false ->
      (n = 1 -> d = 0)
      /\ (2 <= n <= 4 -> d = 5 * Second)
      /\ (5 <= n <= 7 -> d = 15 * Second)
      /\ (8 <= n <= 10 -> d = 30 * Second)
      /\ (11 <= n <= 15 -> d = 60 * Second)
      /\ (16 <= n -> d = 300 * Second)).
Proof.
  intros Hn d. subst d. unfold getRetryDelay.
  split; [intros ->; reflexivity |].
  split; [intros -> ->; reflexivity |].
  intros -> ->.
  repeat split; intros H;
    repeat match goal with
           | |- context [?a =? ?b] => destruct (Z.eqb_spec a b); try lia
           | |- context [?a <=? ?b] => destruct (Z.leb_spec a b); try lia
           end; reflexivity.
Qed.

Lemma getRetryDelay_schedule_witness :
  getRetryDelay 6 false false = 15 * Second.
Proof.
  refine (proj1 (proj2 (proj2 (proj2 (proj2
    (getRetryDelay_schedule 6 false false _)) eq_refl eq_refl))) _); lia.
Defined.

End BackoffFacts.

(** ** Dialing a destination *)

Module DialFacts.
Import Net Dial.

Section WithNetLib.
Context `{NetLib}.

(** A successful first dial is the result, and nothing else is tried. *)
Lemma dial_first_ok (env : NetEnv) (address : string) (c : Socket) :
  DialContext env (mkDialer (5 * second)) (10 * second) "tcp" address = inr c ->
  dialWithDNSFallback env address
  = (inr c, [EvDial (mkDialer (5 * second)) (10 * second) "tcp" address]).
Proof. intros E. unfold dialWithDNSFallback. now rewrite E. Qed.

(** The first thing done is always the system dial of the address itself. *)
Lemma dial_first_event (env : NetEnv) (address : string) :
  exists tl,
    snd (dialWithDNSFallback env address)
    = EvDial (mkDialer (5 * second)) (10 * second) "tcp" address :: tl.
Proof.
  unfold dialWithDNSFallback.
  repeat match goal with
         | |- context [match ?x with _ => _ end] => destruct x
         end; cbn [snd app]; eauto.
Qed.

(** On the fallback path, an address that does not split into host and port
    ends the dial with the error of the split, before any lookup. *)
Lemma dial_fallback_unsplittable (env : NetEnv) (address : string)
    (err splitErr : goerror) :
  DialContext env (mkDialer (5 * second)) (10 * second) "tcp" address = inl err ->
  resolution_failed err = true ->
  SplitHostPort address = inl splitErr ->
  dialWithDNSFallback env address
  = (inl splitErr,
     [EvDial (mkDialer (5 * second)) (10 * second) "tcp" address;
      EvLog fallback_line]).
Proof.
  intros E Er Es. unfold dialWithDNSFallback. now rewrite E, Er, Es.
Qed.


End WithNetLib.



End DialFacts.

(** ** The relay engine *)

Module ConnFacts.
Import Msg Net Dial Conn.

Lemma delivered_log (w : option goerror) (line : string) (st : State) :
  delivered w (log line st) = delivered w st.
Proof. reflexivity. Qed.

Lemma sendMessage_sent (w : option goerror) (m : Message) (st : State) :
  sent (fst (sendMessage w m st))
  = sent st ++ (if delivered w st then [m] else []).
Proof.
  unfold sendMessage, delivered.
  destruct (quicStream st), w; cbn; now rewrite ?app_nil_r.
Qed.

Lemma sendMessage_ok (w : option goerror) (m : Message) (st : State) :
  snd (sendMessage w m st) = None <-> delivered w st = true.
Proof.
  unfold sendMessage, delivered.
  destruct (quicStream st), w; cbn; split; congruence.
Qed.

Lemma sendMessage_quicStream (w : option goerror) (m : Message) (st : State) :
  quicStream (fst (sendMessage w m st)) = quicStream st.
Proof.
  unfold sendMessage. destruct (quicStream st) eqn:E; destruct w; cbn; congruence.
Qed.

Lemma sendMessage_clientConns (w : option goerror) (m : Message) (st : State) :
  clientConns (fst (sendMessage w m st)) = clientConns st.
Proof. unfold sendMessage. destruct (quicStream st), w; reflexivity. Qed.

Lemma sendMessage_heap (w : option goerror) (m : Message) (st : State) :
  heap (fst (sendMessage w m st)) = heap st.
Proof. unfold sendMessage. destruct (quicStream st), w; reflexivity. Qed.

Lemma sendCloseMessage_sent (w : option goerror) (id : string) (st : State) :
  sent (sendCloseMessage w id st)
  = sent st ++ (if delivered w st then [closeMsg id] else []).
Proof.
  unfold sendCloseMessage.
  destruct (clientConns (fst (sendMessage w (closeMsg id) st)) !! id);
    cbn [sent set_clientConns set_heap]; apply sendMessage_sent.
Qed.

Lemma sendCloseMessage_quicStream (w : option goerror) (id : string) (st : State) :
  quicStream (sendCloseMessage w id st) = quicStream st.
Proof.
  unfold sendCloseMessage.
  destruct (clientConns (fst (sendMessage w (closeMsg id) st)) !! id);
    cbn [quicStream set_clientConns set_heap]; apply sendMessage_quicStream.
Qed.

Lemma sendCloseMessage_clientConns (w : option goerror) (id : string) (st : State) :
  clientConns (sendCloseMessage w id st) = delete id (clientConns st).
Proof.
  unfold sendCloseMessage. rewrite sendMessage_clientConns.
  destruct (clientConns st !! id) eqn:E;
    cbn [clientConns set_clientConns set_heap];
    rewrite ?sendMessage_clientConns; [reflexivity |].
  symmetry. now apply delete_id.
Qed.

Section WithLibraries.
Context `{NetLib} `{Base64}.

(** What [handleConnect] does when the dial fails. *)
Lemma handleConnect_dial_failed (o : Oracle) (msg : Message) (st : State)
    (err : goerror) :
  fst (dialWithDNSFallback (o_net o) (Addr msg)) = inl err ->
  handleConnect o msg st
  = (sendCloseMessage (o_close_write o) (ID msg)
       (log ("Failed to establish connection: " +:+ err)
          (set_logs (logs st
                     ++ log_lines (snd (dialWithDNSFallback (o_net o) (Addr msg))))
                    st)),
     []).
Proof.
  intros E. unfold handleConnect.
  destruct (dialWithDNSFallback (o_net o) (Addr msg)) as [res tr].
  cbn [fst snd] in *. now subst res.
Qed.

(** C7, as the code has it.  When the dial of CONNECT(id, addr) fails, the
    handler starts no relay task, inserts nothing into the table and writes
    no CONNECTED(id); it writes CLOSE(id) when there is a control stream and
    the write succeeds, and nothing otherwise; and the table afterwards is
    the table before without the entry of [id]: it is unchanged when [id]
    had no entry. *)
Theorem connect_dial_failure (o : Oracle) (msg : Message) (st : State)
    (err : goerror) :
  fst (dialWithDNSFallback (o_net o) (Addr msg)) = inl err ->
  let st' := fst (handleConnect o msg st) in
  let id := ID msg in
  snd (handleConnect o msg st) = []
  /\ sent st' = sent st ++ (if delivered (o_close_write o) st
                            then [closeMsg id] else [])
  /\ List.filter (is_connected id) (sent st')
     = List.filter (is_connected id) (sent st)
  /\ clientConns st' = delete id (clientConns st)
  /\ (clientConns st !! id = None -> clientConns st' = clientConns st).
Proof.
  intros E. cbv zeta. rewrite (handleConnect_dial_failed o msg st err E).
  cbn [fst snd].
  assert (Hsent : sent (sendCloseMessage (o_close_write o) (ID msg)
             (log ("Failed to establish connection: " +:+ err)
                (set_logs (logs st ++ log_lines
                   (snd (dialWithDNSFallback (o_net o) (Addr msg)))) st)))
          = sent st ++ (if delivered (o_close_write o) st
                        then [closeMsg (ID msg)] else [])).
  { rewrite sendCloseMessage_sent. reflexivity. }
  split; [reflexivity |]. split; [exact Hsent |]. split.
  { rewrite Hsent, List.filter_app.
    destruct (delivered (o_close_write o) st); cbn; now rewrite ?app_nil_r. }
  rewrite sendCloseMessage_clientConns. cbn [clientConns log set_logs].
  split; [reflexivity |]. intros Hnone. now apply delete_id.
Qed.

(** C8.  A DATA(id, bytes) frame that finds the queue of its sub-connection
    full (10000 slices in a channel of capacity 10000) is dropped: the
    reader logs the warning and goes on with its loop, starting nothing;
    the table, every connection with its queue, and what was written on
    the control stream are as before. *)
Theorem data_dropped_when_queue_full (w : option goerror) (msg : Message)
    (st : State) (l : nat) (cc : Connection) (bytes : list byte) :
  Type_ msg = "data"%string ->
  DecodeString (Data msg) = (bytes, None) ->
  clientConns st !! ID msg = Some l ->
  heap st !! l = Some cc ->
  ch_closed (dataChan cc) = false ->
  ch_cap (dataChan cc) = 10000 ->
  Z.of_nat (List.length (ch_buf (dataChan cc))) = 10000 ->
  let st' := log (channel_full_line (ID msg)) st in
  quicReader_step w (Received msg) st = (st', [], Continue)
  /\ logs st' = logs st ++ [channel_full_line (ID msg)]
  /\ clientConns st' = clientConns st
  /\ heap st' = heap st
  /\ sent st' = sent st.
Proof.
  intros Hty Hdec Hl Hcc Hopen Hcap Hfull.
  unfold quicReader_step. rewrite Hty. cbn [String.eqb Ascii.eqb Bool.eqb].
  rewrite Hl, Hcc, Hdec, Hopen. unfold try_send.
  rewrite Hcap, Hfull. cbn [Z.ltb Z.compare Pos.compare Pos.compare_cont].
  repeat split; reflexivity.
Qed.

End WithLibraries.

End ConnFacts.

(** ** Registered sub-connections *)

Module TableFacts.
Import Msg Net Dial Conn ConnFacts.

Lemma wf_initial : wf initial.
Proof. split; intros ? *; cbn; rewrite lookup_empty; discriminate. Qed.

Lemma wf_same (st st' : State) :
  clientConns st' = clientConns st -> heap st' = heap st -> wf st -> wf st'.
Proof.
  intros Ht Hh [Ho Hi]. split.
  - intros id l. rewrite Ht, Hh. apply Ho.
  - intros id1 id2 l. rewrite Ht. apply Hi.
Qed.

Lemma wf_empty_table (st : State) (h : gmap nat Connection) :
  wf (set_clientConns ∅ (set_heap h st)).
Proof.
  split; intros ? *; cbn [clientConns set_clientConns];
    rewrite lookup_empty; discriminate.
Qed.

(** Replacing a connection by one with the same channel flags. *)
Lemma wf_update (st : State) (l : nat) (cc cc' : Connection) :
  heap st !! l = Some cc ->
  ch_closed (dataChan cc') = ch_closed (dataChan cc) ->
  ch_cap (dataChan cc') = ch_cap (dataChan cc) ->
  wf st -> wf (set_heap (<[l := cc']> (heap st)) st).
Proof.
  intros Hl Hc Hp [Ho Hi]. split; [| exact Hi].
  intros id l' Hid. cbn [clientConns heap set_heap] in *.
  destruct (Ho id l' Hid) as (c0 & Hc0 & Hopen & Hcap).
  destruct (decide (l = l')) as [<- | Hne].
  - rewrite lookup_insert_eq. exists cc'. rewrite Hl in Hc0.
    injection Hc0 as <-. split; [reflexivity |]. split; congruence.
  - rewrite lookup_insert_ne by exact Hne. eauto.
Qed.

(** Closing and forgetting the entry of [id]. *)
Lemma wf_forget (st : State) (id : string) (l : nat) (f : Connection -> Connection) :
  clientConns st !! id = Some l ->
  wf st ->
  wf (set_clientConns (delete id (clientConns st))
        (set_heap (alter f l (heap st)) st)).
Proof.
  intros Hid [Ho Hi]. split.
  - intros id' l' Hid'. cbn [clientConns heap set_clientConns set_heap] in *.
    apply lookup_delete_Some in Hid' as [Hne Hid'].
    assert (l <> l') by (intros ->; apply Hne; eapply Hi; eassumption).
    rewrite lookup_alter_ne by assumption. exact (Ho id' l' Hid').
  - intros id1 id2 l'. cbn [clientConns set_clientConns set_heap].
    rewrite !lookup_delete_Some. intros [_ H1] [_ H2]. eapply Hi; eassumption.
Qed.

Lemma wf_sendMessage (w : option goerror) (m : Message) (st : State) :
  wf st -> wf (fst (sendMessage w m st)).
Proof.
  apply wf_same; [apply sendMessage_clientConns | apply sendMessage_heap].
Qed.

Lemma wf_sendCloseMessage (w : option goerror) (id : string) (st : State) :
  wf st -> wf (sendCloseMessage w id st).
Proof.
  intros Hwf. unfold sendCloseMessage.
  pose proof (wf_sendMessage w (closeMsg id) st Hwf) as Hwf1.
  destruct (clientConns (fst (sendMessage w (closeMsg id) st)) !! id) eqn:E;
    [now apply wf_forget | exact Hwf1].
Qed.

Lemma wf_conn_Write (w : option goerror) (l : nat) (d : list byte) (st : State) :
  wf st -> wf (fst (conn_Write w l d st)).
Proof.
  intros Hwf. unfold conn_Write.
  destruct (heap st !! l) as [cc|] eqn:El; [| exact Hwf].
  destruct (sock_closed (conn cc)); [exact Hwf |].
  destruct w; [exact Hwf |]. cbn [fst].
  now apply (wf_update st l cc).
Qed.

Lemma wf_closeAll (st : State) : wf (closeAllClientConns st).
Proof. apply wf_empty_table. Qed.

Section WithLibraries.
Context `{NetLib} `{Base64}.

Lemma wf_handleConnect (o : Oracle) (msg : Message) (st : State) :
  wf st -> wf (fst (handleConnect o msg st)).
Proof.
  intros Hwf. unfold handleConnect.
  destruct (dialWithDNSFallback (o_net o) (Addr msg)) as [[err | c] tr].
  - cbn [fst]. apply wf_sendCloseMessage.
    revert Hwf. now apply wf_same.
  - change (heap (set_logs (logs st ++ log_lines tr) st)) with (heap st).
    set (l := fresh (dom (heap st))).
    set (cc := mkConnection (tune c) (mkChan 10000 [] false)).
    set (st1 := set_clientConns _ _).
    assert (Hfresh : heap st !! l = None).
    { apply not_elem_of_dom. unfold l. apply is_fresh. }
    assert (Hwf1 : wf st1).
    { destruct Hwf as [Ho Hi]. split.
      - intros id l'. unfold st1.
        cbn [clientConns heap set_clientConns set_heap set_logs].
        destruct (decide (ID msg = id)) as [<- | Hne].
        + rewrite lookup_insert_eq. intros [= <-]. rewrite lookup_insert_eq.
          exists cc. repeat split; reflexivity.
        + rewrite lookup_insert_ne by exact Hne. intros Hid.
          destruct (Ho id l' Hid) as (c0 & Hc0 & Hopen & Hcap).
          rewrite lookup_insert_ne by congruence. eauto.
      - intros id1 id2 l'. unfold st1.
        cbn [clientConns heap set_clientConns set_heap set_logs].
        destruct (decide (ID msg = id1)) as [<- | Hne1];
          destruct (decide (ID msg = id2)) as [<- | Hne2];
          rewrite ?lookup_insert_eq, ?lookup_insert_ne by assumption;
          try reflexivity.
        + intros [= <-] Hid. destruct (Ho id2 l Hid) as (c0 & Hc0 & _).
          congruence.
        + intros Hid [= <-]. destruct (Ho id1 l Hid) as (c0 & Hc0 & _).
          congruence.
        + apply Hi. }
    assert (Hl1 : heap st1 !! l = Some cc).
    { unfold st1. cbn [heap set_clientConns set_heap]. apply lookup_insert_eq. }
    clearbody st1.
    pose proof (wf_sendMessage (o_stream_write o)
                  (mkMessage "connected" (ID msg) "" "") st1 Hwf1) as Hwf2.
    pose proof (sendMessage_heap (o_stream_write o)
                  (mkMessage "connected" (ID msg) "" "") st1) as Hh2.
    destruct (sendMessage (o_stream_write o) _ st1) as [st2 [e|]];
      cbn [fst] in *.
    + assert (Hl2 : heap (log ("Failed to send connect confirmation: " +:+ e) st2)
                    !! l = Some cc) by (cbn [heap log set_logs]; congruence).
      assert (Hwf3 : wf (log ("Failed to send connect confirmation: " +:+ e) st2))
        by (revert Hwf2; now apply wf_same).
      set (st3 := log _ st2) in *. clearbody st3.
      assert (Ha : alter close_conn_only l (heap st3)
                   = <[l := close_conn_only cc]> (heap st3)).
      { apply map_eq. intros k. destruct (decide (l = k)) as [<- | Hne].
        - now rewrite lookup_alter_eq, lookup_insert_eq, Hl2.
        - now rewrite lookup_alter_ne, lookup_insert_ne by exact Hne. }
      rewrite Ha. now apply (wf_update st3 l cc).
    + destruct (negb (String.eqb (Data msg) "")); [| exact Hwf2].
      pose proof (wf_conn_Write (o_sock_write o) l
                    (fst (DecodeString (Data msg))) st2 Hwf2) as Hwf3.
      destruct (conn_Write (o_sock_write o) l _ st2) as [st3 [e|]];
        cbn [fst] in *; [| exact Hwf3].
      apply wf_sendCloseMessage. revert Hwf3. now apply wf_same.
Qed.

Lemma wf_task_step (o : Oracle) (t : Task) (st st' : State)
    (spawned : list Task) (ended : bool) :
  task_step o t st = Some (st', spawned, ended) -> wf st -> wf st'.
Proof.
  intros Hstep Hwf. destruct t as [msg | cc id | cc id]; cbn [task_step] in Hstep.
  - pose proof (wf_handleConnect o msg st Hwf) as Hh.
    destruct (handleConnect o msg st) as [st1 sp]. now injection Hstep as <- _ _.
  - unfold relayFromConnToQuic_step in Hstep.
    destruct (match heap st !! cc with Some _ => _ | None => _ end)
      as [e | buf].
    + injection Hstep as <- _ _. now apply wf_sendCloseMessage.
    + destruct (take (Z.to_nat (256 * 1024)) buf) as [| b bs].
      * now injection Hstep as <- _ _.
      * pose proof (wf_sendMessage (o_stream_write o)
                      (mkMessage "data" id "" (EncodeToString (b :: bs))) st Hwf)
          as Hwf1.
        destruct (sendMessage (o_stream_write o) _ st) as [st1 [e|]];
          cbn [fst] in *; injection Hstep as <- _ _; [| exact Hwf1].
        apply wf_sendCloseMessage. revert Hwf1. now apply wf_same.
  - unfold relayFromChanToConn_step in Hstep.
    destruct (heap st !! cc) as [c|] eqn:Ec; [| discriminate].
    destruct (ch_buf (dataChan c)) as [| data rest].
    + destruct (ch_closed (dataChan c)); [| discriminate].
      injection Hstep as <- _ _. now apply wf_sendCloseMessage.
    + assert (Hwf1 : wf (set_heap
                (<[cc := mkConnection (conn c)
                           (mkChan (ch_cap (dataChan c)) rest
                                   (ch_closed (dataChan c)))]> (heap st)) st))
        by now apply (wf_update st cc c).
      set (st1 := set_heap _ st) in *. clearbody st1.
      destruct data as [| b bs]; [now injection Hstep as <- _ _ |].
      pose proof (wf_conn_Write (o_sock_write o) cc (b :: bs) st1 Hwf1) as Hwf2.
      destruct (conn_Write (o_sock_write o) cc (b :: bs) st1) as [st2 [e|]];
        cbn [fst] in *; injection Hstep as <- _ _; [| exact Hwf2].
      now apply wf_sendCloseMessage.
Qed.

Lemma wf_quicReader_step (w : option goerror) (inp : ReaderInput) (st : State) :
  wf st -> wf (fst (fst (quicReader_step w inp st))).
Proof.
  intros Hwf. unfold quicReader_step.
  destruct inp as [| | e | msg]; cbn [fst];
    try apply wf_closeAll; try exact Hwf.
  destruct (String.eqb (Type_ msg) "connect"); [exact Hwf |].
  destruct (String.eqb (Type_ msg) "data").
  { destruct (clientConns st !! ID msg) as [l|]; [| exact Hwf].
    destruct (heap st !! l) as [cc|] eqn:El; [| exact Hwf].
    destruct (DecodeString (Data msg)) as [data [e|]]; [exact Hwf |].
    destruct (ch_closed (dataChan cc)); [exact Hwf |].
    unfold try_send.
    destruct (Z.of_nat (List.length (ch_buf (dataChan cc))) <? ch_cap (dataChan cc));
      cbn [fst]; [now apply (wf_update st l cc) |].
    revert Hwf. now apply wf_same. }
  destruct (String.eqb (Type_ msg) "close").
  { destruct (clientConns st !! ID msg) as [l|] eqn:El; cbn [fst];
      [now apply wf_forget | exact Hwf]. }
  destruct (String.eqb (Type_ msg) "ping").
  { pose proof (wf_sendMessage w (mkMessage "pong" (ID msg) "" "") st Hwf)
      as Hwf1.
    destruct (sendMessage w _ st) as [st1 [e|]]; cbn [fst] in *;
      [| exact Hwf1].
    revert Hwf1. now apply wf_same. }
  cbn [fst]. revert Hwf. now apply wf_same.
Qed.

Lemma wf_sys_step (ev : Event) (S : Sys) : wf (state S) -> wf (state (sys_step ev S)).
Proof.
  intros Hwf. destruct ev as [w inp | i o | | | c s]; cbn [sys_step].
  - pose proof (wf_quicReader_step w inp (state S) Hwf) as Hr.
    destruct (quicReader_step w inp (state S)) as [[st sp] r]. exact Hr.
  - destruct (tasks S !! i) as [t|]; [| exact Hwf].
    destruct (task_step o t (state S)) as [[[st sp] e]|] eqn:Et; [| exact Hwf].
    cbn [state]. eapply wf_task_step; eassumption.
  - cbn [state]. apply wf_closeAll.
  - cbn [state]. revert Hwf. now apply wf_same.
  - cbn [state]. revert Hwf. now apply wf_same.
Qed.

(** Whatever happens after the process has started, every registered
    sub-connection has an open channel of capacity 10000. *)
Lemma wf_run (evs : list Event) (S : Sys) : wf (state S) -> wf (state (run evs S)).
Proof.
  revert S. induction evs as [| ev evs IH]; intros S Hwf; [exact Hwf |].
  unfold run in *. cbn [foldl]. apply IH. now apply wf_sys_step.
Qed.

(** So a DATA frame always finds the channel of its sub-connection open and
    of capacity 10000: the reader never sends on a closed channel. *)
Lemma registered_channel_open (evs : list Event) (id : string) (l : nat)
    (cc : Connection) :
  let st := state (run evs (mkSys initial [])) in
  clientConns st !! id = Some l ->
  heap st !! l = Some cc ->
  ch_closed (dataChan cc) = false /\ ch_cap (dataChan cc) = 10000.
Proof.
  intros st Hid Hl.
  destruct (wf_run evs (mkSys initial []) wf_initial) as [Ho _].
  destruct (Ho id l Hid) as (c0 & Hc0 & Hopen & Hcap).
  fold st in Hc0. rewrite Hl in Hc0. injection Hc0 as <-. now split.
Qed.

End WithLibraries.

End TableFacts.

(** ** The relay engine on examples *)

Module ConnExamples.
Import Msg Net Dial Conn Scenarios ConnFacts.

#[local] Existing Instance plain_netlib.
#[local] Existing Instance plain_base64.

(** Scenario S3: no CONNECTED, one CLOSE("y"), no entry afterwards. *)
Lemma connect_dial_failure_witness :
  let st' := fst (handleConnect o_refuse connect_y_refused running) in
  sent st' = [closeMsg "y"] /\ clientConns st' = clientConns running.
Proof.
  pose proof (connect_dial_failure o_refuse connect_y_refused running
                "dial tcp 127.0.0.1:1: connect: connection refused" eq_refl)
    as T.
  cbv zeta in *. destruct T as (_ & Hsent & _ & _ & Hsame).
  split; [exact Hsent | apply Hsame; reflexivity].
Defined.

(** C7 as stated fails when [id] is already registered: the failed CONNECT
    removes the entry of the live sub-connection with that id.  And when
    the session was stopped while the dial was under way, no CLOSE is
    written. *)
Lemma failed_connect_changes_table :
  let st := fst (handleConnect o_accept connect_y_ok running) in
  let st' := fst (handleConnect o_refuse connect_y_refused st) in
  let stopped := DisconnectQuic running in
  fst (dialWithDNSFallback (o_net o_refuse) (Addr connect_y_refused))
  = inl "dial tcp 127.0.0.1:1: connect: connection refused"%string
  /\ clientConns st !! "y" = Some 0%nat
  /\ clientConns st' !! "y" = None
  /\ clientConns st' <> clientConns st
  /\ sent (fst (handleConnect o_refuse connect_y_refused stopped)) = [].
Proof.
  cbv zeta.
  assert (H1 : clientConns (fst (handleConnect o_accept connect_y_ok running))
               !! "y" = Some 0%nat) by (vm_compute; reflexivity).
  assert (H2 : clientConns
                 (fst (handleConnect o_refuse connect_y_refused
                         (fst (handleConnect o_accept connect_y_ok running))))
               !! "y" = None) by (vm_compute; reflexivity).
  repeat split; try assumption; try reflexivity.
  intros E. rewrite E in H2. congruence.
Qed.

Lemma data_dropped_when_queue_full_witness :
  quicReader_step None (Received (mkMessage "data" "x" "" "hello")) full_queue
  = (log (channel_full_line "x") full_queue, [], Continue).
Proof.
  refine (proj1 (data_dropped_when_queue_full None
                   (mkMessage "data" "x" "" "hello") full_queue 0%nat
                   (mkConnection (mkSocket "a.example:80" false [] None)
                      (mkChan 10000 (replicate (Z.to_nat 10000) [x00]) false))
                   (list_byte_of_string "hello") _ _ _ _ _ _ _));
    reflexivity.
Defined.

End ConnExamples.

(** ** CLOSE frames of a sub-connection *)

Module CloseFacts.
Import Msg Net Dial Conn ConnFacts.

Lemma closes_app (id : string) (l l' : list Message) :
  closes id (l ++ l') = (closes id l + closes id l')%nat.
Proof. unfold closes. now rewrite List.filter_app, length_app. Qed.

Lemma closes_closeMsg (id id' : string) :
  closes id [closeMsg id'] = if String.eqb id' id then 1%nat else 0%nat.
Proof.
  unfold closes, is_close, closeMsg. cbn.
  destruct (String.eqb id' id); reflexivity.
Qed.

Lemma closes_sendCloseMessage (w : option goerror) (id' id : string) (st : State) :
  closes id (sent (sendCloseMessage w id' st))
  = (closes id (sent st) + close_sent w id' id st)%nat.
Proof.
  rewrite sendCloseMessage_sent, closes_app. f_equal. unfold close_sent.
  destruct (delivered w st); cbn [andb]; [apply closes_closeMsg | reflexivity].
Qed.

Lemma close_sent_le (w : option goerror) (id' id : string) (st : State) :
  (close_sent w id' id st <= if String.eqb id' id then 1 else 0)%nat.
Proof.
  unfold close_sent. destruct (delivered w st), (String.eqb id' id); cbn; lia.
Qed.

Lemma close_sent_writable (id' id : string) (st : State) :
  is_Some (quicStream st) ->
  close_sent None id' id st = if String.eqb id' id then 1%nat else 0%nat.
Proof.
  intros [s Hs]. unfold close_sent, delivered. now rewrite Hs.
Qed.

(** A message that is not a CLOSE leaves the count as it is. *)
Lemma closes_sendMessage_other (w : option goerror) (m : Message) (id : string)
    (st : State) :
  String.eqb (Type_ m) "close" = false ->
  closes id (sent (fst (sendMessage w m st))) = closes id (sent st).
Proof.
  intros Hty. rewrite sendMessage_sent, closes_app.
  destruct (delivered w st); [| cbn; lia].
  unfold closes, is_close. cbn [List.filter]. rewrite Hty. cbn. lia.
Qed.

Lemma conn_Write_sent (w : option goerror) (l : nat) (d : list byte) (st : State) :
  sent (fst (conn_Write w l d st)) = sent st
  /\ quicStream (fst (conn_Write w l d st)) = quicStream st.
Proof.
  unfold conn_Write.
  destruct (heap st !! l) as [cc|]; [| split; reflexivity].
  destruct (sock_closed (conn cc)); [split; reflexivity |].
  destruct w; split; reflexivity.
Qed.

Lemma pending_app (id : string) (ts ts' : list Task) :
  pending id (ts ++ ts') = (pending id ts + pending id ts')%nat.
Proof. unfold pending. now rewrite List.map_app, list_sum_app. Qed.

Lemma pending_delete (id : string) (ts : list Task) (i : nat) (t : Task) :
  ts !! i = Some t ->
  (pending id (delete i ts) + owed id t = pending id ts)%nat.
Proof.
  intros Hi. rewrite <- (take_drop_middle ts i t Hi) at 2.
  rewrite delete_take_drop, !pending_app.
  change (t :: drop (S i) ts) with ([t] ++ drop (S i) ts).
  rewrite pending_app. unfold pending at 4. cbn. lia.
Qed.

Lemma pending_relay_tasks (id id' : string) (l : nat) :
  pending id (relay_tasks l id') = if String.eqb id' id then 2%nat else 0%nat.
Proof.
  unfold pending, relay_tasks. cbn. destruct (String.eqb id' id); reflexivity.
Qed.

Section WithLibraries.
Context `{NetLib} `{Base64}.

(** A connection that [dialWithDNSFallback] returns is open. *)
Lemma dial_ok_open (env : NetEnv) (address : string) (c : Socket) :
  fst (dialWithDNSFallback env address) = inr c -> sock_closed c = false.
Proof.
  assert (D : forall d ctx n a, DialContext env d ctx n a = inr c ->
                                sock_closed c = false).
  { intros d ctx n a. unfold DialContext.
    destruct (dial_error env d ctx n a); [discriminate |].
    intros [= <-]. reflexivity. }
  unfold dialWithDNSFallback.
  destruct (DialContext env _ _ "tcp" address) eqn:E1; cbn [fst].
  - destruct (resolution_failed g); [| discriminate].
    destruct (SplitHostPort address) as [e | [host port]]; [discriminate |].
    destruct (LookupHost env _ _ host) as [e | [| ip0 ips]];
      cbn [fst]; try discriminate.
    apply D.
  - intros [= <-]. eapply D, E1.
Qed.

(** [handleConnect], path by path, once the dial has succeeded. *)
Lemma handleConnect_dial_ok (o : Oracle) (msg : Message) (st : State)
    (c : Socket) :
  fst (dialWithDNSFallback (o_net o) (Addr msg)) = inr c ->
  let id := ID msg in
  let l := fresh (dom (heap st)) in
  let st' := fst (handleConnect o msg st) in
  let spawned := snd (handleConnect o msg st) in
  let connected := mkMessage "connected" id "" "" in
  quicStream st' = quicStream st
  /\ if delivered (o_stream_write o) st then
       if initial_write_fails o msg then
         spawned = []
         /\ sent st' = (sent st ++ [connected])
                       ++ (if delivered (o_close_write o) st
                           then [closeMsg id] else [])
       else
         spawned = relay_tasks l id /\ sent st' = sent st ++ [connected]
     else
       spawned = [] /\ sent st' = sent st
       /\ clientConns st' !! id = Some l.
Proof.
  intros E. cbv zeta. unfold handleConnect.
  pose proof (dial_ok_open _ _ _ E) as Hopen.
  destruct (dialWithDNSFallback (o_net o) (Addr msg)) as [res tr].
  cbn [fst] in E. subst res.
  change (heap (set_logs (logs st ++ log_lines tr) st)) with (heap st).
  set (st1 := set_clientConns _ _).
  assert (Hq1 : quicStream st1 = quicStream st) by reflexivity.
  assert (Hs1 : sent st1 = sent st) by reflexivity.
  assert (Hd1 : forall w, delivered w st1 = delivered w st) by reflexivity.
  assert (Hh1 : heap st1 !! fresh (dom (heap st))
                = Some (mkConnection (tune c) (mkChan 10000 [] false))).
  { unfold st1. cbn [heap set_clientConns set_heap set_logs].
    apply lookup_insert_eq. }
  assert (Ht1 : clientConns st1 !! ID msg = Some (fresh (dom (heap st)))).
  { unfold st1. cbn [clientConns set_clientConns]. apply lookup_insert_eq. }
  pose proof (sendMessage_sent (o_stream_write o)
                (mkMessage "connected" (ID msg) "" "") st1) as Hs2.
  pose proof (sendMessage_quicStream (o_stream_write o)
                (mkMessage "connected" (ID msg) "" "") st1) as Hq2.
  pose proof (sendMessage_ok (o_stream_write o)
                (mkMessage "connected" (ID msg) "" "") st1) as Hok.
  pose proof (sendMessage_heap (o_stream_write o)
                (mkMessage "connected" (ID msg) "" "") st1) as Hh2.
  pose proof (sendMessage_clientConns (o_stream_write o)
                (mkMessage "connected" (ID msg) "" "") st1) as Ht2.
  destruct (sendMessage (o_stream_write o) _ st1) as [st2 r].
  cbn [fst snd] in *. rewrite Hd1 in *.
  destruct (delivered (o_stream_write o) st) eqn:Ed.
  - assert (r = None) by (now apply Hok). subst r.
    assert (Hd2 : forall w, delivered w st2 = delivered w st).
    { intros w. unfold delivered. now rewrite Hq2, Hq1. }
    unfold initial_write_fails.
    destruct (String.eqb (Data msg) "") eqn:Edata; cbn [negb andb].
    + cbn [fst snd]. rewrite Hq2, Hs2. now rewrite Hs1.
    + unfold conn_Write. rewrite Hh2, Hh1. cbn [conn tune sock_closed].
      rewrite Hopen.
      destruct (o_sock_write o) as [e|]; cbn [fst snd].
      * rewrite sendCloseMessage_quicStream, sendCloseMessage_sent.
        rewrite delivered_log, Hd2.
        cbn [quicStream sent log set_logs]. rewrite Hq2, Hs2, Hs1. auto.
      * cbn [quicStream sent set_heap]. rewrite Hq2, Hs2, Hs1. auto.
  - destruct r as [e|].
    + cbn [fst snd quicStream sent clientConns set_heap log set_logs].
      rewrite Hq2, Hs2, Ht2, Hs1, app_nil_r. auto.
    + destruct Hok as [Hok _]. specialize (Hok eq_refl). discriminate.
Qed.

(** [handleConnect] and the count of CLOSE(id): never more than the two a
    CONNECT(id) is allowed, and none for another id. *)
Lemma handleConnect_closes (o : Oracle) (msg : Message) (st : State)
    (id : string) :
  let st' := fst (handleConnect o msg st) in
  let spawned := snd (handleConnect o msg st) in
  quicStream st' = quicStream st
  /\ (closes id (sent st') + pending id spawned
      <= closes id (sent st) + owed id (HandleConnect msg))%nat
  /\ (String.eqb (ID msg) id = false ->
      (closes id (sent st') + pending id spawned = closes id (sent st))%nat).
Proof.
  cbv zeta.
  destruct (fst (dialWithDNSFallback (o_net o) (Addr msg))) as [err | c] eqn:E.
  - rewrite (handleConnect_dial_failed o msg st err E). cbn [fst snd].
    rewrite sendCloseMessage_quicStream, closes_sendCloseMessage.
    cbn [sent log set_logs quicStream owed pending List.map list_sum].
    pose proof (close_sent_le (o_close_write o) (ID msg) id
                  (log ("Failed to establish connection: " +:+ err)
                     (set_logs (logs st ++ log_lines
                        (snd (dialWithDNSFallback (o_net o) (Addr msg)))) st)))
      as Hle.
    change (pending id []) with 0%nat.
    destruct (String.eqb (ID msg) id); (split; [reflexivity |]);
      split; intros; (lia || discriminate).
  - pose proof (handleConnect_dial_ok o msg st c E) as Hok. cbv zeta in Hok.
    destruct Hok as [Hq Hok]. split; [exact Hq |].
    assert (Hc : closes id [mkMessage "connected" (ID msg) "" ""] = 0%nat)
      by reflexivity.
    cbn [owed].
    destruct (delivered (o_stream_write o) st).
    + destruct (initial_write_fails o msg).
      * destruct Hok as [-> ->]. rewrite !closes_app, Hc.
        change (pending id []) with 0%nat.
        destruct (delivered (o_close_write o) st);
          rewrite ?closes_closeMsg; change (closes id []) with 0%nat;
          destruct (String.eqb (ID msg) id);
          split; intros; (lia || discriminate).
      * destruct Hok as [-> ->]. rewrite !closes_app, Hc, pending_relay_tasks.
        destruct (String.eqb (ID msg) id); split; intros; (lia || discriminate).
    + destruct Hok as (-> & -> & _). change (pending id []) with 0%nat.
      split; intros; lia.
Qed.

(** A turn of [relayFromConnToQuic] sends CLOSE only when it ends. *)
Lemma relayFromConnToQuic_step_closes (o : Oracle) (cc : nat) (id' : string)
    (st : State) (id : string) :
  let st' := fst (relayFromConnToQuic_step o cc id' st) in
  let ended := snd (relayFromConnToQuic_step o cc id' st) in
  quicStream st' = quicStream st
  /\ closes id (sent st')
     = (closes id (sent st)
        + if ended then close_sent (o_close_write o) id' id st else 0)%nat.
Proof.
  cbv zeta. unfold relayFromConnToQuic_step.
  set (read := match heap st !! cc with Some _ => _ | None => _ end).
  destruct read as [e | buf]; cbn [fst snd].
  - now rewrite sendCloseMessage_quicStream, closes_sendCloseMessage.
  - destruct (take (Z.to_nat (256 * 1024)) buf) as [| b bs] eqn:Eb; cbn [fst snd].
    + split; [reflexivity | lia].
    + set (m := mkMessage "data" id' "" _).
      pose proof (sendMessage_quicStream (o_stream_write o) m st) as Hq.
      pose proof (closes_sendMessage_other (o_stream_write o) m id st eq_refl)
        as Hc.
      destruct (sendMessage (o_stream_write o) m st) as [st1 [e|]];
        cbn [fst snd] in *.
      * rewrite sendCloseMessage_quicStream, closes_sendCloseMessage.
        cbn [quicStream sent log set_logs]. rewrite Hq, Hc. split; [reflexivity |].
        f_equal. unfold close_sent, delivered. cbn [quicStream log set_logs].
        now rewrite Hq.
      * rewrite Hq, Hc. split; [reflexivity | lia].
Qed.

(** So does a turn of [relayFromChanToConn]. *)
Lemma relayFromChanToConn_step_closes (o : Oracle) (cc : nat) (id' : string)
    (st st' : State) (ended : bool) (id : string) :
  relayFromChanToConn_step o cc id' st = Some (st', ended) ->
  quicStream st' = quicStream st
  /\ closes id (sent st')
     = (closes id (sent st)
        + if ended then close_sent (o_close_write o) id' id st else 0)%nat.
Proof.
  unfold relayFromChanToConn_step.
  destruct (heap st !! cc) as [c|]; [| discriminate].
  destruct (ch_buf (dataChan c)) as [| data rest].
  - destruct (ch_closed (dataChan c)); [| discriminate].
    intros [= <- <-].
    now rewrite sendCloseMessage_quicStream, closes_sendCloseMessage.
  - set (st1 := set_heap _ st).
    assert (Hs1 : sent st1 = sent st) by reflexivity.
    assert (Hq1 : quicStream st1 = quicStream st) by reflexivity.
    destruct data as [| b bs].
    + intros [= <- <-]. rewrite Hs1, Hq1. split; [reflexivity | lia].
    + pose proof (conn_Write_sent (o_sock_write o) cc (b :: bs) st1) as [Hs Hq].
      destruct (conn_Write (o_sock_write o) cc (b :: bs) st1) as [st2 [e|]];
        cbn [fst snd] in *; intros [= <- <-].
      * rewrite sendCloseMessage_quicStream, closes_sendCloseMessage, Hq, Hs.
        rewrite Hs1, Hq1. split; [reflexivity |]. f_equal.
        unfold close_sent, delivered. now rewrite Hq, Hq1.
      * rewrite Hq, Hs, Hs1, Hq1. split; [reflexivity | lia].
Qed.

(** One step of a task against the count of CLOSE(id): what the task sends
    it owed, and what it still owes it has not sent. *)
Lemma task_step_closes (o : Oracle) (t : Task) (st st' : State)
    (spawned : list Task) (ended : bool) (id : string) :
  task_step o t st = Some (st', spawned, ended) ->
  quicStream st' = quicStream st
  /\ (closes id (sent st') + pending id spawned
      + (if ended then 0 else owed id t)
      <= closes id (sent st) + owed id t)%nat
  /\ (is_Some (quicStream st) -> o_close_write o = None ->
      handles id t = false ->
      (closes id (sent st') + pending id spawned
       + (if ended then 0 else owed id t)
       = closes id (sent st) + owed id t)%nat)
  /\ Forall (fun t' => handles id t' = false) spawned.
Proof.
  destruct t as [msg | cc id' | cc id']; cbn [task_step handles].
  - pose proof (handleConnect_closes o msg st id) as Hc. cbv zeta in Hc.
    pose proof (handleConnect_dial_ok o msg st) as Hsp.
    destruct (handleConnect o msg st) as [st1 sp] eqn:Eh. cbn [fst snd] in *.
    intros [= <- <- <-]. destruct Hc as (Hq & Hle & Heq).
    split; [exact Hq |]. split; [lia |]. split.
    + intros _ _ Hne. specialize (Heq Hne). cbn [owed]. rewrite Hne. lia.
    + destruct (fst (dialWithDNSFallback (o_net o) (Addr msg)))
        as [err | c] eqn:E.
      * rewrite (handleConnect_dial_failed o msg st err E) in Eh.
        injection Eh as _ <-. constructor.
      * specialize (Hsp c eq_refl). cbv zeta in Hsp. destruct Hsp as [_ Hsp].
        destruct (delivered (o_stream_write o) st);
          [destruct (initial_write_fails o msg) |];
          destruct Hsp as [-> _]; repeat constructor.
  - pose proof (relayFromConnToQuic_step_closes o cc id' st id) as Hc.
    cbv zeta in Hc.
    destruct (relayFromConnToQuic_step o cc id' st) as [st1 e].
    cbn [fst snd] in *. intros [= <- <- <-]. destruct Hc as [Hq Hc].
    split; [exact Hq |]. change (pending id []) with 0%nat. cbn [owed].
    pose proof (close_sent_le (o_close_write o) id' id st) as Hle.
    split; [destruct e; lia |]. split; [| constructor].
    intros Hs Hw _. rewrite Hw in Hc.
    rewrite (close_sent_writable id' id st Hs) in Hc. destruct e; lia.
  - destruct (relayFromChanToConn_step o cc id' st) as [[st1 e]|] eqn:Es;
      [| discriminate].
    intros [= <- <- <-].
    pose proof (relayFromChanToConn_step_closes o cc id' st st1 e id Es)
      as [Hq Hc].
    split; [exact Hq |]. change (pending id []) with 0%nat. cbn [owed].
    pose proof (close_sent_le (o_close_write o) id' id st) as Hle.
    split; [destruct e; lia |]. split; [| constructor].
    intros Hs Hw _. rewrite Hw in Hc.
    rewrite (close_sent_writable id' id st Hs) in Hc. destruct e; lia.
Qed.

(** A turn of the reader sends no CLOSE; a CONNECT(id) it receives becomes
    a task that may send two. *)
Lemma quicReader_step_closes (w : option goerror) (inp : ReaderInput)
    (st : State) (id : string) :
  let st' := fst (fst (quicReader_step w inp st)) in
  let spawned := snd (fst (quicReader_step w inp st)) in
  quicStream st' = quicStream st
  /\ closes id (sent st') = closes id (sent st)
  /\ pending id spawned = (2 * connects id [EReader w inp])%nat
  /\ (connects id [EReader w inp] = 0%nat ->
      Forall (fun t' => handles id t' = false) spawned).
Proof.
  cbv zeta. unfold quicReader_step, connects.
  destruct inp as [| | e | msg]; cbn [fst snd List.filter List.length];
    try (repeat split; (reflexivity || constructor)).
  destruct (String.eqb (Type_ msg) "connect") eqn:Ec; cbn [andb fst snd].
  { unfold pending. cbn [List.map list_sum owed handles].
    destruct (String.eqb (ID msg) id) eqn:Ei; cbn [List.length];
      repeat split; try reflexivity; try discriminate.
    intros _. constructor; [exact Ei | constructor]. }
  assert (Hnil : forall (s : State) (r : ReaderStatus),
             quicStream s = quicStream st -> sent s = sent st ->
             quicStream (s, ([] : list Task), r).1.1 = quicStream st
             /\ closes id (sent (s, ([] : list Task), r).1.1) = closes id (sent st)
             /\ pending id (s, ([] : list Task), r).1.2 = (2 * 0)%nat
             /\ (0%nat = 0%nat ->
                 Forall (fun t' => handles id t' = false)
                        (s, ([] : list Task), r).1.2)).
  { intros s r Hq Hs. cbn [fst snd]. rewrite Hq, Hs.
    repeat split; constructor. }
  cbn [List.length].
  destruct (String.eqb (Type_ msg) "data").
  { destruct (clientConns st !! ID msg) as [l|]; [| now apply Hnil].
    destruct (heap st !! l) as [cc|]; [| now apply Hnil].
    destruct (DecodeString (Data msg)) as [data [e|]]; [now apply Hnil |].
    destruct (ch_closed (dataChan cc)); [now apply Hnil |].
    destruct (try_send data (dataChan cc)); now apply Hnil. }
  destruct (String.eqb (Type_ msg) "close").
  { destruct (clientConns st !! ID msg) as [l|]; now apply Hnil. }
  destruct (String.eqb (Type_ msg) "ping").
  { set (m := mkMessage "pong" (ID msg) "" "").
    pose proof (sendMessage_quicStream w m st) as Hq.
    pose proof (closes_sendMessage_other w m id st eq_refl) as Hc.
    destruct (sendMessage w m st) as [st1 [e|]]; cbn [fst snd] in *;
      cbn [quicStream sent log set_logs]; rewrite Hq, Hc;
      repeat split; constructor. }
  now apply Hnil.
Qed.

(** *** Traces *)

(** One event against the count of CLOSE(id). *)
Lemma sys_step_closes_le (ev : Event) (S : Sys) (id : string) :
  (closes id (sent (state (sys_step ev S))) + pending id (tasks (sys_step ev S))
   <= closes id (sent (state S)) + pending id (tasks S)
      + 2 * connects id [ev])%nat.
Proof.
  destruct ev as [w inp | i o | | | c s]; cbn [sys_step].
  - pose proof (quicReader_step_closes w inp (state S) id) as Hr.
    cbv zeta in Hr.
    destruct (quicReader_step w inp (state S)) as [[st sp] r].
    cbn [fst snd state tasks] in *. destruct Hr as (_ & -> & Hp & _).
    rewrite pending_app. lia.
  - change (connects id [ETask i o]) with 0%nat.
    destruct (tasks S !! i) as [t|] eqn:Ei; [| lia].
    destruct (task_step o t (state S)) as [[[st sp] e]|] eqn:Et; [| lia].
    pose proof (task_step_closes o t (state S) st sp e id Et) as (_ & Hle & _).
    pose proof (pending_delete id (tasks S) i t Ei) as Hd.
    cbn [state tasks]. rewrite pending_app. destruct e; lia.
  - change (connects id [EDisconnect]) with 0%nat. cbn [state tasks].
    change (sent (DisconnectQuic (state S))) with (sent (state S)). lia.
  - change (connects id [EReconnect]) with 0%nat. cbn [state tasks].
    change (sent (ReconnectQuic (state S))) with (sent (state S)). lia.
  - change (connects id [ESession c s]) with 0%nat. cbn [state tasks].
    change (sent (set_quic (Some c) (Some s) (state S))) with (sent (state S)).
    lia.
Qed.

Lemma connects_cons (id : string) (ev : Event) (evs : list Event) :
  connects id (ev :: evs) = (connects id [ev] + connects id evs)%nat.
Proof.
  unfold connects. cbn [List.filter].
  destruct (match ev with EReader _ (Received msg) => _ | _ => false end);
    reflexivity.
Qed.

(** Along any trace, the CLOSE(id) sent and those the live tasks may still
    send never exceed what was there at the start plus two for each
    CONNECT(id) received. *)
Lemma run_closes_le (evs : list Event) (S : Sys) (id : string) :
  (closes id (sent (state (run evs S))) + pending id (tasks (run evs S))
   <= closes id (sent (state S)) + pending id (tasks S)
      + 2 * connects id evs)%nat.
Proof.
  revert S. induction evs as [| ev evs IH]; intros S.
  - cbn. lia.
  - unfold run in *. cbn [foldl]. rewrite connects_cons.
    pose proof (sys_step_closes_le ev S id). specialize (IH (sys_step ev S)).
    lia.
Qed.

(** When the control stream takes every CLOSE and no CONNECT(id) waits or
    arrives, one event keeps the sum as it is. *)
Lemma sys_step_closes_eq (ev : Event) (S : Sys) (id : string) :
  is_Some (quicStream (state S)) ->
  Forall (fun t => handles id t = false) (tasks S) ->
  writable ev = true ->
  connects id [ev] = 0%nat ->
  is_Some (quicStream (state (sys_step ev S)))
  /\ Forall (fun t => handles id t = false) (tasks (sys_step ev S))
  /\ (closes id (sent (state (sys_step ev S)))
      + pending id (tasks (sys_step ev S))
      = closes id (sent (state S)) + pending id (tasks S))%nat.
Proof.
  intros Hs Hh Hw Hc.
  destruct ev as [w inp | i o | | | c s]; cbn [sys_step writable] in *;
    try discriminate.
  - pose proof (quicReader_step_closes w inp (state S) id) as Hr.
    cbv zeta in Hr.
    destruct (quicReader_step w inp (state S)) as [[st sp] r].
    cbn [fst snd state tasks] in *. destruct Hr as (Hq & -> & Hp & Hf).
    rewrite Hq, pending_app, Hp, Hc. split; [exact Hs |]. split; [| lia].
    apply Forall_app. split; [exact Hh | now apply Hf].
  - destruct (tasks S !! i) as [t|] eqn:Ei; [| repeat split; assumption].
    destruct (task_step o t (state S)) as [[[st sp] e]|] eqn:Et;
      [| repeat split; assumption].
    pose proof (task_step_closes o t (state S) st sp e id Et)
      as (Hq & _ & Heq & Hf).
    assert (Ht : handles id t = false).
    { rewrite Forall_forall in Hh. apply Hh.
      eapply list_elem_of_lookup_2, Ei. }
    destruct (o_close_write o) eqn:Eo; [discriminate |].
    specialize (Heq Hs eq_refl Ht).
    pose proof (pending_delete id (tasks S) i t Ei) as Hd.
    cbn [state tasks]. rewrite Hq, pending_app. split; [exact Hs |]. split.
    + apply Forall_app. split; [| exact Hf].
      destruct e; [| exact Hh]. rewrite delete_take_drop.
      apply Forall_app. split; [now apply Forall_take | now apply Forall_drop].
    + destruct e; lia.
  - cbn [state tasks quicStream set_quic]. repeat split; eauto.
Qed.

Lemma run_closes_eq (evs : list Event) (S : Sys) (id : string) :
  is_Some (quicStream (state S)) ->
  Forall (fun t => handles id t = false) (tasks S) ->
  forallb writable evs = true ->
  connects id evs = 0%nat ->
  (closes id (sent (state (run evs S))) + pending id (tasks (run evs S))
   = closes id (sent (state S)) + pending id (tasks S))%nat.
Proof.
  revert S. induction evs as [| ev evs IH]; intros S Hs Hh Hw Hc.
  - reflexivity.
  - cbn [forallb] in Hw. apply andb_true_iff in Hw as [Hw1 Hw2].
    rewrite connects_cons in Hc.
    destruct (sys_step_closes_eq ev S id Hs Hh Hw1 ltac:(lia))
      as (Hs' & Hh' & Heq).
    unfold run in *. cbn [foldl].
    rewrite (IH (sys_step ev S) Hs' Hh' Hw2 ltac:(lia)). exact Heq.
Qed.

Lemma pending_0_handles (id : string) (ts : list Task) :
  pending id ts = 0%nat -> Forall (fun t => handles id t = false) ts.
Proof.
  induction ts as [| t ts IH]; [constructor |].
  intros Hp.
  change (pending id (t :: ts)) with (owed id t + pending id ts)%nat in Hp.
  constructor; [| apply IH; lia].
  destruct t as [m | |]; cbn [handles owed] in *; [| reflexivity..].
  destruct (String.eqb (ID m) id); [lia | reflexivity].
Qed.

(** C2, as the code has it.  Take a CONNECT(id) whose handler inserts an
    entry (the dial succeeds) and writes CONNECTED(id), at a moment when no
    task of an earlier CONNECT(id) is left, and any trace after it in which
    no further CONNECT(id) arrives.
    - When the write of the initial payload fails, the handler sends
      CLOSE(id) itself, once, and starts no relay task.
    - Otherwise it starts the two relay tasks and sends no CLOSE(id).
    - Afterwards each relay task sends CLOSE(id) once, when it ends: the
      CLOSE(id) written plus the relay tasks of [id] still alive never
      exceed two, and make exactly two (one after a failed initial write)
      as long as the control stream takes every CLOSE.  So two CLOSE(id)
      have been written once both relay tasks have ended. *)
Theorem connect_close_frames (o : Oracle) (msg : Message) (st0 : State)
    (ts0 : list Task) (evs : list Event) (c : Socket) :
  let id := ID msg in
  fst (dialWithDNSFallback (o_net o) (Addr msg)) = inr c ->
  delivered (o_stream_write o) st0 = true ->
  pending id ts0 = 0%nat ->
  connects id evs = 0%nat ->
  let st1 := fst (handleConnect o msg st0) in
  let spawned := snd (handleConnect o msg st0) in
  let S' := run evs (mkSys st1 (ts0 ++ spawned)) in
  (if initial_write_fails o msg
   then spawned = []
        /\ closes id (sent st1)
           = (closes id (sent st0)
              + if delivered (o_close_write o) st0 then 1 else 0)%nat
   else spawned = relay_tasks (fresh (dom (heap st0))) id
        /\ closes id (sent st1) = closes id (sent st0))
  /\ (closes id (sent (state S')) + pending id (tasks S')
      <= closes id (sent st1) + pending id spawned)%nat
  /\ (closes id (sent (state S')) + pending id (tasks S')
      <= closes id (sent st0) + 2)%nat
  /\ (forallb writable evs = true -> o_close_write o = None ->
      (closes id (sent (state S')) + pending id (tasks S')
       = closes id (sent st0) + if initial_write_fails o msg then 1 else 2)%nat).
Proof.
  intros id Hdial Hconf Hp0 Hc0 st1 spawned S'.
  pose proof (handleConnect_dial_ok o msg st0 c Hdial) as Hok.
  cbv zeta in Hok. fold id st1 spawned in Hok. rewrite Hconf in Hok.
  destruct Hok as [Hq Hok].
  assert (Hc : closes id [mkMessage "connected" id "" ""] = 0%nat)
    by reflexivity.
  pose proof (run_closes_le evs (mkSys st1 (ts0 ++ spawned)) id) as Hle.
  fold S' in Hle. cbn [state tasks] in Hle.
  rewrite pending_app, Hp0, Hc0 in Hle.
  assert (Hstream : is_Some (quicStream st1)).
  { rewrite Hq. unfold delivered in Hconf.
    destruct (quicStream st0); [eauto | discriminate]. }
  assert (Heq : forallb writable evs = true ->
                (closes id (sent (state S')) + pending id (tasks S')
                 = closes id (sent st1) + pending id spawned)%nat).
  { intros Hw.
    pose proof (run_closes_eq evs (mkSys st1 (ts0 ++ spawned)) id) as Hr.
    fold S' in Hr. cbn [state tasks] in Hr.
    rewrite pending_app, Hp0 in Hr. apply Hr; try assumption.
    apply Forall_app. split; [now apply pending_0_handles |].
    destruct (initial_write_fails o msg); destruct Hok as [-> _];
      repeat constructor. }
  destruct (initial_write_fails o msg).
  - destruct Hok as [Hsp Hsent]. rewrite Hsp in *.
    change (pending id []) with 0%nat in *.
    assert (Hs1 : closes id (sent st1)
                  = (closes id (sent st0)
                     + if delivered (o_close_write o) st0 then 1 else 0)%nat).
    { rewrite Hsent, !closes_app, Hc.
      destruct (delivered (o_close_write o) st0);
        [rewrite closes_closeMsg; unfold id; rewrite String.eqb_refl |
         change (closes id []) with 0%nat]; lia. }
    split; [split; [reflexivity | exact Hs1] |]. split; [lia |].
    split; [destruct (delivered (o_close_write o) st0); lia |].
    intros Hw Hclose. specialize (Heq Hw). rewrite Heq, Hs1.
    unfold delivered in *. rewrite Hclose.
    destruct (quicStream st0); [lia | discriminate].
  - destruct Hok as [Hsp Hsent]. rewrite Hsp in *.
    rewrite pending_relay_tasks in *. unfold id in *.
    rewrite String.eqb_refl in *.
    assert (Hs1 : closes (ID msg) (sent st1) = closes (ID msg) (sent st0)).
    { rewrite Hsent, closes_app, Hc. lia. }
    split; [split; [reflexivity | exact Hs1] |]. split; [lia |].
    split; [lia |]. intros Hw _. specialize (Heq Hw). lia.
Qed.

End WithLibraries.

End CloseFacts.

(** ** CLOSE frames on examples *)

Module CloseExamples.
Import Msg Net Dial Conn Scenarios ConnFacts CloseFacts.

#[local] Existing Instance plain_netlib.
#[local] Existing Instance plain_base64.

(** C2 as stated fails both ways.  After a CONNECT("y") that registered its
    sub-connection and ran to its end, two CLOSE("y") were written; and
    when the CONNECTED confirmation cannot be written, the entry stays in
    the table until the session is torn down and no CLOSE("y") is written
    at all. *)
Lemma close_frames_not_exactly_one :
  let idle := mkSys running [] in
  (clientConns (state (run (take 2 accepted_then_ended) idle)) !! "y"
   = Some 0%nat
   /\ tasks (run accepted_then_ended idle) = []
   /\ clientConns (state (run accepted_then_ended idle)) !! "y" = None
   /\ closes "y" (sent (state (run accepted_then_ended idle))) = 2%nat)
  /\ (clientConns (state (run (take 2 confirmation_lost) idle)) !! "y"
      = Some 0%nat
      /\ tasks (run confirmation_lost idle) = []
      /\ clientConns (state (run confirmation_lost idle)) !! "y" = None
      /\ closes "y" (sent (state (run confirmation_lost idle))) = 0%nat).
Proof. vm_compute. repeat split; reflexivity. Qed.

(** The trace after the handler in the first example: both relay tasks
    end. *)
Lemma connect_close_frames_witness :
  let st1 := fst (handleConnect o_accept connect_y_ok running) in
  let spawned := snd (handleConnect o_accept connect_y_ok running) in
  let S' := run [ETask 0 o_accept; ETask 0 o_accept] (mkSys st1 spawned) in
  (closes "y" (sent (state S')) + pending "y" (tasks S') = 2)%nat.
Proof.
  pose proof (connect_close_frames o_accept connect_y_ok running []
                [ETask 0%nat o_accept; ETask 0%nat o_accept]
                (mkSocket "a.example:80" false [] None)
                eq_refl eq_refl eq_refl eq_refl) as T.
  cbv zeta in T. destruct T as (_ & _ & _ & T).
  exact (T eq_refl eq_refl).
Defined.

End CloseExamples.

(** ** Configuration *)

Module ConfigFacts.
Import Net Config.

Section WithConfigLib.
Context `{ConfigLib}.

(** The JSON text does not depend on the token. *)
Lemma MarshalIndent_with_token (token : string) (c : Config) :
  MarshalIndent (with_token token c) = MarshalIndent c.
Proof. reflexivity. Qed.

(** What [SaveConfig] does to the files. *)
Lemma SaveConfig_files (o : Oracle) (c : Config) (w : World) :
  files (fst (SaveConfig o c w))
  = match mkdir_err o, write_err o with
    | None, None =>
        files (WriteFile (getConfigPath w) (MarshalIndent c) 384 w)
    | _, _ => files w
    end.
Proof.
  unfold SaveConfig.
  destruct (mkdir_err o); [reflexivity |].
  set (w1 := mkWorld _ _ _ _ _).
  assert (Hf : forall o' s t, files (fst (SaveToken o' s t w1)) = files w).
  { intros o' s t. unfold SaveToken.
    destruct (String.eqb t ""); [reflexivity |].
    destruct (keyring_err o'); reflexivity. }
  assert (Hp : forall o' s t, getConfigPath (fst (SaveToken o' s t w1))
                              = getConfigPath w).
  { intros o' s t. unfold SaveToken.
    destruct (String.eqb t ""); [reflexivity |].
    destruct (keyring_err o'); reflexivity. }
  destruct (negb (String.eqb (APIToken c) "")
            && negb (String.eqb (UserID c) "")).
  - specialize (Hf o (NewSecureStorage (UserID c)) (APIToken c)).
    destruct (SaveToken o (NewSecureStorage (UserID c)) (APIToken c) w1)
      as [w2 [e|]]; cbn [fst] in Hf;
      destruct (write_err o); cbn [fst files log WriteFile];
      rewrite ?Hf; reflexivity.
  - destruct (write_err o); reflexivity.
Qed.


End WithConfigLib.

Import Scenarios.


End ConfigFacts.

(** ** The order of binary64 numbers *)

Module FloatOrder.
Import Binary64.

Lemma SFltb_key (f1 f2 : spec_float) :
  sf_is_nan f1 = false -> sf_is_nan f2 = false ->
  (SFltb f1 f2 = true <-> key_lt (sf_key f1) (sf_key f2)).
Proof.
  unfold SFltb, key_lt.
  destruct f1 as [s1 | s1 | | s1 m1 e1], f2 as [s2 | s2 | | s2 m2 e2];
    cbn [sf_is_nan]; try discriminate; intros _ _;
    try destruct s1; try destruct s2; cbn [SFcompare sf_key fst snd];
    try (split; [discriminate | lia]); try (split; [reflexivity | lia];
    try (split; [intros _; lia | reflexivity])).
  all: try (split; [intros _; lia | reflexivity]).
  - destruct (Z.compare_spec e1 e2); cbn [CompOpp];
      try (split; [discriminate | lia]); try (split; [intros _; lia | reflexivity]).
    change (PosDef.Pos.compare_cont Eq m1 m2) with (Pos.compare m1 m2).
    destruct (Pos.compare_spec m1 m2); cbn [CompOpp];
      try (split; [discriminate | lia]); split; [intros _; lia | reflexivity].
  - destruct (Z.compare_spec e1 e2); cbn [CompOpp];
      try (split; [discriminate | lia]); try (split; [intros _; lia | reflexivity]).
    change (PosDef.Pos.compare_cont Eq m1 m2) with (Pos.compare m1 m2).
    destruct (Pos.compare_spec m1 m2); cbn [CompOpp];
      try (split; [discriminate | lia]); split; [intros _; lia | reflexivity].
Qed.

Lemma is_nan_SF (x : float) : PrimFloat.is_nan x = sf_is_nan (Prim2SF x).
Proof.
  unfold PrimFloat.is_nan. rewrite FloatAxioms.eqb_spec. unfold SFeqb.
  destruct (Prim2SF x) as [s | s | | s m e]; cbn [SFcompare sf_is_nan negb];
    try destruct s; try reflexivity.
  - rewrite Z.compare_refl.
    change (PosDef.Pos.compare_cont Eq m m) with (Pos.compare m m).
    now rewrite Pos.compare_refl.
  - rewrite Z.compare_refl.
    change (PosDef.Pos.compare_cont Eq m m) with (Pos.compare m m).
    now rewrite Pos.compare_refl.
Qed.

Lemma ltb_not_nan (x y : float) :
  (x <? y)%float = true ->
  PrimFloat.is_nan x = false /\ PrimFloat.is_nan y = false.
Proof.
  rewrite FloatAxioms.ltb_spec, !is_nan_SF. unfold SFltb.
  destruct (Prim2SF x), (Prim2SF y); cbn [SFcompare sf_is_nan];
    try discriminate; split; reflexivity.
Qed.

Lemma ltb_key (x y : float) :
  PrimFloat.is_nan x = false -> PrimFloat.is_nan y = false ->
  ((x <? y)%float = true
   <-> key_lt (sf_key (Prim2SF x)) (sf_key (Prim2SF y))).
Proof.
  rewrite !is_nan_SF, FloatAxioms.ltb_spec. apply SFltb_key.
Qed.

Lemma ltb_irrefl (x : float) : (x <? x)%float = false.
Proof.
  destruct (x <? x)%float eqn:E; [| reflexivity].
  destruct (ltb_not_nan x x E) as [Hx _].
  apply (ltb_key x x Hx Hx) in E. unfold key_lt in E. lia.
Qed.

Lemma ltb_trans (x y z : float) :
  (x <? y)%float = true -> (y <? z)%float = true -> (x <? z)%float = true.
Proof.
  intros Hxy Hyz.
  destruct (ltb_not_nan x y Hxy) as [Hx Hy].
  destruct (ltb_not_nan y z Hyz) as [_ Hz].
  apply (ltb_key x y Hx Hy) in Hxy. apply (ltb_key y z Hy Hz) in Hyz.
  apply (ltb_key x z Hx Hz). unfold key_lt in *. lia.
Qed.

(** Among numbers, [x < y] and [not (z < y)] give [x < z]. *)
Lemma ltb_le_trans (x y z : float) :
  PrimFloat.is_nan z = false ->
  (x <? y)%float = true -> (z <? y)%float = false -> (x <? z)%float = true.
Proof.
  intros Hz Hxy Hzy.
  destruct (ltb_not_nan x y Hxy) as [Hx Hy].
  apply (ltb_key x y Hx Hy) in Hxy. apply (ltb_key x z Hx Hz).
  assert (Hn : ~ key_lt (sf_key (Prim2SF z)) (sf_key (Prim2SF y))).
  { intros Hk. apply (ltb_key z y Hz Hy) in Hk. congruence. }
  unfold key_lt in *. lia.
Qed.

End FloatOrder.

(** ** Server discovery and selection *)

Module DirectoryFacts.
Import Net Directory FloatOrder.

Section Lowest.
Context {A : Type} (key : A -> float).

Lemma lowest_cons (best x : A) (l : list A) :
  lowest key best (x :: l)
  = lowest key (if (key x <? key best)%float then x else best) l.
Proof. reflexivity. Qed.

(** The scan returns one of the elements it went through. *)
Lemma lowest_elem (best : A) (l : list A) : lowest key best l ∈ best :: l.
Proof.
  revert best. induction l as [| x l IH]; intros best.
  - cbn. left.
  - rewrite lowest_cons.
    specialize (IH (if (key x <? key best)%float then x else best)).
    apply elem_of_cons in IH as [-> | IH].
    + destruct (key x <? key best)%float; [right; left | left].
    + right. right. exact IH.
Qed.

(** The scan, from a state where [b], at position [i] of what was scanned
    so far, is the first lowest of it. *)
Lemma lowest_scan (pre : list A) (b : A) (i : nat) (l : list A) :
  Forall (fun s => PrimFloat.is_nan (key s) = false) (pre ++ l) ->
  pre !! i = Some b ->
  (forall s, s ∈ pre -> (key s <? key b)%float = false) ->
  (forall j s, (j < i)%nat -> pre !! j = Some s ->
               (key b <? key s)%float = true) ->
  let b' := lowest key b l in
  exists i',
    (pre ++ l) !! i' = Some b'
    /\ (forall s, s ∈ pre ++ l -> (key s <? key b')%float = false)
    /\ (forall j s, (j < i')%nat -> (pre ++ l) !! j = Some s ->
                    (key b' <? key s)%float = true).
Proof.
  revert pre b i. induction l as [| x l IH]; intros pre b i Hnan Hi Hmin Hfirst.
  - cbn. rewrite app_nil_r. eauto.
  - cbv zeta. rewrite lowest_cons.
    replace (pre ++ x :: l) with ((pre ++ [x]) ++ l) in *
      by (now rewrite <- app_assoc).
    assert (Hnx : PrimFloat.is_nan (key x) = false).
    { rewrite Forall_forall in Hnan. apply Hnan. set_solver. }
    assert (Hnpre : forall s, s ∈ pre -> PrimFloat.is_nan (key s) = false).
    { intros s Hs. rewrite Forall_forall in Hnan. apply Hnan. set_solver. }
    destruct (key x <? key b)%float eqn:Ex.
    + apply (IH (pre ++ [x]) x (List.length pre)); [exact Hnan | | |].
      * rewrite lookup_app_r by lia. now rewrite Nat.sub_diag.
      * intros s Hs. apply elem_of_app in Hs as [Hs | Hs].
        -- destruct (key s <? key x)%float eqn:Es; [| reflexivity].
           rewrite <- (Hmin s Hs). symmetry. eapply ltb_trans; eassumption.
        -- apply list_elem_of_singleton in Hs as ->. apply ltb_irrefl.
      * intros j s Hj Hjs. rewrite lookup_app_l in Hjs by exact Hj.
        assert (Hs : s ∈ pre) by (eapply list_elem_of_lookup_2, Hjs).
        eapply ltb_le_trans; [now apply Hnpre | exact Ex | now apply Hmin].
    + apply (IH (pre ++ [x]) b i); [exact Hnan | | |].
      * rewrite lookup_app_l; [exact Hi | eapply lookup_lt_Some, Hi].
      * intros s Hs. apply elem_of_app in Hs as [Hs | Hs]; [now apply Hmin |].
        apply list_elem_of_singleton in Hs as ->. exact Ex.
      * intros j s Hj Hjs. apply (Hfirst j s Hj).
        rewrite lookup_app_l in Hjs; [exact Hjs |].
        pose proof (lookup_lt_Some _ _ _ Hi). lia.
Qed.

(** The scan returns the first of the lowest elements. *)
Lemma lowest_first_min (best : A) (l : list A) :
  Forall (fun s => PrimFloat.is_nan (key s) = false) (best :: l) ->
  let b := lowest key best l in
  exists i,
    (best :: l) !! i = Some b
    /\ (forall s, s ∈ best :: l -> (key s <? key b)%float = false)
    /\ (forall j s, (j < i)%nat -> (best :: l) !! j = Some s ->
                    (key b <? key s)%float = true).
Proof.
  intros Hnan.
  apply (lowest_scan [best] best 0 l Hnan); [reflexivity | |].
  - intros s Hs. apply list_elem_of_singleton in Hs as ->. apply ltb_irrefl.
  - intros j s Hj. lia.
Qed.

End Lowest.

(** Scanning records for their lowest field is scanning what they were
    made from. *)
Lemma lowest_map {A B : Type} (f : A -> B) (key : B -> float) (a0 : A)
    (l : list A) :
  lowest key (f a0) (List.map f l) = f (lowest (fun a => key (f a)) a0 l).
Proof.
  revert a0. induction l as [| x l IH]; intros a0; [reflexivity |].
  cbn [List.map]. rewrite !lowest_cons.
  destruct (key (f x) <? key (f a0))%float; apply IH.
Qed.

Section WithNetLib.
Context `{NetLib}.

Lemma healthy_set_subset (servers : list ServerInfo) (s : ServerInfo) :
  s ∈ healthy_set servers -> s ∈ servers.
Proof.
  unfold healthy_set.
  destruct (List.filter is_healthy servers) as [| h hs] eqn:E; [tauto |].
  rewrite <- E. intros Hs. apply list_elem_of_In, List.filter_In in Hs.
  apply list_elem_of_In. tauto.
Qed.

Lemma healthy_set_nonempty (servers : list ServerInfo) :
  servers <> [] -> healthy_set servers <> [].
Proof.
  unfold healthy_set. intros Hne.
  destruct (List.filter is_healthy servers); [exact Hne | discriminate].
Qed.

Lemma totalScore_formula (env : DirEnv) (s : ServerInfo) :
  totalScore env s
  = (utilization s * c0_6 + (float64_of_int (latency_ms env s) / c10) * c0_4)%float.
Proof.
  unfold totalScore, latency_ms, TestLatency.
  destruct (probe env (3 * Second) (testAddr (Address s))); reflexivity.
Qed.

(** C5.  For a non-empty candidate list, selection works on the healthy
    candidates, or on all of them when none is healthy; it probes only
    candidates whose utilization is not above 90; the score of a candidate
    is its utilization times 0.6 plus a tenth of its latency in
    milliseconds times 0.4, a failed probe counting for 5000 ms; when no
    candidate is left under the limit, nothing is probed and the address
    returned is that of a least utilized one of the healthy set; otherwise
    the address returned is that of the candidate of lowest score, the
    earliest in the response among equals.  (Scores are compared as
    binary64 numbers; utilization figures come from JSON, which has no
    NaN.) *)
Theorem SelectBestServer_lowest_score (env : DirEnv)
    (servers : list ServerInfo) :
  servers <> [] ->
  let healthy := healthy_set servers in
  let kept := List.filter (fun s => negb (overloaded s)) healthy in
  let res := fst (SelectBestServer env servers) in
  let probes := snd (SelectBestServer env servers) in
  (List.filter is_healthy servers <> [] ->
   healthy = List.filter is_healthy servers)
  /\ (List.filter is_healthy servers = [] -> healthy = servers)
  /\ (forall a, a ∈ probes ->
      exists s, s ∈ healthy /\ (c90 <? utilization s)%float = false
                /\ a = testAddr (Address s))
  /\ (forall s, totalScore env s
                = (utilization s * c0_6
                   + (float64_of_int (latency_ms env s) / c10) * c0_4)%float)
  /\ (kept = [] ->
      probes = []
      /\ exists b, b ∈ healthy /\ res = inr (Address b)
                   /\ forall s, s ∈ healthy ->
                                (utilization s <? utilization b)%float = false)
  /\ (kept <> [] ->
      Forall (fun s => PrimFloat.is_nan (totalScore env s) = false) kept ->
      exists i b,
        kept !! i = Some b /\ res = inr (Address b)
        /\ (forall s, s ∈ kept ->
                      (totalScore env s <? totalScore env b)%float = false)
        /\ (forall j s, (j < i)%nat -> kept !! j = Some s ->
                        (totalScore env b <? totalScore env s)%float = true)).
Proof.
  intros Hne healthy kept res probes.
  split. { unfold healthy, healthy_set.
           destruct (List.filter is_healthy servers); [congruence | reflexivity]. }
  split. { unfold healthy, healthy_set. now intros ->. }
  assert (Hh : healthy <> []) by now apply healthy_set_nonempty.
  assert (Hkept : forall s, s ∈ kept ->
            s ∈ healthy /\ (c90 <? utilization s)%float = false).
  { intros s Hs. apply list_elem_of_In, List.filter_In in Hs as [Hs Ho].
    split; [now apply list_elem_of_In |].
    unfold overloaded in Ho. now apply negb_true_iff in Ho. }
  assert (Hprobes : probes = []
                    \/ probes = List.map (fun s => testAddr (Address s)) kept).
  { unfold probes, SelectBestServer. fold healthy.
    destruct servers as [| s0 ss]; [congruence |].
    destruct healthy as [| h0 [| h1 hs]] eqn:Eh; [congruence | now left |].
    right. fold kept.
    destruct kept as [| k0 ks]; reflexivity. }
  split.
  { intros a Ha. destruct Hprobes as [Hp | Hp]; rewrite Hp in Ha.
    - apply elem_of_nil in Ha as [].
    - apply list_elem_of_In, List.in_map_iff in Ha as (s & <- & Hs).
      apply list_elem_of_In, Hkept in Hs as [Hs Ho]. eauto. }
  split; [apply totalScore_formula |].
  split.
  - intros Hk. split.
    { destruct Hprobes as [Hp | Hp]; [exact Hp | now rewrite Hp, Hk]. }
    unfold res, SelectBestServer. fold healthy.
    destruct servers as [| s0 ss]; [congruence |].
    destruct healthy as [| h0 [| h1 hs]] eqn:Eh; [congruence | |].
    + exists h0. split; [left |]. split; [reflexivity |].
      intros s Hs. apply list_elem_of_singleton in Hs as ->. apply ltb_irrefl.
    + fold kept. rewrite Hk. cbn [List.map fst].
      assert (Hnan : Forall (fun s => PrimFloat.is_nan (utilization s) = false)
                            (h0 :: h1 :: hs)).
      { rewrite Forall_forall. intros s Hs.
        destruct (overloaded s) eqn:Eo.
        - unfold overloaded in Eo. now apply ltb_not_nan in Eo.
        - assert (Hin : In s kept).
          { apply List.filter_In. split; [now apply list_elem_of_In |].
            now rewrite Eo. }
          rewrite Hk in Hin. destruct Hin. }
      destruct (lowest_first_min utilization h0 (h1 :: hs) Hnan)
        as (i & Hi & Hmin & _).
      exists (lowest utilization h0 (h1 :: hs)).
      split; [eapply list_elem_of_lookup_2, Hi |].
      split; [reflexivity | exact Hmin].
  - intros Hk Hnan.
    unfold res, SelectBestServer. fold healthy.
    destruct servers as [| s0 ss]; [congruence |].
    destruct healthy as [| h0 [| h1 hs]] eqn:Eh; [congruence | |].
    + destruct kept as [| k0 ks] eqn:Ek; [congruence |].
      assert (Hk0 : kept = [h0]).
      { unfold kept. cbn [List.filter] in *.
        destruct (negb (overloaded h0)); [reflexivity | discriminate]. }
      rewrite Ek in Hk0. injection Hk0 as -> ->.
      exists 0%nat, h0. split; [reflexivity |]. split; [reflexivity |].
      split; [| intros j s Hj; lia].
      intros s Hs. apply list_elem_of_singleton in Hs as ->. apply ltb_irrefl.
    + fold kept. destruct kept as [| k0 ks] eqn:Ek; [congruence |].
      cbn [List.map fst].
      rewrite (lowest_map
                 (fun s => mkServerScore s (TestLatency env (Address s))
                                         (totalScore env s)) score k0 ks).
      cbn [server score].
      destruct (lowest_first_min (totalScore env) k0 ks Hnan)
        as (i & Hi & Hmin & Hfirst).
      exists i, (lowest (totalScore env) k0 ks).
      repeat split; assumption.
Qed.

(** [SelectBestServer] returns the address of a candidate whenever there
    is one. *)
Lemma SelectBestServer_elem (env : DirEnv) (servers : list ServerInfo) :
  servers <> [] ->
  exists s, s ∈ servers /\ fst (SelectBestServer env servers) = inr (Address s).
Proof.
  intros Hne. unfold SelectBestServer.
  pose proof (healthy_set_nonempty servers Hne) as Hh.
  pose proof (healthy_set_subset servers) as Hsub.
  destruct servers as [| s0 ss]; [congruence |].
  destruct (healthy_set (s0 :: ss)) as [| h0 [| h1 hs]] eqn:Eh; [congruence | |].
  - exists h0. split; [apply Hsub; left | reflexivity].
  - set (kept := List.filter (fun s => negb (overloaded s)) (h0 :: h1 :: hs)).
    assert (Hkept : forall s, s ∈ kept -> s ∈ s0 :: ss).
    { intros s Hs. apply Hsub.
      apply list_elem_of_In, List.filter_In in Hs as [Hs _].
      now apply list_elem_of_In. }
    destruct kept as [| k0 ks] eqn:Ek; cbn [List.map fst].
    + exists (lowest utilization h0 (h1 :: hs)).
      split; [apply Hsub, lowest_elem | reflexivity].
    + rewrite (lowest_map
                 (fun s => mkServerScore s (TestLatency env (Address s))
                                         (totalScore env s)) score k0 ks).
      cbn [server].
      exists (lowest (fun a => totalScore env a) k0 ks).
      split; [apply Hkept, lowest_elem | reflexivity].
Qed.

(** C4, as the code has it.  Endpoint selection always returns an address.
    In debug mode it is 127.0.0.1:8443 and nothing is discovered.
    Otherwise, when discovery fails (HTTP failure, a status other than
    200, a body that does not decode, an empty candidate list) it is
    exactly [fallbackAddr], and when discovery succeeds it is the address
    of one of the discovered candidates: ranking does not fail on a list
    that is not empty. *)
Theorem GetOptimalServer_fallback (debugMode : bool) (env : DirEnv)
    (apiURL fallbackAddr : string) :
  let res := GetOptimalServer debugMode env apiURL fallbackAddr in
  (debugMode = true -> res = "127.0.0.1:8443"%string)
  /\ (debugMode = false ->
      (forall err, DiscoverServers env apiURL = inl err -> res = fallbackAddr)
      /\ (forall servers, DiscoverServers env apiURL = inr servers ->
          exists s, s ∈ servers /\ res = Address s)
      /\ match http_get env (5 * Second) (apiURL +:+ "/api/servers") with
         | HttpErr _ => res = fallbackAddr
         | HttpResp status body =>
             if status =? 200 then
               match body with
               | inl _ => res = fallbackAddr
               | inr [] => res = fallbackAddr
               | inr servers => exists s, s ∈ servers /\ res = Address s
               end
             else res = fallbackAddr
         end).
Proof.
  cbv zeta. split; [intros ->; reflexivity |]. intros ->.
  unfold GetOptimalServer.
  assert (Hsel : forall servers, DiscoverServers env apiURL = inr servers ->
            exists s, s ∈ servers
              /\ match fst (SelectBestServer env servers) with
                 | inl _ => fallbackAddr
                 | inr bestAddr => bestAddr
                 end = Address s).
  { intros servers Hd.
    assert (Hne : servers <> []).
    { unfold DiscoverServers in Hd.
      destruct (http_get env _ _) as [e | status body]; [discriminate |].
      destruct (negb (status =? 200)); [discriminate |].
      destruct body as [e | [| s0 ss]]; try discriminate.
      injection Hd as <-. discriminate. }
    destruct (SelectBestServer_elem env servers Hne) as (s & Hs & ->). eauto. }
  split; [intros err ->; reflexivity |].
  split; [intros servers Hd; rewrite Hd; now apply Hsel |].
  unfold DiscoverServers in *.
  destruct (http_get env (5 * Second) (apiURL +:+ "/api/servers"))
    as [e | status body]; [reflexivity |].
  destruct (status =? 200); cbn [negb]; [| reflexivity].
  destruct body as [e | [| s0 ss]]; try reflexivity.
  now apply Hsel.
Qed.

End WithNetLib.

End DirectoryFacts.

(** ** Server discovery and selection on examples *)

Module DirectoryExamples.
Import Net Dial Directory Scenarios DirectoryFacts.

#[local] Existing Instance plain_netlib.

Example three_selected :
  SelectBestServer three_env three
  = (inr "a.example:8443"%string, ["a.example:443"; "b.example:443"]%string).
Proof. vm_compute. reflexivity. Qed.

Lemma SelectBestServer_lowest_score_witness :
  let kept := List.filter (fun s => negb (overloaded s)) (healthy_set three) in
  exists i b,
    kept !! i = Some b
    /\ fst (SelectBestServer three_env three) = inr (Address b)
    /\ (forall s, s ∈ kept ->
          (totalScore three_env s <? totalScore three_env b)%float = false)
    /\ (forall j s, (j < i)%nat -> kept !! j = Some s ->
          (totalScore three_env b <? totalScore three_env s)%float = true).
Proof.
  refine (proj2 (proj2 (proj2 (proj2 (proj2
    (SelectBestServer_lowest_score three_env three _))))) _ _).
  - discriminate.
  - vm_compute. discriminate.
  - vm_compute. repeat constructor.
Defined.

(** With the API down and debug mode off, the fallback address. *)
Lemma GetOptimalServer_fallback_witness :
  GetOptimalServer false down_env "https://vyx.network" "us.vyx.network:8443"
  = "us.vyx.network:8443"%string.
Proof.
  refine (proj1 (proj2 (GetOptimalServer_fallback false down_env
                          "https://vyx.network" "us.vyx.network:8443")
                   eq_refl) _ _).
  reflexivity.
Defined.

(** C4 as stated fails in debug mode: discovery would fail, and the address
    returned is not the fallback. *)
Lemma GetOptimalServer_debug_not_fallback :
  DiscoverServers down_env "https://vyx.network"
  = inl "failed to fetch server list: connection refused"%string
  /\ GetOptimalServer true down_env "https://vyx.network" "us.vyx.network:8443"
     = "127.0.0.1:8443"%string
  /\ GetOptimalServer true down_env "https://vyx.network" "us.vyx.network:8443"
     <> "us.vyx.network:8443"%string.
Proof. repeat split; try reflexivity. discriminate. Qed.

End DirectoryExamples.

(** * Further properties *)

(** ** Binary frames: what the reader accepts *)

Module FrameInverse.
Import Frame FrameFacts.

Lemma byte_of_Z_mod (z : Z) : byte_of_Z (z mod 256) = byte_of_Z z.
Proof. unfold byte_of_Z. now rewrite Z.mod_mod by lia. Qed.

Lemma get_uint16_range (b0 b1 : byte) : 0 <= get_uint16 b0 b1 < 65536.
Proof.
  unfold get_uint16.
  pose proof (Z_of_byte_range b0). pose proof (Z_of_byte_range b1). lia.
Qed.

Lemma get_uint32_range (b0 b1 b2 b3 : byte) :
  0 <= get_uint32 b0 b1 b2 b3 < 4294967296.
Proof.
  unfold get_uint32.
  pose proof (Z_of_byte_range b0). pose proof (Z_of_byte_range b1).
  pose proof (Z_of_byte_range b2). pose proof (Z_of_byte_range b3). lia.
Qed.

(** Writing the number two bytes stand for gives the two bytes back. *)
Lemma put_get_uint16 (b0 b1 : byte) :
  put_uint16 (get_uint16 b0 b1) = [b0; b1].
Proof.
  unfold put_uint16, get_uint16.
  pose proof (Z_of_byte_range b0) as H0. pose proof (Z_of_byte_range b1) as H1.
  assert (Hq : (Z_of_byte b0 * 256 + Z_of_byte b1) / 256 = Z_of_byte b0).
  { rewrite Z.div_add_l, Z.div_small by lia. lia. }
  assert (Hr : (Z_of_byte b0 * 256 + Z_of_byte b1) mod 256 = Z_of_byte b1).
  { rewrite Z.add_comm, Z.mod_add, Z.mod_small by lia. reflexivity. }
  rewrite Hq, <- (byte_of_Z_mod (_ + _)), Hr, !byte_of_Z_of_byte. reflexivity.
Qed.

Lemma put_get_uint32 (b0 b1 b2 b3 : byte) :
  put_uint32 (get_uint32 b0 b1 b2 b3) = [b0; b1; b2; b3].
Proof.
  unfold put_uint32, get_uint32.
  pose proof (Z_of_byte_range b0) as H0. pose proof (Z_of_byte_range b1) as H1.
  pose proof (Z_of_byte_range b2) as H2. pose proof (Z_of_byte_range b3) as H3.
  set (v := Z_of_byte b0 * 16777216 + Z_of_byte b1 * 65536
            + Z_of_byte b2 * 256 + Z_of_byte b3).
  assert (E3 : v = (Z_of_byte b0 * 65536 + Z_of_byte b1 * 256 + Z_of_byte b2)
                   * 256 + Z_of_byte b3) by (unfold v; lia).
  assert (Q3 : v / 256
               = Z_of_byte b0 * 65536 + Z_of_byte b1 * 256 + Z_of_byte b2).
  { rewrite E3, Z.div_add_l, Z.div_small by lia. lia. }
  assert (R3 : v mod 256 = Z_of_byte b3).
  { rewrite E3, Z.add_comm, Z.mod_add, Z.mod_small by lia. reflexivity. }
  assert (E2 : v = (Z_of_byte b0 * 256 + Z_of_byte b1) * 65536
                   + (Z_of_byte b2 * 256 + Z_of_byte b3)) by (unfold v; lia).
  assert (Q2 : v / 65536 = Z_of_byte b0 * 256 + Z_of_byte b1).
  { rewrite E2, Z.div_add_l, Z.div_small by lia. lia. }
  assert (E1 : v = Z_of_byte b0 * 16777216
                   + (Z_of_byte b1 * 65536 + Z_of_byte b2 * 256 + Z_of_byte b3))
    by (unfold v; lia).
  assert (Q1 : v / 16777216 = Z_of_byte b0).
  { rewrite E1, Z.div_add_l, Z.div_small by lia. lia. }
  assert (R2 : (v / 256) mod 256 = Z_of_byte b2).
  { rewrite Q3.
    replace (Z_of_byte b0 * 65536 + Z_of_byte b1 * 256 + Z_of_byte b2)
      with (Z_of_byte b2 + (Z_of_byte b0 * 256 + Z_of_byte b1) * 256) by lia.
    rewrite Z.mod_add, Z.mod_small by lia. reflexivity. }
  assert (R1 : (v / 65536) mod 256 = Z_of_byte b1).
  { rewrite Q2, Z.add_comm, Z.mod_add, Z.mod_small by lia. reflexivity. }
  rewrite Q1, <- (byte_of_Z_mod (v / 65536)), R1,
    <- (byte_of_Z_mod (v / 256)), R2, <- (byte_of_Z_mod v), R3,
    !byte_of_Z_of_byte.
  reflexivity.
Qed.

Lemma length_string_of_list_byte (l : list byte) :
  String.length (string_of_list_byte l) = List.length l.
Proof.
  now rewrite <- length_list_byte_of_string, list_byte_of_string_of_list_byte.
Qed.

Lemma ReadFull_inv (ctx : string) (n : nat) (r p rest : list byte) :
  ReadFull ctx n r = inr (p, rest) -> r = p ++ rest /\ List.length p = n.
Proof.
  unfold ReadFull. destruct (n <=? List.length r)%nat eqn:E.
  - intros [= <- <-]. apply Nat.leb_le in E. split.
    + symmetry. apply take_drop.
    + rewrite length_take. lia.
  - destruct r; discriminate.
Qed.

Lemma read_uint8_inv (ctx : string) (r rest : list byte) (b : byte) :
  read_uint8 ctx r = inr (b, rest) -> r = b :: rest.
Proof.
  unfold read_uint8, mbind, rm_bind, rbind.
  destruct (ReadFull ctx 1 r) as [e | [p r']] eqn:E; [discriminate |].
  apply ReadFull_inv in E as [-> Hl].
  destruct p as [| b0 [| b1 p]]; try discriminate.
  intros [= <- <-]. reflexivity.
Qed.

Lemma read_uint16_inv (ctx : string) (r rest : list byte) (v : Z) :
  read_uint16 ctx r = inr (v, rest) ->
  r = put_uint16 v ++ rest /\ 0 <= v < 65536.
Proof.
  unfold read_uint16, mbind, rm_bind, rbind.
  destruct (ReadFull ctx 2 r) as [e | [p r']] eqn:E; [discriminate |].
  apply ReadFull_inv in E as [-> Hl].
  destruct p as [| b0 [| b1 [| b2 p]]]; try discriminate.
  intros [= <- <-]. rewrite put_get_uint16. split; [reflexivity |].
  apply get_uint16_range.
Qed.

Lemma read_uint32_inv (ctx : string) (r rest : list byte) (v : Z) :
  read_uint32 ctx r = inr (v, rest) ->
  r = put_uint32 v ++ rest /\ 0 <= v < 4294967296.
Proof.
  unfold read_uint32, mbind, rm_bind, rbind.
  destruct (ReadFull ctx 4 r) as [e | [p r']] eqn:E; [discriminate |].
  apply ReadFull_inv in E as [-> Hl].
  destruct p as [| b0 [| b1 [| b2 [| b3 [| b4 p]]]]]; try discriminate.
  intros [= <- <-]. rewrite put_get_uint32. split; [reflexivity |].
  apply get_uint32_range.
Qed.

(** A length-prefixed string field, read back. *)
Lemma read_string_field_inv (ctx : string) (v : Z) (r rest : list byte)
    (s : string) :
  0 <= v ->
  (if 0 <? v
   then idBytes ← ReadFull ctx (Z.to_nat v); rret (string_of_list_byte idBytes)
   else rret EmptyString) r = inr (s, rest) ->
  len_string s = v
  /\ r = (if 0 <? v then list_byte_of_string s else []) ++ rest.
Proof.
  intros Hv. destruct (0 <? v) eqn:E.
  - unfold mbind, rm_bind, rbind.
    destruct (ReadFull ctx (Z.to_nat v) r) as [e | [p r']] eqn:Er;
      [discriminate |].
    apply ReadFull_inv in Er as [-> Hl]. intros [= <- <-].
    unfold len_string.
    rewrite length_string_of_list_byte, list_byte_of_string_of_list_byte.
    split; [lia | reflexivity].
  - apply Z.ltb_ge in E. unfold rret. intros [= <- <-].
    unfold len_string. cbn [String.length]. split; [lia | reflexivity].
Qed.

Lemma read_bytes_field_inv (ctx : string) (v : Z) (r rest d : list byte) :
  0 <= v ->
  (if 0 <? v then ReadFull ctx (Z.to_nat v) else rret []) r = inr (d, rest) ->
  len_bytes d = v /\ r = (if 0 <? v then d else []) ++ rest.
Proof.
  intros Hv. destruct (0 <? v) eqn:E.
  - intros Er. apply ReadFull_inv in Er as [-> Hl]. unfold len_bytes.
    split; [lia | reflexivity].
  - apply Z.ltb_ge in E. unfold rret. intros [= <- <-].
    unfold len_bytes. cbn [List.length]. split; [lia | reflexivity].
Qed.

(** What [ReadBinaryMessage] accepts: the layout of the frame it returns,
    with fields no longer than their length prefix can tell. *)
Lemma ReadBinaryMessage_inv (r rest : list byte) (m : BinaryMessage) :
  ReadBinaryMessage r = inr (m, rest) ->
  r = frame_bytes m ++ rest
  /\ len_string (ID m) <= 65535
  /\ len_string (Addr m) <= 65535
  /\ len_bytes (Data m) <= 4294967295.
Proof.
  unfold ReadBinaryMessage, mbind, rm_bind. unfold rbind at 1.
  destruct (read_uint8 _ r) as [e | [ty r1]] eqn:E1; [discriminate |].
  apply read_uint8_inv in E1 as ->. unfold rbind at 1.
  destruct (read_uint16 _ r1) as [e | [idLen r2]] eqn:E2; [discriminate |].
  apply read_uint16_inv in E2 as [-> HidLen]. unfold rbind at 1.
  match goal with
  | |- context [match ?f r2 with inl _ => _ | inr _ => _ end] =>
      destruct (f r2) as [e | [id r3]] eqn:E3
  end; [discriminate |].
  apply (read_string_field_inv "failed to read ID" idLen r2 r3 id) in E3
    as [Hid ->]; [| lia].
  unfold rbind at 1.
  destruct (read_uint16 _ r3) as [e | [addrLen r4]] eqn:E4; [discriminate |].
  apply read_uint16_inv in E4 as [-> HaddrLen]. unfold rbind at 1.
  match goal with
  | |- context [match ?f r4 with inl _ => _ | inr _ => _ end] =>
      destruct (f r4) as [e | [addr r5]] eqn:E5
  end; [discriminate |].
  apply (read_string_field_inv "failed to read addr" addrLen r4 r5 addr) in E5
    as [Haddr ->]; [| lia].
  unfold rbind at 1.
  destruct (read_uint32 _ r5) as [e | [dataLen r6]] eqn:E6; [discriminate |].
  apply read_uint32_inv in E6 as [-> HdataLen]. unfold rbind at 1.
  match goal with
  | |- context [match ?f r6 with inl _ => _ | inr _ => _ end] =>
      destruct (f r6) as [e | [data r7]] eqn:E7
  end; [discriminate |].
  apply (read_bytes_field_inv "failed to read data" dataLen r6 r7 data) in E7
    as [Hdata ->]; [| lia].
  intros [= <- <-]. cbn [ID Addr Data].
  split; [| lia].
  unfold frame_bytes. cbn [Type_ ID Addr Data]. cbv zeta.
  rewrite Hid, Haddr, Hdata. unfold uint16, uint32.
  rewrite !Z.mod_small by lia. rewrite <- !app_assoc. reflexivity.
Qed.

(** X1.  Whatever [ReadBinaryMessage] accepts is the encoding of the frame
    it returns, followed by the bytes it leaves unread: no two byte
    sequences decode to the same frame and rest. *)
Theorem decoded_bytes_are_the_encoding (r rest : list byte) (m : BinaryMessage) :
  ReadBinaryMessage r = inr (m, rest) -> r = encode m ++ rest.
Proof.
  intros Hr. rewrite encode_frame_bytes. now apply ReadBinaryMessage_inv.
Qed.

Lemma decoded_bytes_are_the_encoding_witness :
  [x06; x00; x01; x61; x00; x00; x00; x00; x00; x00; xff]
  = encode (mkBinaryMessage MsgTypeClose "a" "" []) ++ [xff].
Proof.
  apply (decoded_bytes_are_the_encoding
           [x06; x00; x01; x61; x00; x00; x00; x00; x00; x00; xff] [xff]
           (mkBinaryMessage MsgTypeClose "a" "" [])).
  reflexivity.
Defined.

(** X2.  A frame that was cut short is never accepted: the reader fails on
    every proper prefix of an encoding. *)
Theorem truncated_frame_rejected (msg : BinaryMessage) (n : nat) :
  len_string (ID msg) <= 65535 ->
  len_string (Addr msg) <= 65535 ->
  len_bytes (Data msg) <= 4294967295 ->
  (n < List.length (encode msg))%nat ->
  exists e, ReadBinaryMessage (take n (encode msg)) = inl e.
Proof.
  intros Hid Haddr Hdata Hn. rewrite encode_frame_bytes in *.
  destruct (ReadBinaryMessage (take n (frame_bytes msg)))
    as [e | [m rest]] eqn:E; [eauto |].
  exfalso. apply ReadBinaryMessage_inv in E as (Hr & Hid' & Haddr' & Hdata').
  pose proof (take_drop n (frame_bytes msg)) as Hsplit.
  rewrite Hr, <- app_assoc in Hsplit.
  pose proof (ReadBinaryMessage_frame_bytes m
                (rest ++ drop n (frame_bytes msg)) Hid' Haddr' Hdata') as H1.
  pose proof (ReadBinaryMessage_frame_bytes msg [] Hid Haddr Hdata) as H2.
  rewrite app_nil_r in H2. rewrite Hsplit, H2 in H1.
  injection H1 as _ H1. symmetry in H1. apply app_eq_nil in H1 as [_ H1].
  apply (f_equal (@List.length _)) in H1. rewrite length_drop in H1.
  cbn [List.length] in H1. lia.
Qed.

Lemma truncated_frame_rejected_witness :
  exists e,
    ReadBinaryMessage
      (take 5 (encode (mkBinaryMessage MsgTypeData "s1" "" [x68; x69])))
    = inl e.
Proof.
  apply truncated_frame_rejected; vm_compute; (discriminate || lia).
Defined.

(** X3.  The writer does not refuse a field that is too long for its
    length prefix.  It reports success and writes, for each field, the
    length modulo 2^16 (2^32 for the payload) and then the whole field,
    unless that wrapped length is 0: then the field is not written at
    all.  What the reader makes of those bytes is never the frame that
    was written. *)
Theorem overlong_field_not_recovered (msg : BinaryMessage) (buf rest : list byte) :
  65535 < len_string (ID msg) \/ 65535 < len_string (Addr msg)
  \/ 4294967295 < len_bytes (Data msg) ->
  WriteBinaryMessage msg buf = (buf ++ encode msg, inr tt)
  /\ encode msg
     = [Type_ msg]
       ++ put_uint16 (len_string (ID msg) mod 65536)
       ++ (if 0 <? len_string (ID msg) mod 65536
           then list_byte_of_string (ID msg) else [])
       ++ put_uint16 (len_string (Addr msg) mod 65536)
       ++ (if 0 <? len_string (Addr msg) mod 65536
           then list_byte_of_string (Addr msg) else [])
       ++ put_uint32 (len_bytes (Data msg) mod 4294967296)
       ++ (if 0 <? len_bytes (Data msg) mod 4294967296
           then Data msg else [])
  /\ forall m r, ReadBinaryMessage (encode msg ++ rest) = inr (m, r) -> m <> msg.
Proof.
  intros Hlong. split; [| split].
  - rewrite WriteBinaryMessage_buffer, encode_frame_bytes. reflexivity.
  - rewrite encode_frame_bytes. reflexivity.
  - intros m r Hr ->. apply ReadBinaryMessage_inv in Hr. lia.
Qed.

End FrameInverse.

(** ** Binary frames: writers that fail, and the text form *)

Module FrameEdges.
Import Frame FrameFacts FrameInverse Cases.

Lemma overlong_field_not_recovered_witness :
  let msg := mkBinaryMessage MsgTypeConnect long_id "h:80" [] in
  65535 < len_string (ID msg)
  /\ WriteBinaryMessage msg [] = ([] ++ encode msg, inr tt)
  /\ encode msg
     = [x03; x00; x00; x00; x04; x68; x3a; x38; x30; x00; x00; x00; x00].
Proof.
  intros msg.
  assert (Hlen : len_string (ID msg) = 65536).
  { unfold msg, long_id, len_string. cbn [ID].
    now rewrite length_string_of_list_byte, repeat_length. }
  assert (Hlong : 65535 < len_string (ID msg)) by (rewrite Hlen; lia).
  destruct (overlong_field_not_recovered msg [] [] (or_introl Hlong))
    as (Hw & He & _).
  split; [exact Hlong |]. split; [exact Hw |].
  rewrite He, Hlen. reflexivity.
Defined.

Section AnyWriter.
Context {W : Type} `{Writer W}.

(** [WriteBinaryMessage] is its writes, made in order. *)
Lemma WriteBinaryMessage_writes (msg : BinaryMessage) (w : W) :
  WriteBinaryMessage msg w = write_each (frame_writes msg) w.
Proof.
  unfold WriteBinaryMessage, frame_writes, mbind, wm_bind. cbv zeta.
  destruct (0 <? uint16 (len_string (ID msg)));
    destruct (0 <? uint16 (len_string (Addr msg)));
    destruct (0 <? uint32 (len_bytes (Data msg)));
    cbn [app write_each]; unfold wbind, wret;
    repeat match goal with
           | |- context [wtry ?c ?p ?w] =>
               destruct (wtry c p w) as [? [? | []]]; try reflexivity
           end.
Qed.

End AnyWriter.

Lemma frame_writes_concat (msg : BinaryMessage) :
  concat (List.map snd (frame_writes msg)) = frame_bytes msg.
Proof.
  unfold frame_writes, frame_bytes. cbv zeta.
  destruct (0 <? uint16 (len_string (ID msg)));
    destruct (0 <? uint16 (len_string (Addr msg)));
    destruct (0 <? uint32 (len_bytes (Data msg)));
    cbn [app List.map snd concat]; rewrite ?app_nil_r, <- ?app_assoc;
    reflexivity.
Qed.

Lemma wtry_limited (ctx : string) (p : list byte) (n : nat) (buf : list byte) :
  wtry ctx p (Limited n buf)
  = if (List.length p <=? n)%nat
    then (Limited (n - List.length p) (buf ++ p), inr tt)
    else (Limited 0 (buf ++ take n p), inl (Errorf ctx ErrShortWrite)).
Proof.
  unfold wtry, write, limited_writer. cbn [lim_room lim_buf].
  destruct (List.length p <=? n)%nat; reflexivity.
Qed.

(** Writes into a writer that takes [n] more bytes: they succeed when they
    fit, and in any case the writer has taken the first [n] bytes. *)
Lemma write_each_limited (ws : list (string * list byte)) (n : nat)
    (buf : list byte) :
  let all := concat (List.map snd ws) in
  let res := write_each ws (Limited n buf) in
  lim_buf (fst res) = buf ++ take n all
  /\ ((List.length all <= n)%nat ->
      res = (Limited (n - List.length all) (buf ++ all), inr tt))
  /\ ((n < List.length all)%nat ->
      exists ctx, snd res = inl (Errorf ctx ErrShortWrite)
                  /\ In ctx (List.map fst ws)).
Proof.
  revert n buf. induction ws as [| [ctx p] ws IH]; intros n buf; cbv zeta.
  - cbn [write_each List.map concat List.length]. unfold wret. cbn [fst snd lim_buf].
    rewrite take_nil, Nat.sub_0_r, app_nil_r.
    split; [reflexivity |]. split; [reflexivity | lia].
  - cbn [write_each List.map snd concat]. unfold wbind.
    rewrite wtry_limited, length_app.
    destruct (List.length p <=? n)%nat eqn:E.
    + apply Nat.leb_le in E.
      destruct (IH (n - List.length p)%nat (buf ++ p)) as (Hb & Hok & Herr).
      cbv zeta in Hb, Hok, Herr.
      split.
      { rewrite Hb, <- app_assoc. f_equal.
        rewrite take_app_ge by lia. reflexivity. }
      split.
      { intros Hfit. rewrite Hok by lia. rewrite <- app_assoc.
        replace (n - List.length p - List.length (concat (List.map snd ws)))%nat
          with (n - (List.length p + List.length (concat (List.map snd ws))))%nat
          by lia.
        reflexivity. }
      intros Hlong. destruct Herr as (c & Hc & Hin); [lia |].
      exists c. split; [exact Hc |]. cbn [List.map fst In]. now right.
    + apply Nat.leb_gt in E. cbn [fst snd lim_buf].
      split.
      { f_equal. rewrite take_app_le by lia. reflexivity. }
      split; [lia |].
      intros _. exists ctx. split; [reflexivity |]. cbn [List.map fst In].
      now left.
Qed.

(** X4.  Into a writer that takes [n] more bytes, [WriteBinaryMessage]
    succeeds exactly when the whole frame fits; it then has written the
    frame and nothing else.  When the frame does not fit it reports a
    short write, never success, and the writer holds the first [n] bytes
    of the frame. *)
Theorem WriteBinaryMessage_limited (msg : BinaryMessage) (n : nat)
    (buf : list byte) :
  let res := WriteBinaryMessage msg (Limited n buf) in
  lim_buf (fst res) = buf ++ take n (encode msg)
  /\ ((List.length (encode msg) <= n)%nat ->
      res = (Limited (n - List.length (encode msg)) (buf ++ encode msg),
             inr tt))
  /\ ((n < List.length (encode msg))%nat ->
      exists ctx, snd res = inl (Errorf ctx ErrShortWrite)).
Proof.
  cbv zeta. rewrite WriteBinaryMessage_writes, encode_frame_bytes.
  rewrite <- frame_writes_concat.
  destruct (write_each_limited (frame_writes msg) n buf) as (Hb & Hok & Herr).
  cbv zeta in Hb, Hok, Herr. split; [exact Hb |]. split; [exact Hok |].
  intros Hlong. destruct (Herr Hlong) as (ctx & Hc & _). eauto.
Qed.

Lemma WriteBinaryMessage_limited_witness :
  exists ctx,
    snd (WriteBinaryMessage (mkBinaryMessage MsgTypeData "s1" "" [x68; x69])
           (Limited 8 []))
    = inl (Errorf ctx ErrShortWrite).
Proof.
  refine (proj2 (proj2 (WriteBinaryMessage_limited
                          (mkBinaryMessage MsgTypeData "s1" "" [x68; x69])
                          8 [])) _).
  vm_compute. lia.
Defined.

(** X5.  From the binary form to the text form and back, for the eleven
    type codes: type, id and addr come back; the payload comes back for
    DATA and is dropped for every other code. *)
Theorem binary_message_roundtrip (bm : BinaryMessage) :
  Z_of_byte (Type_ bm) <= 10 ->
  MessageToBinary (BinaryToMessage bm)
  = mkBinaryMessage (Type_ bm) (ID bm) (Addr bm)
      (if Z_of_byte (Type_ bm) =? 5 then Data bm else []).
Proof.
  destruct bm as [ty id addr data]. cbn [Type_ ID Addr Data]. intros Hty.
  destruct ty; try (exfalso; vm_compute in Hty; congruence);
    unfold BinaryToMessage, MessageToBinary;
    cbn -[list_byte_of_string string_of_list_byte];
    rewrite ?list_byte_of_string_of_list_byte; reflexivity.
Qed.

Lemma binary_message_roundtrip_witness :
  MessageToBinary (BinaryToMessage (mkBinaryMessage MsgTypeError "" "" [x6e; x6f]))
  = mkBinaryMessage MsgTypeError "" "" [].
Proof.
  apply (binary_message_roundtrip (mkBinaryMessage MsgTypeError "" "" [x6e; x6f])).
  vm_compute. discriminate.
Defined.

Lemma eqb_not_known (ty : string) :
  ~ In ty Msg.known_types ->
  Forall (fun k => String.eqb ty k = false) Msg.known_types.
Proof.
  intros Hn. apply Forall_forall. intros k Hk. apply String.eqb_neq.
  intros ->. apply Hn. now apply list_elem_of_In.
Qed.

(** X6.  A type the conversions do not know is not kept.  A text message
    with an unknown type name becomes a frame of code 0 with no payload,
    and so comes back as an "auth" message; a frame with a code above 10
    becomes a message with an empty type name. *)
Theorem unknown_type_not_kept (m : Msg.Message) (bm : BinaryMessage) :
  (~ In (Msg.Type_ m) Msg.known_types ->
   MessageToBinary m = mkBinaryMessage MsgTypeAuth (Msg.ID m) (Msg.Addr m) []
   /\ BinaryToMessage (MessageToBinary m)
      = Msg.mkMessage "auth" (Msg.ID m) (Msg.Addr m) "")
  /\ (10 < Z_of_byte (Type_ bm) ->
      Msg.Type_ (BinaryToMessage bm) = EmptyString).
Proof.
  split.
  - intros Hn. apply eqb_not_known in Hn. unfold Msg.known_types in Hn.
    repeat match goal with
           | H : Forall _ (_ :: _) |- _ =>
               apply Forall_cons in H; destruct H as [? H]
           end.
    assert (Hm : MessageToBinary m
                 = mkBinaryMessage MsgTypeAuth (Msg.ID m) (Msg.Addr m) []).
    { unfold MessageToBinary. cbv zeta.
      repeat match goal with
             | H : String.eqb _ _ = false |- _ => rewrite H; clear H
             end.
      reflexivity. }
    split; [exact Hm |]. rewrite Hm. reflexivity.
  - intros Hty. unfold BinaryToMessage. cbn [Msg.Type_].
    pose proof (Z_of_byte_range (Type_ bm)) as Hr.
    destruct (Z_of_byte (Type_ bm)) as [| p | p]; try lia.
    do 4 (destruct p as [p | p |]; try reflexivity; try lia).
Qed.

Lemma unknown_type_not_kept_witness :
  BinaryToMessage (MessageToBinary (Msg.mkMessage "hello" "i" "a" "d"))
  = Msg.mkMessage "auth" "i" "a" "".
Proof.
  refine (proj2 (proj1 (unknown_type_not_kept (Msg.mkMessage "hello" "i" "a" "d")
                          (mkBinaryMessage x00 "" "" [])) _)).
  unfold Msg.known_types. cbn [Msg.Type_ In].
  intros H. repeat (destruct H as [H | H]; [discriminate |]). exact H.
Defined.

End FrameEdges.

(** ** Dialing: what is tried, and what comes back *)

Module DialEdges.
Import Net Dial.

Section WithNetLib.
Context `{NetLib}.

(** X7.  A call of [dialWithDNSFallback] dials at most twice and looks a
    host up at most once: the first event is the dial of the address, a
    lookup is only ever made with the resolver at 8.8.8.8:53, and every
    dial is a TCP dial with the 5 s dialer under the 10 s deadline. *)
Theorem dial_attempts_bounded (env : NetEnv) (address : string) :
  let tr := snd (dialWithDNSFallback env address) in
  let is_dial e := match e with EvDial _ _ _ _ => true | _ => false end in
  let is_lookup e := match e with EvLookup _ _ _ => true | _ => false end in
  (List.length (List.filter is_dial tr) <= 2)%nat
  /\ (List.length (List.filter is_lookup tr) <= 1)%nat
  /\ (forall d ctx network a, In (EvDial d ctx network a) tr ->
      d = mkDialer (5 * second) /\ ctx = 10 * second /\ network = "tcp"%string)
  /\ (forall r ctx host, In (EvLookup r ctx host) tr ->
      r = custom_resolver /\ ctx = 10 * second)
  /\ (fst (dialWithDNSFallback env address)
      = DialContext env (mkDialer (5 * second)) (10 * second) "tcp" address
      \/ In (EvLog fallback_line) tr).
Proof.
  cbv zeta. unfold dialWithDNSFallback.
  destruct (DialContext env _ _ "tcp" address) as [err | c] eqn:E1;
    [destruct (resolution_failed err);
     [destruct (SplitHostPort address) as [e | [host port]];
      [| destruct (LookupHost env custom_resolver (10 * second) host)
           as [e | [| ip0 ips]]] |] |];
    cbn [fst snd app List.filter List.length];
    (split; [lia |]); (split; [lia |]);
    (split; [intros d ctx network a Hin; cbn [In] in Hin;
             repeat (destruct Hin as [Hin | Hin]; try discriminate);
             try contradiction; injection Hin as <- <- <- <-; auto |]);
    (split; [intros r ctx host' Hin; cbn [In] in Hin;
             repeat (destruct Hin as [Hin | Hin]; try discriminate);
             try contradiction; injection Hin as <- <- <-; auto |]);
    try (left; reflexivity); right; cbn [In]; tauto.
Qed.

(** X8.  A connection that [dialWithDNSFallback] returns is open, nothing
    was written to it, and it goes to the address asked for or, after a
    resolution failure, to the first address the resolver at 8.8.8.8:53
    gave for the host, with the port of the address asked for. *)
Theorem dial_result_destination (env : NetEnv) (address : string) (c : Socket) :
  fst (dialWithDNSFallback env address) = inr c ->
  sock_closed c = false
  /\ sock_written c = []
  /\ (remote c = address
      \/ exists err host port ip0 ips,
           DialContext env (mkDialer (5 * second)) (10 * second) "tcp" address
           = inl err
           /\ resolution_failed err = true
           /\ SplitHostPort address = inr (host, port)
           /\ LookupHost env custom_resolver (10 * second) host
              = inr (ip0 :: ips)
           /\ remote c = JoinHostPort ip0 port).
Proof.
  assert (D : forall a, DialContext env (mkDialer (5 * second)) (10 * second)
                          "tcp" a = inr c ->
                        sock_closed c = false /\ sock_written c = []
                        /\ remote c = a).
  { intros a. unfold DialContext.
    destruct (dial_error env _ _ _ a); [discriminate |].
    intros [= <-]. repeat split. }
  unfold dialWithDNSFallback.
  destruct (DialContext env _ _ "tcp" address) as [err | c0] eqn:E1.
  - destruct (resolution_failed err) eqn:Er; [| discriminate].
    destruct (SplitHostPort address) as [e | [host port]] eqn:Es;
      [discriminate |].
    destruct (LookupHost env custom_resolver (10 * second) host)
      as [e | [| ip0 ips]] eqn:El; cbn [fst]; try discriminate.
    intros Hd. destruct (D _ Hd) as (Ho & Hw & Hr).
    split; [exact Ho |]. split; [exact Hw |]. right.
    exists err, host, port, ip0, ips. repeat split; assumption.
  - cbn [fst]. intros [= ->]. destruct (D _ E1) as (Ho & Hw & Hr).
    repeat split; try assumption. now left.
Qed.

End WithNetLib.

Lemma dial_result_destination_witness :
  let H := plain_netlib in
  let c := mkSocket "192.0.2.9:80" false [] None in
  fst (dialWithDNSFallback s2_env "unreachable.invalid:80") = inr c
  /\ sock_closed c = false
  /\ sock_written c = [].
Proof.
  intros H c.
  assert (Hc : fst (dialWithDNSFallback s2_env "unreachable.invalid:80") = inr c)
    by (vm_compute; reflexivity).
  split; [exact Hc |].
  destruct (@dial_result_destination H s2_env "unreachable.invalid:80" c Hc)
    as (Hopen & Hnew & _).
  split; [exact Hopen | exact Hnew].
Defined.

End DialEdges.

(** ** Reconnect backoff: shape of the schedule *)

Module BackoffEdges.
Import Backoff.

(** X9.  The retry delay is never negative and never more than five
    minutes, whatever the attempt and the flags; and with both flags off a
    later attempt never waits less than an earlier one. *)
Theorem getRetryDelay_bounded_monotone (a b : Z) (authFailed notLoggedIn : bool) :
  0 <= getRetryDelay a authFailed notLoggedIn <= 5 * Minute
  /\ (1 <= a -> a <= b ->
      getRetryDelay a false false <= getRetryDelay b false false).
Proof.
  unfold getRetryDelay, Minute, Second. split.
  - destruct notLoggedIn, authFailed;
      repeat match goal with
             | |- context [?x =? ?y] => destruct (Z.eqb_spec x y)
             | |- context [?x <=? ?y] => destruct (Z.leb_spec x y)
             end; lia.
  - intros Ha Hab.
    repeat match goal with
           | |- context [?x =? ?y] => destruct (Z.eqb_spec x y)
           | |- context [?x <=? ?y] => destruct (Z.leb_spec x y)
           end; lia.
Qed.

Lemma getRetryDelay_bounded_monotone_witness :
  getRetryDelay 4 false false <= getRetryDelay 9 false false.
Proof.
  refine (proj2 (getRetryDelay_bounded_monotone 4 9 false false) _ _); lia.
Defined.

End BackoffEdges.

(** ** Server selection: what is never selected *)

Module DirectoryEdges.
Import Net Dial Directory DirectoryFacts Scenarios.

Section WithNetLib.
Context `{NetLib}.

Lemma healthy_set_healthy (servers : list ServerInfo) (s h : ServerInfo) :
  h ∈ servers -> is_healthy h = true ->
  s ∈ healthy_set servers -> is_healthy s = true.
Proof.
  intros Hh Hhh. unfold healthy_set.
  destruct (List.filter is_healthy servers) as [| f fs] eqn:E.
  - exfalso. assert (Hin : In h (List.filter is_healthy servers)).
    { apply List.filter_In. split; [now apply list_elem_of_In | exact Hhh]. }
    rewrite E in Hin. destruct Hin.
  - rewrite <- E. intros Hs. apply list_elem_of_In, List.filter_In in Hs. tauto.
Qed.

(** X10.  For a non-empty candidate list [SelectBestServer] returns the
    address of a candidate of the healthy set.  So it never returns a
    server that is not healthy when some candidate is healthy, and never
    a server above 90% utilization when some candidate of the healthy set
    is not above it. *)
Theorem SelectBestServer_never_worse (env : DirEnv) (servers : list ServerInfo) :
  servers <> [] ->
  exists s,
    s ∈ healthy_set servers
    /\ fst (SelectBestServer env servers) = inr (Address s)
    /\ ((exists h, h ∈ servers /\ is_healthy h = true) -> is_healthy s = true)
    /\ ((exists k, k ∈ healthy_set servers /\ overloaded k = false) ->
        overloaded s = false).
Proof.
  intros Hne.
  assert (Hhealthy : forall s, s ∈ healthy_set servers ->
            (exists h, h ∈ servers /\ is_healthy h = true) -> is_healthy s = true).
  { intros s Hs (h & Hh & Hhh). eapply healthy_set_healthy; eassumption. }
  unfold SelectBestServer.
  pose proof (healthy_set_nonempty servers Hne) as Hh.
  destruct servers as [| s0 ss]; [congruence |].
  set (healthy := healthy_set (s0 :: ss)) in *.
  set (kept := List.filter (fun s => negb (overloaded s)) healthy).
  assert (Hkept : forall s, s ∈ kept -> s ∈ healthy /\ overloaded s = false).
  { intros s Hs. apply list_elem_of_In, List.filter_In in Hs as [Hs Ho].
    split; [now apply list_elem_of_In | now apply negb_true_iff in Ho]. }
  assert (Hnone : kept = [] -> forall k, k ∈ healthy -> overloaded k = true).
  { intros Hk k Hin. destruct (overloaded k) eqn:Eo; [reflexivity |].
    assert (Hin' : In k kept).
    { apply List.filter_In. split; [now apply list_elem_of_In | now rewrite Eo]. }
    rewrite Hk in Hin'. destruct Hin'. }
  destruct healthy as [| h0 [| h1 hs]] eqn:Eh; [congruence | |].
  - exists h0. split; [left |]. split; [reflexivity |].
    split; [apply Hhealthy; left |].
    intros (k & Hk & Ho). apply list_elem_of_singleton in Hk as ->. exact Ho.
  - fold kept. destruct kept as [| k0 ks] eqn:Ek; cbn [List.map fst].
    + exists (lowest utilization h0 (h1 :: hs)).
      split; [apply lowest_elem |]. split; [reflexivity |].
      split; [apply Hhealthy, lowest_elem |].
      intros (k & Hk & Ho). rewrite (Hnone eq_refl k Hk) in Ho. discriminate.
    + rewrite (lowest_map
                 (fun s => mkServerScore s (TestLatency env (Address s))
                                         (totalScore env s)) score k0 ks).
      cbn [server].
      destruct (Hkept (lowest (fun a => totalScore env a) k0 ks)
                  (lowest_elem _ k0 ks)) as [Hin Ho].
      exists (lowest (fun a => totalScore env a) k0 ks).
      split; [exact Hin |]. split; [reflexivity |].
      split; [now apply Hhealthy | intros _; exact Ho].
Qed.

End WithNetLib.

Lemma SelectBestServer_never_worse_witness :
  let H := plain_netlib in
  exists s, s ∈ healthy_set three
            /\ fst (SelectBestServer three_env three) = inr (Address s).
Proof.
  intros H.
  destruct (@SelectBestServer_never_worse H three_env three ltac:(discriminate))
    as (s & Hs & Hr & _).
  exists s. split; assumption.
Defined.

End DirectoryEdges.

(** ** The frames of the relay engine *)

Module WireFacts.
Import Msg Net Dial Conn ConnFacts CloseFacts Wire.

Lemma delivered_stream (w : option goerror) (st : State) :
  quicStream st = None -> delivered w st = false.
Proof. unfold delivered. now intros ->. Qed.

Lemma adds_nothing (st st' : State) :
  sent st' = sent st -> quicStream st' = quicStream st -> adds st st' [].
Proof.
  intros Hs Hq. unfold adds. rewrite Hs, app_nil_r. repeat split; auto.
Qed.

Lemma adds_trans (st st1 st2 : State) (a b : list Message) :
  adds st st1 a -> adds st1 st2 b -> adds st st2 (a ++ b).
Proof.
  intros (Hs1 & Hq1 & Hn1 & Hf1) (Hs2 & Hq2 & Hn2 & Hf2). unfold adds.
  rewrite Hs2, Hs1, <- app_assoc, Hq2, Hq1, forallb_app, Hf1, Hf2.
  repeat split; try reflexivity.
  intros Hn. rewrite (Hn1 Hn), Hn2; [reflexivity | congruence].
Qed.

Lemma adds_sendMessage (w : option goerror) (m : Message) (st : State) :
  relay_frame m = true ->
  adds st (fst (sendMessage w m st)) (if delivered w st then [m] else []).
Proof.
  intros Hm. unfold adds.
  rewrite sendMessage_sent, sendMessage_quicStream.
  repeat split; try reflexivity.
  - intros Hn. now rewrite delivered_stream.
  - destruct (delivered w st); cbn [forallb]; [now rewrite Hm | reflexivity].
Qed.

Lemma adds_sendCloseMessage (w : option goerror) (id : string) (st : State) :
  adds st (sendCloseMessage w id st)
       (if delivered w st then [closeMsg id] else []).
Proof.
  unfold adds. rewrite sendCloseMessage_sent, sendCloseMessage_quicStream.
  repeat split; try reflexivity.
  - intros Hn. now rewrite delivered_stream.
  - destruct (delivered w st); reflexivity.
Qed.

Lemma adds_log (line : string) (st st' : State) (app : list Message) :
  adds st st' app -> adds st (log line st') app.
Proof. intros H. exact H. Qed.

Section WithLibraries.
Context `{NetLib} `{Base64}.

(** The frames of [handleConnect]: CONNECTED(id) first if any, and relay
    tasks only after a CONNECTED(id). *)
Lemma handleConnect_frames (o : Oracle) (msg : Message) (st : State) :
  exists app,
    adds st (fst (handleConnect o msg st)) app
    /\ forallb (fun m => negb (String.eqb (Type_ m) "data")) app = true
    /\ (snd (handleConnect o msg st) = []
        \/ (exists l, snd (handleConnect o msg st) = relay_tasks l (ID msg))
           /\ has_connected (ID msg) app = true).
Proof.
  destruct (fst (dialWithDNSFallback (o_net o) (Addr msg))) as [err | c] eqn:E.
  - rewrite (handleConnect_dial_failed o msg st err E). cbn [fst snd].
    eexists. split; [| split; [| now left]].
    + pose proof (adds_sendCloseMessage (o_close_write o) (ID msg)
                    (log ("Failed to establish connection: " +:+ err)
                       (set_logs (logs st ++ log_lines
                          (snd (dialWithDNSFallback (o_net o) (Addr msg)))) st)))
        as Ha.
      exact Ha.
    + rewrite delivered_log. destruct (delivered _ _); reflexivity.
  - pose proof (handleConnect_dial_ok o msg st c E) as Hok. cbv zeta in Hok.
    destruct Hok as [Hq Hok].
    assert (Hmk : forall app,
              sent (fst (handleConnect o msg st)) = sent st ++ app ->
              (quicStream st = None -> app = []) ->
              forallb relay_frame app = true ->
              adds st (fst (handleConnect o msg st)) app).
    { intros app Hs Hn Hf. repeat split; assumption. }
    destruct (delivered (o_stream_write o) st) eqn:Ed.
    + assert (Hsome : quicStream st <> None).
      { intros Hn. rewrite delivered_stream in Ed by exact Hn. discriminate. }
      destruct (initial_write_fails o msg).
      * destruct Hok as [Hsp Hsent]. rewrite Hsp.
        exists ([mkMessage "connected" (ID msg) "" ""]
                ++ (if delivered (o_close_write o) st
                    then [closeMsg (ID msg)] else [])).
        split; [| split; [| now left]].
        -- apply Hmk; [now rewrite Hsent, <- app_assoc | tauto |].
           destruct (delivered (o_close_write o) st); reflexivity.
        -- destruct (delivered (o_close_write o) st); reflexivity.
      * destruct Hok as [Hsp Hsent]. rewrite Hsp.
        exists [mkMessage "connected" (ID msg) "" ""].
        split; [| split; [reflexivity |]].
        -- apply Hmk; [exact Hsent | tauto | reflexivity].
        -- right. split; [eauto |].
           unfold has_connected, is_connected. cbn [existsb Type_ ID].
           now rewrite !String.eqb_refl.
    + destruct Hok as (Hsp & Hsent & _). rewrite Hsp. exists [].
      split; [| split; [reflexivity | now left]].
      apply Hmk; [now rewrite app_nil_r | reflexivity | reflexivity].
Qed.

(** The frames of one step of a task.  A DATA frame is for the id of the
    relay task that wrote it; a relay task is started only after the
    CONNECTED frame of its id. *)
Lemma task_step_frames (o : Oracle) (t : Task) (st st' : State)
    (spawned : list Task) (ended : bool) :
  task_step o t st = Some (st', spawned, ended) ->
  exists app,
    adds st st' app
    /\ (forall m, In m app -> String.eqb (Type_ m) "data" = true ->
                  exists cc, t = RelayConnToQuic cc (ID m))
    /\ (forall cc id, In (RelayConnToQuic cc id) spawned ->
                      has_connected id app = true).
Proof.
  destruct t as [msg | cc id | cc id]; cbn [task_step].
  - destruct (handleConnect_frames o msg st) as (app & Ha & Hnd & Hsp).
    destruct (handleConnect o msg st) as [st1 sp]. cbn [fst snd] in *.
    intros [= <- <- <-]. exists app. split; [exact Ha |]. split.
    + intros m Hm Hd. rewrite forallb_forall in Hnd. specialize (Hnd m Hm).
      rewrite Hd in Hnd. discriminate.
    + intros cc id Hin. destruct Hsp as [-> | [[l ->] Hc]]; [destruct Hin |].
      unfold relay_tasks in Hin. cbn [In] in Hin.
      destruct Hin as [[= <- <-] | [[=] | []]]. exact Hc.
  - unfold relayFromConnToQuic_step.
    destruct (match heap st !! cc with Some _ => _ | None => _ end)
      as [e | buf].
    + intros [= <- <- <-]. eexists. split; [apply adds_sendCloseMessage |].
      split; [| intros ? ? []].
      intros m Hm Hd. frame_cases Hm. discriminate.
    + destruct (take (Z.to_nat (256 * 1024)) buf) as [| b bs].
      * intros [= <- <- <-]. exists []. split; [now apply adds_nothing |].
        split; [intros ? [] | intros ? ? []].
      * set (m := mkMessage "data" id "" (EncodeToString (b :: bs))).
        pose proof (adds_sendMessage (o_stream_write o) m st eq_refl) as Ha.
        pose proof (sendMessage_ok (o_stream_write o) m st) as Hok.
        destruct (sendMessage (o_stream_write o) m st) as [st1 [e|]];
          cbn [fst snd] in *; intros [= <- <- <-].
        -- assert (Hd : delivered (o_stream_write o) st = false).
           { destruct (delivered (o_stream_write o) st); [| reflexivity].
             destruct Hok as [_ Hok]. specialize (Hok eq_refl). discriminate. }
           rewrite Hd in Ha.
           pose proof (adds_sendCloseMessage (o_close_write o) id
                         (log ("Failed to relay data from client connection "
                               +:+ id +:+ ": " +:+ e) st1)) as Hb.
           pose proof (adds_trans _ _ _ _ _ Ha Hb) as Hab.
           eexists. split; [exact Hab |].
           split; [| intros ? ? []].
           intros m' Hm Hdata. cbn [app] in Hm.
           frame_cases Hm. discriminate.
        -- eexists. split; [exact Ha |]. split; [| intros ? ? []].
           intros m' Hm _. frame_cases Hm. exists cc. reflexivity.
  - destruct (relayFromChanToConn_step o cc id st) as [[st1 e]|] eqn:Es;
      [| discriminate].
    intros [= <- <- <-]. unfold relayFromChanToConn_step in Es.
    destruct (heap st !! cc) as [c|]; [| discriminate].
    destruct (ch_buf (dataChan c)) as [| data rest].
    + destruct (ch_closed (dataChan c)); [| discriminate].
      injection Es as <- <-. eexists. split; [apply adds_sendCloseMessage |].
      split; [| intros ? ? []].
      intros m Hm Hd. frame_cases Hm. discriminate.
    + set (st0 := set_heap _ st) in Es.
      destruct data as [| b bs].
      * injection Es as <- <-. exists []. split; [now apply adds_nothing |].
        split; [intros ? [] | intros ? ? []].
      * pose proof (conn_Write_sent (o_sock_write o) cc (b :: bs) st0)
          as [Hs Hq].
        destruct (conn_Write (o_sock_write o) cc (b :: bs) st0) as [st2 [e'|]];
          cbn [fst] in *; injection Es as <- <-.
        -- pose proof (adds_nothing st st2 Hs Hq) as Ha.
           pose proof (adds_sendCloseMessage (o_close_write o) id st2) as Hb.
           pose proof (adds_trans _ _ _ _ _ Ha Hb) as Hab.
           eexists. split; [exact Hab |].
           split; [| intros ? ? []].
           intros m Hm Hd. cbn [app] in Hm.
           frame_cases Hm. discriminate.
        -- exists []. split; [now apply adds_nothing |].
           split; [intros ? [] | intros ? ? []].
Qed.

(** The frames of one turn of the reader: a PONG at most, and no relay
    task started. *)
Lemma quicReader_step_frames (w : option goerror) (inp : ReaderInput)
    (st : State) :
  exists app,
    adds st (fst (fst (quicReader_step w inp st))) app
    /\ forallb (fun m => String.eqb (Type_ m) "pong") app = true
    /\ forall cc id,
         ~ In (RelayConnToQuic cc id) (snd (fst (quicReader_step w inp st))).
Proof.
  assert (Hnil : forall (s : State) (sp : list Task) (r : ReaderStatus),
             sent s = sent st -> quicStream s = quicStream st ->
             (forall cc id, ~ In (RelayConnToQuic cc id) sp) ->
             exists app,
               adds st (fst (fst (s, sp, r))) app
               /\ forallb (fun m => String.eqb (Type_ m) "pong") app = true
               /\ forall cc id, ~ In (RelayConnToQuic cc id) (snd (fst (s, sp, r)))).
  { intros s sp r Hs Hq Hsp. exists []. cbn [fst snd].
    split; [now apply adds_nothing | split; [reflexivity | exact Hsp]]. }
  unfold quicReader_step.
  destruct inp as [| | e | msg]; try (apply Hnil; [reflexivity.. | intros ? ? []]).
  destruct (String.eqb (Type_ msg) "connect").
  { apply Hnil; [reflexivity.. |]. intros cc id [[=] | []]. }
  destruct (String.eqb (Type_ msg) "data").
  { destruct (clientConns st !! ID msg) as [l|];
      [| apply Hnil; [reflexivity.. | intros ? ? []]].
    destruct (heap st !! l) as [cc|];
      [| apply Hnil; [reflexivity.. | intros ? ? []]].
    destruct (DecodeString (Data msg)) as [data [e|]];
      [apply Hnil; [reflexivity.. | intros ? ? []] |].
    destruct (ch_closed (dataChan cc));
      [apply Hnil; [reflexivity.. | intros ? ? []] |].
    destruct (try_send data (dataChan cc));
      apply Hnil; try reflexivity; intros ? ? []. }
  destruct (String.eqb (Type_ msg) "close").
  { destruct (clientConns st !! ID msg) as [l|];
      apply Hnil; try reflexivity; intros ? ? []. }
  destruct (String.eqb (Type_ msg) "ping").
  { set (m := mkMessage "pong" (ID msg) "" "").
    pose proof (adds_sendMessage w m st eq_refl) as Ha.
    destruct (sendMessage w m st) as [st1 [e|]]; cbn [fst snd] in *;
      (eexists; split; [exact Ha | split; [| intros ? ? []]]);
      destruct (delivered w st); reflexivity. }
  apply Hnil; try reflexivity. intros ? ? [].
Qed.

End WithLibraries.

End WireFacts.


(** ** The control stream over a whole trace *)

Module WireTrace.
Import Msg Net Dial Conn ConnFacts CloseFacts Wire WireFacts.

Lemma In_delete {A : Type} (x : A) (i : nat) (l : list A) :
  In x (delete i l) -> In x l.
Proof.
  rewrite <- !list_elem_of_In. apply list_subseteq_delete.
Qed.

Lemma has_connected_app (id : string) (l1 l2 : list Message) :
  has_connected id (l1 ++ l2) = has_connected id l1 || has_connected id l2.
Proof. apply existsb_app. Qed.

Lemma data_after_connected_fresh (seen app : list Message) :
  (forall m, In m app -> String.eqb (Type_ m) "data" = true ->
             has_connected (ID m) seen = true) ->
  data_after_connected seen app = true.
Proof.
  revert seen. induction app as [| m app IH]; intros seen Hall; [reflexivity |].
  cbn [data_after_connected]. apply andb_true_intro. split.
  - destruct (String.eqb (Type_ m) "data") eqn:Ed; [| reflexivity].
    apply Hall; [now left | exact Ed].
  - apply IH. intros m' Hm' Hd. rewrite has_connected_app.
    rewrite (Hall m' (or_intror Hm') Hd). reflexivity.
Qed.

Lemma data_after_connected_app (seen l more : list Message) :
  data_after_connected seen (l ++ more)
  = data_after_connected seen l && data_after_connected (seen ++ l) more.
Proof.
  revert seen. induction l as [| m l IH]; intros seen.
  - cbn [app data_after_connected andb]. now rewrite app_nil_r.
  - cbn [app data_after_connected]. rewrite IH, <- app_assoc, andb_assoc.
    reflexivity.
Qed.

Section WithLibraries.
Context `{NetLib} `{Base64}.

(** What one event adds to the control stream, and which relay tasks are
    live afterwards. *)
Lemma sys_step_frames (ev : Event) (S : Sys) :
  exists app,
    sent (state (sys_step ev S)) = sent (state S) ++ app
    /\ forallb relay_frame app = true
    /\ (quicStream (state S) = None -> app = [])
    /\ (no_session ev = true -> quicStream (state S) = None ->
        quicStream (state (sys_step ev S)) = None)
    /\ (forall m, In m app -> String.eqb (Type_ m) "data" = true ->
                  exists cc, In (RelayConnToQuic cc (ID m)) (tasks S))
    /\ (forall cc id, In (RelayConnToQuic cc id) (tasks (sys_step ev S)) ->
                      In (RelayConnToQuic cc id) (tasks S)
                      \/ has_connected id app = true).
Proof.
  assert (Hsame : forall st' : State,
            sent st' = sent (state S) ->
            (quicStream (state S) = None -> quicStream st' = None) ->
            exists app,
              sent st' = sent (state S) ++ app
              /\ forallb relay_frame app = true
              /\ (quicStream (state S) = None -> app = [])
              /\ (true = true -> quicStream (state S) = None ->
                  quicStream st' = None)
              /\ (forall m, In m app -> String.eqb (Type_ m) "data" = true ->
                            exists cc, In (RelayConnToQuic cc (ID m)) (tasks S))
              /\ (forall cc id, In (RelayConnToQuic cc id) (tasks S) ->
                                In (RelayConnToQuic cc id) (tasks S)
                                \/ has_connected id app = true)).
  { intros st' Hs Hq. exists []. rewrite app_nil_r.
    repeat split; auto. intros ? []. }
  destruct ev as [w inp | i o | | | c s]; cbn [sys_step no_session].
  - destruct (quicReader_step_frames w inp (state S))
      as (app & (Hs & Hq & Hn & Hf) & Hpong & Hsp).
    destruct (quicReader_step w inp (state S)) as [[st' spawned] r].
    cbn [fst snd state tasks] in *. exists app.
    split; [exact Hs |]. split; [exact Hf |]. split; [exact Hn |].
    split; [intros _ Hnone; congruence |]. split.
    + intros m Hm Hd. rewrite forallb_forall in Hpong.
      specialize (Hpong m Hm). apply String.eqb_eq in Hpong, Hd.
      rewrite Hd in Hpong. discriminate.
    + intros cc id Hin. apply in_app_or in Hin.
      destruct Hin as [Hin | Hin]; [now left | destruct (Hsp cc id Hin)].
  - destruct (tasks S !! i) as [t|] eqn:Et; [| now apply Hsame].
    destruct (task_step o t (state S)) as [[[st' spawned] ended]|] eqn:Es;
      [| now apply Hsame].
    destruct (task_step_frames o t (state S) st' spawned ended Es)
      as (app & (Hs & Hq & Hn & Hf) & Hdata & Hsp).
    cbn [state tasks]. exists app.
    split; [exact Hs |]. split; [exact Hf |]. split; [exact Hn |].
    split; [intros _ Hnone; congruence |]. split.
    + intros m Hm Hd. destruct (Hdata m Hm Hd) as [cc ->]. exists cc.
      apply list_elem_of_In. eapply list_elem_of_lookup_2. exact Et.
    + intros cc id Hin. apply in_app_or in Hin.
      destruct Hin as [Hin | Hin]; [left | right; now apply (Hsp cc)].
      destruct ended; [now apply In_delete in Hin | exact Hin].
  - apply (Hsame (DisconnectQuic (state S))); reflexivity.
  - apply (Hsame (ReconnectQuic (state S))); reflexivity.
  - exists []. cbn [state tasks sent set_quic]. rewrite app_nil_r.
    repeat split; auto; try discriminate. intros ? [].
Qed.

Lemma run_cons (ev : Event) (evs : list Event) (S : Sys) :
  run (ev :: evs) S = run evs (sys_step ev S).
Proof. reflexivity. Qed.

Lemma started_after_connected_step (ev : Event) (S : Sys) :
  started_after_connected S -> started_after_connected (sys_step ev S).
Proof.
  intros [Hd Ht].
  destruct (sys_step_frames ev S) as (a & Hs & _ & _ & _ & Hdata & Hsp).
  split.
  - rewrite Hs, data_after_connected_app, Hd. cbn [andb app].
    apply data_after_connected_fresh. intros m Hm Hty.
    destruct (Hdata m Hm Hty) as [cc Hin]. exact (Ht cc (ID m) Hin).
  - intros cc id Hin. rewrite Hs, has_connected_app.
    destruct (Hsp cc id Hin) as [Hold | Hnew].
    + now rewrite (Ht cc id Hold).
    + rewrite Hnew. apply orb_true_r.
Qed.

Lemma started_after_connected_run (evs : list Event) (S : Sys) :
  started_after_connected S -> started_after_connected (run evs S).
Proof.
  revert S. induction evs as [| ev evs IH]; intros S HS; [exact HS |].
  rewrite run_cons. apply IH. now apply started_after_connected_step.
Qed.

(** X11.  Whatever happens, the relay engine writes only CONNECTED, DATA,
    CLOSE and PONG frames on the control stream, and it never takes back
    what was written: the frames after a trace are those before it,
    followed by frames of these four types. *)
Theorem relay_writes_four_types (evs : list Event) (S : Sys) :
  exists app,
    sent (state (run evs S)) = sent (state S) ++ app
    /\ forallb relay_frame app = true.
Proof.
  revert S. induction evs as [| ev evs IH]; intros S.
  - exists []. now rewrite app_nil_r.
  - rewrite run_cons.
    destruct (sys_step_frames ev S) as (a & Hs & Hf & _).
    destruct (IH (sys_step ev S)) as (b & Hs' & Hf').
    exists (a ++ b). rewrite Hs', Hs, <- app_assoc, forallb_app, Hf, Hf'.
    split; reflexivity.
Qed.

(** X12.  Without a control stream nothing is written: from a state with
    no stream, as after [DisconnectQuic] or [ReconnectQuic], a trace in
    which no session is installed leaves the frames written as they were,
    whatever the reader meets and the tasks still running do, and still
    has no stream at its end. *)
Theorem nothing_written_without_stream (evs : list Event) (S : Sys) :
  quicStream (state S) = None ->
  forallb no_session evs = true ->
  sent (state (run evs S)) = sent (state S)
  /\ quicStream (state (run evs S)) = None.
Proof.
  revert S. induction evs as [| ev evs IH]; intros S Hn Hev; [now split |].
  cbn [forallb] in Hev. apply andb_prop in Hev. destruct Hev as [Hev Hevs].
  rewrite run_cons.
  destruct (sys_step_frames ev S) as (a & Hs & _ & Ha & Hq & _).
  destruct (IH (sys_step ev S) (Hq Hev Hn) Hevs) as [Hs' Hq'].
  rewrite Hs', Hs, (Ha Hn), app_nil_r. now split.
Qed.

(** X13.  From the start of the process, every DATA frame written on the
    control stream comes after a CONNECTED frame for the same id. *)
Theorem data_only_after_connected (evs : list Event) :
  data_after_connected [] (sent (state (run evs (mkSys initial [])))) = true.
Proof.
  apply (started_after_connected_run evs (mkSys initial [])).
  split; [reflexivity | intros ? ? []].
Qed.

End WithLibraries.

End WireTrace.


Module WireExamples.
Import Msg Net Dial Conn Scenarios Wire WireTrace.

#[local] Existing Instance plain_netlib.
#[local] Existing Instance plain_base64.

(** With a session the three events write PONG and CONNECTED. *)
Example ping_then_connect_running :
  sent (state (run ping_then_connect (mkSys running [])))
  = [mkMessage "pong" "p" "" ""; mkMessage "connected" "y" "" ""].
Proof. vm_compute. reflexivity. Qed.

Lemma nothing_written_without_stream_witness :
  let S := sys_step EDisconnect (mkSys running []) in
  quicStream (state S) = None
  /\ forallb no_session ping_then_connect = true
  /\ sent (state (run ping_then_connect S)) = [].
Proof.
  intros S. split; [reflexivity | split; [reflexivity |]].
  apply (nothing_written_without_stream ping_then_connect S); reflexivity.
Defined.

End WireExamples.


(** ** The queues stay within their capacity *)

Module QueueFacts.
Import Msg Net Dial Conn ConnFacts TableFacts Queue.

Lemma hb_insert (h : gmap nat Connection) (l : nat) (cc : Connection) :
  chan_bounded cc -> heap_bounded h -> heap_bounded (<[l := cc]> h).
Proof.
  intros Hcc Hh k c. destruct (decide (l = k)) as [<- | Hne].
  - rewrite lookup_insert_eq. now intros [= <-].
  - rewrite lookup_insert_ne by exact Hne. apply Hh.
Qed.

Lemma hb_alter (h : gmap nat Connection) (l : nat)
    (f : Connection -> Connection) :
  (forall cc, dataChan (f cc) = dataChan cc
              \/ dataChan (f cc) = close_chan (dataChan cc)) ->
  heap_bounded h -> heap_bounded (alter f l h).
Proof.
  intros Hf Hh k c Hk. apply lookup_alter_Some in Hk.
  destruct Hk as [[<- (c0 & Hc0 & ->)] | [_ Hk]]; [| now apply (Hh k)].
  pose proof (Hh l c0 Hc0) as Hb. unfold chan_bounded in *.
  destruct (Hf c0) as [-> | ->]; exact Hb.
Qed.

Lemma close_connection_chan (cc : Connection) :
  dataChan (close_connection cc) = dataChan cc
  \/ dataChan (close_connection cc) = close_chan (dataChan cc).
Proof. now right. Qed.

Lemma close_conn_only_chan (cc : Connection) :
  dataChan (close_conn_only cc) = dataChan cc
  \/ dataChan (close_conn_only cc) = close_chan (dataChan cc).
Proof. now left. Qed.

Lemma hb_closeAll (h : gmap nat Connection) (t : gmap string nat) :
  heap_bounded h ->
  heap_bounded (map_fold (fun _ l h => alter close_connection l h) h t).
Proof.
  intros Hh.
  apply (map_fold_weak_ind (fun r (_ : gmap string nat) => heap_bounded r)).
  - exact Hh.
  - intros id l m r _ Hr. apply hb_alter; [apply close_connection_chan | exact Hr].
Qed.

Lemma qb_same (st st' : State) :
  heap st' = heap st -> queues_bounded st -> queues_bounded st'.
Proof. unfold queues_bounded. now intros ->. Qed.

Lemma qb_initial : queues_bounded initial.
Proof. intros l cc. cbn. rewrite lookup_empty. discriminate. Qed.

Lemma qb_sendMessage (w : option goerror) (m : Message) (st : State) :
  queues_bounded st -> queues_bounded (fst (sendMessage w m st)).
Proof. apply qb_same, sendMessage_heap. Qed.

Lemma qb_sendCloseMessage (w : option goerror) (id : string) (st : State) :
  queues_bounded st -> queues_bounded (sendCloseMessage w id st).
Proof.
  intros Hq. unfold sendCloseMessage.
  pose proof (qb_sendMessage w (closeMsg id) st Hq) as H1.
  destruct (clientConns (fst (sendMessage w (closeMsg id) st)) !! id);
    [| exact H1].
  unfold queues_bounded. cbn [heap set_clientConns set_heap].
  apply hb_alter; [apply close_connection_chan | exact H1].
Qed.

Lemma qb_conn_Write (w : option goerror) (l : nat) (d : list byte) (st : State) :
  queues_bounded st -> queues_bounded (fst (conn_Write w l d st)).
Proof.
  intros Hq. unfold conn_Write.
  destruct (heap st !! l) as [cc|] eqn:El; [| exact Hq].
  destruct (sock_closed (conn cc)); [exact Hq |].
  destruct w; [exact Hq |]. cbn [fst]. unfold queues_bounded.
  cbn [heap set_heap]. apply hb_insert; [| exact Hq]. exact (Hq l cc El).
Qed.

Lemma qb_closeAll (st : State) :
  queues_bounded st -> queues_bounded (closeAllClientConns st).
Proof.
  intros Hq. unfold closeAllClientConns, queues_bounded.
  cbn [heap set_clientConns set_heap]. now apply hb_closeAll.
Qed.

Section WithLibraries.
Context `{NetLib} `{Base64}.

Lemma qb_handleConnect (o : Oracle) (msg : Message) (st : State) :
  queues_bounded st -> queues_bounded (fst (handleConnect o msg st)).
Proof.
  intros Hq. unfold handleConnect.
  destruct (dialWithDNSFallback (o_net o) (Addr msg)) as [[err | c] tr].
  - cbn [fst]. apply qb_sendCloseMessage. exact Hq.
  - change (heap (set_logs (logs st ++ log_lines tr) st)) with (heap st).
    set (st1 := set_clientConns _ _).
    assert (Hq1 : queues_bounded st1).
    { unfold st1, queues_bounded. cbn [heap set_clientConns set_heap].
      apply hb_insert; [| exact Hq]. split; [reflexivity | cbn; lia]. }
    clearbody st1.
    pose proof (qb_sendMessage (o_stream_write o)
                  (mkMessage "connected" (ID msg) "" "") st1 Hq1) as Hq2.
    destruct (sendMessage (o_stream_write o) _ st1) as [st2 [e|]];
      cbn [fst] in *.
    + unfold queues_bounded. cbn [heap set_heap log set_logs].
      apply hb_alter; [apply close_conn_only_chan | exact Hq2].
    + destruct (negb (String.eqb (Data msg) "")); [| exact Hq2].
      pose proof (qb_conn_Write (o_sock_write o) (fresh (dom (heap st)))
                    (fst (DecodeString (Data msg))) st2 Hq2) as Hq3.
      destruct (conn_Write (o_sock_write o) _ _ st2) as [st3 [e|]];
        cbn [fst] in *; [| exact Hq3].
      apply qb_sendCloseMessage. exact Hq3.
Qed.

Lemma qb_task_step (o : Oracle) (t : Task) (st st' : State)
    (spawned : list Task) (ended : bool) :
  task_step o t st = Some (st', spawned, ended) ->
  queues_bounded st -> queues_bounded st'.
Proof.
  intros Hstep Hq. destruct t as [msg | cc id | cc id]; cbn [task_step] in Hstep.
  - pose proof (qb_handleConnect o msg st Hq) as Hh.
    destruct (handleConnect o msg st) as [st1 sp]. now injection Hstep as <- _ _.
  - unfold relayFromConnToQuic_step in Hstep.
    destruct (match heap st !! cc with Some _ => _ | None => _ end)
      as [e | buf].
    + injection Hstep as <- _ _. now apply qb_sendCloseMessage.
    + destruct (take (Z.to_nat (256 * 1024)) buf) as [| b bs].
      * now injection Hstep as <- _ _.
      * pose proof (qb_sendMessage (o_stream_write o)
                      (mkMessage "data" id "" (EncodeToString (b :: bs))) st Hq)
          as Hq1.
        destruct (sendMessage (o_stream_write o) _ st) as [st1 [e|]];
          cbn [fst] in *; injection Hstep as <- _ _; [| exact Hq1].
        apply qb_sendCloseMessage. exact Hq1.
  - unfold relayFromChanToConn_step in Hstep.
    destruct (heap st !! cc) as [c|] eqn:Ec; [| discriminate].
    destruct (ch_buf (dataChan c)) as [| data rest] eqn:Eb.
    + destruct (ch_closed (dataChan c)); [| discriminate].
      injection Hstep as <- _ _. now apply qb_sendCloseMessage.
    + assert (Hq1 : queues_bounded (set_heap
                (<[cc := mkConnection (conn c)
                           (mkChan (ch_cap (dataChan c)) rest
                                   (ch_closed (dataChan c)))]> (heap st)) st)).
      { unfold queues_bounded. cbn [heap set_heap].
        apply hb_insert; [| exact Hq].
        destruct (Hq cc c Ec) as [Hcap Hlen]. rewrite Eb in Hlen.
        split; [exact Hcap |]. cbn [dataChan ch_buf List.length] in *. lia. }
      set (st1 := set_heap _ st) in *. clearbody st1.
      destruct data as [| b bs]; [now injection Hstep as <- _ _ |].
      pose proof (qb_conn_Write (o_sock_write o) cc (b :: bs) st1 Hq1) as Hq2.
      destruct (conn_Write (o_sock_write o) cc (b :: bs) st1) as [st2 [e|]];
        cbn [fst] in *; injection Hstep as <- _ _; [| exact Hq2].
      now apply qb_sendCloseMessage.
Qed.

Lemma qb_quicReader_step (w : option goerror) (inp : ReaderInput) (st : State) :
  queues_bounded st -> queues_bounded (fst (fst (quicReader_step w inp st))).
Proof.
  intros Hq. unfold quicReader_step.
  destruct inp as [| | e | msg]; cbn [fst];
    try (apply qb_closeAll; exact Hq); try exact Hq.
  destruct (String.eqb (Type_ msg) "connect"); [exact Hq |].
  destruct (String.eqb (Type_ msg) "data").
  { destruct (clientConns st !! ID msg) as [l|]; [| exact Hq].
    destruct (heap st !! l) as [cc|] eqn:El; [| exact Hq].
    destruct (DecodeString (Data msg)) as [data [e|]]; [exact Hq |].
    destruct (ch_closed (dataChan cc)); [exact Hq |].
    unfold try_send.
    destruct (Z.ltb_spec (Z.of_nat (List.length (ch_buf (dataChan cc))))
                (ch_cap (dataChan cc))) as [Hlt | Hge];
      cbn [fst]; [| exact Hq].
    unfold queues_bounded. cbn [heap set_heap].
    apply hb_insert; [| exact Hq].
    destruct (Hq l cc El) as [Hcap Hlen]. split; [exact Hcap |].
    cbn [dataChan ch_buf]. rewrite length_app. cbn [List.length]. lia. }
  destruct (String.eqb (Type_ msg) "close").
  { destruct (clientConns st !! ID msg) as [l|] eqn:El; cbn [fst];
      [| exact Hq].
    unfold queues_bounded. cbn [heap set_clientConns set_heap].
    apply hb_alter; [apply close_connection_chan | exact Hq]. }
  destruct (String.eqb (Type_ msg) "ping").
  { pose proof (qb_sendMessage w (mkMessage "pong" (ID msg) "" "") st Hq)
      as Hq1.
    destruct (sendMessage w _ st) as [st1 [e|]]; cbn [fst] in *; exact Hq1. }
  cbn [fst]. exact Hq.
Qed.

Lemma qb_sys_step (ev : Event) (S : Sys) :
  queues_bounded (state S) -> queues_bounded (state (sys_step ev S)).
Proof.
  intros Hq. destruct ev as [w inp | i o | | | c s]; cbn [sys_step].
  - pose proof (qb_quicReader_step w inp (state S) Hq) as Hr.
    destruct (quicReader_step w inp (state S)) as [[st sp] r]. exact Hr.
  - destruct (tasks S !! i) as [t|]; [| exact Hq].
    destruct (task_step o t (state S)) as [[[st sp] e]|] eqn:Et; [| exact Hq].
    cbn [state]. eapply qb_task_step; eassumption.
  - cbn [state]. apply qb_closeAll. exact Hq.
  - exact Hq.
  - exact Hq.
Qed.

Lemma qb_run (evs : list Event) (S : Sys) :
  queues_bounded (state S) -> queues_bounded (state (run evs S)).
Proof.
  revert S. induction evs as [| ev evs IH]; intros S Hq; [exact Hq |].
  unfold run in *. cbn [foldl]. apply IH. now apply qb_sys_step.
Qed.

(** X14.  However many DATA frames the server sends and however slowly
    the destination takes them, the queue of a sub-connection never holds
    more than 10000 slices, and keeps the capacity it was made with. *)
Theorem queue_never_over_capacity (evs : list Event) (l : nat)
    (cc : Connection) :
  heap (state (run evs (mkSys initial []))) !! l = Some cc ->
  ch_cap (dataChan cc) = 10000
  /\ Z.of_nat (List.length (ch_buf (dataChan cc))) <= 10000.
Proof.
  intros Hl. exact (qb_run evs (mkSys initial []) qb_initial l cc Hl).
Qed.

(** X15.  In every state the agent reaches, a turn of the reader either
    goes on or returns: it never sends on a closed channel, whatever it
    reads. *)
Theorem reader_never_panics (evs : list Event) (w : option goerror)
    (inp : ReaderInput) :
  let st := state (run evs (mkSys initial [])) in
  snd (quicReader_step w inp st) = Continue
  \/ snd (quicReader_step w inp st) = Return.
Proof.
  intros st.
  destruct (wf_run evs (mkSys initial []) wf_initial) as [Ho _]. fold st in Ho.
  unfold quicReader_step.
  destruct inp as [| | e | msg]; cbn [snd]; auto.
  destruct (String.eqb (Type_ msg) "connect"); [now left |].
  destruct (String.eqb (Type_ msg) "data").
  { destruct (clientConns st !! ID msg) as [l|] eqn:Eid; [| now left].
    destruct (Ho (ID msg) l Eid) as (cc & Hcc & Hopen & _).
    rewrite Hcc, Hopen.
    destruct (DecodeString (Data msg)) as [data [e|]]; [now left |].
    destruct (try_send data (dataChan cc)); now left. }
  destruct (String.eqb (Type_ msg) "close").
  { destruct (clientConns st !! ID msg); now left. }
  destruct (String.eqb (Type_ msg) "ping").
  { destruct (sendMessage w _ st) as [st1 [e|]]; auto. }
  now left.
Qed.

End WithLibraries.

End QueueFacts.


(** ** Teardown *)

Module TeardownFacts.
Import Msg Net Dial Conn ConnFacts TableFacts Queue.

Lemma close_connection_idem (cc : Connection) :
  close_connection (close_connection cc) = close_connection cc.
Proof. reflexivity. Qed.

(** What the closing loop leaves in the heap: a connection of the table is
    closed, any other is as it was. *)
Lemma closeAll_heap (h : gmap nat Connection) (t : gmap string nat) (l : nat) :
  let h' := map_fold (fun _ l h => alter close_connection l h) h t in
  ((exists id, t !! id = Some l) -> h' !! l = close_connection <$> h !! l)
  /\ ((forall id, t !! id <> Some l) -> h' !! l = h !! l).
Proof.
  cbv zeta.
  enough (Hall :
    (map_fold (fun _ l h => alter close_connection l h) h t !! l = h !! l
     \/ map_fold (fun _ l h => alter close_connection l h) h t !! l
        = close_connection <$> h !! l)
    /\ ((exists id, t !! id = Some l) ->
        map_fold (fun _ l h => alter close_connection l h) h t !! l
        = close_connection <$> h !! l)
    /\ ((forall id, t !! id <> Some l) ->
        map_fold (fun _ l h => alter close_connection l h) h t !! l = h !! l))
    by tauto.
  apply (map_fold_weak_ind
           (fun r (m : gmap string nat) =>
              (r !! l = h !! l \/ r !! l = close_connection <$> h !! l)
              /\ ((exists id, m !! id = Some l) ->
                  r !! l = close_connection <$> h !! l)
              /\ ((forall id, m !! id <> Some l) -> r !! l = h !! l))).
  - split; [now left |]. split; [| reflexivity].
    intros [id Hid]. rewrite lookup_empty in Hid. discriminate.
  - intros id l' m r Hnone (Hor & Hyes & Hno).
    destruct (decide (l' = l)) as [-> | Hne].
    + rewrite lookup_alter_eq.
      assert (Hc : close_connection <$> r !! l = close_connection <$> h !! l).
      { destruct Hor as [-> | ->]; [reflexivity |].
        destruct (h !! l); reflexivity. }
      split; [now right |]. split; [intros _; exact Hc |].
      intros Hnot. destruct (Hnot id). apply lookup_insert_eq.
    + rewrite lookup_alter_ne by exact Hne.
      split; [exact Hor |]. split.
      * intros [id1 Hid1]. apply Hyes. exists id1.
        destruct (decide (id = id1)) as [<- | Hn].
        -- rewrite lookup_insert_eq in Hid1. congruence.
        -- now rewrite lookup_insert_ne in Hid1 by exact Hn.
      * intros Hnot. apply Hno. intros id0 Hid0. apply (Hnot id0).
        rewrite lookup_insert_ne; [exact Hid0 | congruence].
Qed.

Section WithLibraries.
Context `{NetLib} `{Base64}.

Lemma disconnect_facts (evs : list Event) :
  let st := state (run evs (mkSys initial [])) in
  let st' := DisconnectQuic st in
  clientConns st' = ∅
  /\ quicConn st' = None /\ quicStream st' = None
  /\ shouldAutoReconnect st' = false
  /\ sent st' = sent st
  /\ (forall id l, clientConns st !! id = Some l ->
        exists cc, heap st !! l = Some cc
                   /\ heap st' !! l = Some (close_connection cc))
  /\ (forall l, (forall id, clientConns st !! id <> Some l) ->
        heap st' !! l = heap st !! l).
Proof.
  intros st st'.
  destruct (wf_run evs (mkSys initial []) wf_initial) as [Ho _]. fold st in Ho.
  repeat split.
  - intros id l Hid. destruct (Ho id l Hid) as (cc & Hcc & _).
    exists cc. split; [exact Hcc |].
    unfold st', DisconnectQuic, closeAllClientConns.
    cbn [heap clientConns set_clientConns set_heap set_quic
         set_shouldAutoReconnect].
    destruct (closeAll_heap (heap st) (clientConns st) l) as [Hyes _].
    rewrite Hyes by (now exists id). now rewrite Hcc.
  - intros l Hno. unfold st', DisconnectQuic, closeAllClientConns.
    cbn [heap clientConns set_clientConns set_heap set_quic
         set_shouldAutoReconnect].
    destruct (closeAll_heap (heap st) (clientConns st) l) as [_ Hsame].
    now apply Hsame.
Qed.

(** X16.  In a state the agent reaches, [DisconnectQuic] closes the socket
    and the queue of every registered sub-connection, leaves the other
    connections as they were, empties the table, drops the session, turns
    auto-reconnect off and writes nothing on the stream. *)
Theorem DisconnectQuic_closes_all (evs : list Event) :
  let st := state (run evs (mkSys initial [])) in
  let st' := DisconnectQuic st in
  clientConns st' = ∅
  /\ quicConn st' = None /\ quicStream st' = None
  /\ shouldAutoReconnect st' = false
  /\ sent st' = sent st
  /\ (forall id l, clientConns st !! id = Some l ->
        exists cc, heap st !! l = Some cc
                   /\ heap st' !! l = Some (close_connection cc))
  /\ (forall l, (forall id, clientConns st !! id <> Some l) ->
        heap st' !! l = heap st !! l).
Proof. exact (disconnect_facts evs). Qed.

Lemma sendCloseMessage_no_session (w : option goerror) (id : string)
    (st : State) :
  quicStream st = None -> clientConns st = ∅ ->
  sendCloseMessage w id st
  = log "Cannot send message: no active QUIC stream" st.
Proof.
  intros Hq Ht. unfold sendCloseMessage, sendMessage. rewrite Hq. cbn [fst].
  cbn [clientConns log set_logs]. rewrite Ht, lookup_empty. reflexivity.
Qed.

(** X17.  After [DisconnectQuic] the relay tasks of a sub-connection that
    was registered end without a frame: the task that reads the socket at
    its next turn, and the task that drains the queue as soon as it meets
    a slice that is not empty or the end of the queue.  The table stays
    empty. *)
Theorem relay_tasks_end_after_disconnect (evs : list Event) (o : Oracle)
    (id id' : string) (l : nat) :
  let st := state (run evs (mkSys initial [])) in
  let st' := DisconnectQuic st in
  clientConns st !! id = Some l ->
  (exists st2,
     task_step o (RelayConnToQuic l id') st' = Some (st2, [], true)
     /\ sent st2 = sent st /\ clientConns st2 = ∅ /\ heap st2 = heap st')
  /\ (exists st2 cc,
        heap st !! l = Some cc
        /\ task_step o (RelayChanToConn l id') st'
           = Some (st2, [],
                   match ch_buf (dataChan cc) with
                   | [] :: _ => false
                   | _ => true
                   end)
        /\ sent st2 = sent st /\ clientConns st2 = ∅).
Proof.
  intros st st' Hid.
  destruct (disconnect_facts evs) as (Ht & _ & Hq & _ & Hs & Hreg & _).
  fold st in Ht, Hq, Hs, Hreg. fold st' in Ht, Hq, Hs, Hreg.
  destruct (Hreg id l Hid) as (cc & Hcc & Hcc').
  split.
  - eexists. cbn [task_step]. unfold relayFromConnToQuic_step.
    rewrite Hcc'. cbn [conn close_connection close_socket sock_closed].
    rewrite (sendCloseMessage_no_session _ _ _ Hq Ht).
    repeat split; try assumption.
  - cbn [task_step]. unfold relayFromChanToConn_step. rewrite Hcc'.
    cbn [dataChan close_connection close_chan ch_buf ch_closed ch_cap conn].
    destruct (ch_buf (dataChan cc)) as [| data rest] eqn:Eb.
    + rewrite (sendCloseMessage_no_session _ _ _ Hq Ht).
      eexists. exists cc. split; [exact Hcc |]. rewrite Eb.
      split; [reflexivity |]. split; [exact Hs | exact Ht].
    + destruct data as [| b bs].
      * eexists. exists cc. split; [exact Hcc |]. rewrite Eb.
        split; [reflexivity |]. split; [exact Hs | exact Ht].
      * unfold conn_Write. cbn [heap set_heap]. rewrite lookup_insert_eq.
        cbn [conn close_socket sock_closed].
        rewrite sendCloseMessage_no_session; [| exact Hq | exact Ht].
        eexists. exists cc. split; [exact Hcc |]. rewrite Eb.
        split; [reflexivity |]. split; [exact Hs | exact Ht].
Qed.

(** X18.  The reader itself writes nothing when a CLOSE arrives from the
    server: it closes and forgets the sub-connection, and a second CLOSE
    for the same id finds nothing to do.  The answer comes from the relay
    tasks of the sub-connection: the task that reads the socket ends at
    its next turn, and the task that drains the queue ends at its next
    turn when the queue is empty; each sends CLOSE(id) back, which goes
    out when the control stream takes the write. *)
Theorem inbound_close_idempotent (w w' : option goerror) (o : Oracle)
    (m : Message) (st : State) :
  Type_ m = "close"%string ->
  let st1 := fst (fst (quicReader_step w (Received m) st)) in
  let answer := sendCloseMessage (o_close_write o) (ID m) st1 in
  sent st1 = sent st
  /\ clientConns st1 !! ID m = None
  /\ (forall l cc, clientConns st !! ID m = Some l -> heap st !! l = Some cc ->
        heap st1 !! l = Some (close_connection cc)
        /\ task_step o (RelayConnToQuic l (ID m)) st1 = Some (answer, [], true)
        /\ (ch_buf (dataChan cc) = [] ->
            task_step o (RelayChanToConn l (ID m)) st1
            = Some (answer, [], true)))
  /\ sent answer
     = sent st ++ (if delivered (o_close_write o) st
                   then [closeMsg (ID m)] else [])
  /\ quicReader_step w' (Received m) st1 = (st1, [], Continue).
Proof.
  intros Hty st1 answer. subst answer st1. unfold quicReader_step. rewrite Hty.
  change (String.eqb "close" "connect") with false.
  change (String.eqb "close" "data") with false.
  change (String.eqb "close" "close") with true. cbv iota.
  destruct (clientConns st !! ID m) as [l|] eqn:Eid; cbn [fst].
  - set (st1 := set_clientConns _ _).
    assert (Hs1 : sent st1 = sent st) by reflexivity.
    assert (Hd1 : delivered (o_close_write o) st1
                  = delivered (o_close_write o) st) by reflexivity.
    assert (Hn1 : clientConns st1 !! ID m = None)
      by (unfold st1; cbn [clientConns set_clientConns];
          apply lookup_delete_eq).
    split; [exact Hs1 |]. split; [exact Hn1 |]. split.
    + intros l' cc [= <-] Hcc.
      assert (Hl1 : heap st1 !! l = Some (close_connection cc))
        by (unfold st1; cbn [heap set_clientConns set_heap];
            now rewrite lookup_alter_eq, Hcc).
      split; [exact Hl1 |]. split.
      * cbn [task_step]. unfold relayFromConnToQuic_step. now rewrite Hl1.
      * intros Hbuf. cbn [task_step]. unfold relayFromChanToConn_step.
        rewrite Hl1.
        cbn [dataChan close_connection close_chan ch_buf ch_closed].
        now rewrite Hbuf.
    + split; [now rewrite sendCloseMessage_sent, Hs1, Hd1 |].
      now rewrite Hn1.
  - rewrite ?Eid. split; [reflexivity |].
    split; [first [exact Eid | reflexivity] |].
    split; [intros l cc [=] |].
    split; [now rewrite sendCloseMessage_sent | reflexivity].
Qed.

End WithLibraries.

End TeardownFacts.


(** ** Payloads reach the destination in order *)

Module OrderFacts.
Import Msg Net Dial Conn ConnFacts Queue WireTrace.

Section WithLibraries.
Context `{NetLib} `{Base64}.

(** A DATA frame the reader can queue: the state afterwards. *)
Lemma reader_queues (w : option goerror) (id d : string) (l : nat)
    (c : Connection) (S : Sys) :
  clientConns (state S) !! id = Some l ->
  heap (state S) !! l = Some c ->
  ch_closed (dataChan c) = false ->
  Z.of_nat (List.length (ch_buf (dataChan c))) < ch_cap (dataChan c) ->
  snd (DecodeString d) = None ->
  sys_step (EReader w (Received (mkMessage "data" id "" d))) S
  = mkSys (set_heap
             (<[l := mkConnection (conn c)
                       (mkChan (ch_cap (dataChan c))
                               (ch_buf (dataChan c) ++ [fst (DecodeString d)])
                               (ch_closed (dataChan c)))]> (heap (state S)))
             (state S))
          (tasks S).
Proof.
  intros Hid Hl Hopen Hlen Hdec.
  cbn [sys_step]. unfold quicReader_step. cbn [Type_ ID Data].
  change (String.eqb "data" "connect") with false.
  change (String.eqb "data" "data") with true. cbv iota.
  rewrite Hid, Hl. destruct (DecodeString d) as [data e]. cbn [fst snd] in *.
  subst e. rewrite Hopen. unfold try_send.
  destruct (Z.ltb_spec (Z.of_nat (List.length (ch_buf (dataChan c))))
              (ch_cap (dataChan c))) as [_ | Hge]; [| lia].
  rewrite Hopen, app_nil_r. reflexivity.
Qed.

(** A turn of the draining task with a slice waiting and a socket that
    takes it: the state afterwards. *)
Lemma drain_one (o : Oracle) (i l : nat) (id : string) (c : Connection)
    (data : list byte) (rest : list (list byte)) (S : Sys) :
  tasks S !! i = Some (RelayChanToConn l id) ->
  heap (state S) !! l = Some c ->
  sock_closed (conn c) = false ->
  ch_buf (dataChan c) = data :: rest ->
  o_sock_write o = None ->
  exists st',
    sys_step (ETask i o) S = mkSys st' (tasks S)
    /\ sent st' = sent (state S)
    /\ heap st' !! l
       = Some (mkConnection
                 (mkSocket (remote (conn c)) false
                           (sock_written (conn c) ++ payloads [data])
                           (sock_tuning (conn c)))
                 (mkChan (ch_cap (dataChan c)) rest (ch_closed (dataChan c)))).
Proof.
  intros Ht Hl Hopen Hbuf Hw.
  cbn [sys_step]. rewrite Ht. cbn [task_step].
  unfold relayFromChanToConn_step. rewrite Hl, Hbuf.
  destruct data as [| b bs].
  - eexists. rewrite app_nil_r. split; [reflexivity |].
    split; [reflexivity |]. cbn [heap set_heap payloads List.filter].
    rewrite lookup_insert_eq, app_nil_r.
    destruct c as [[r cl wr tu] ch]. cbn in Hopen. subst cl. reflexivity.
  - unfold conn_Write. cbn [heap set_heap]. rewrite lookup_insert_eq.
    cbn [conn dataChan]. rewrite Hopen, Hw.
    eexists. rewrite app_nil_r. split; [reflexivity |].
    split; [reflexivity |]. cbn [heap set_heap].
    rewrite lookup_insert_eq. reflexivity.
Qed.

Lemma payloads_cons (d : list byte) (q : list (list byte)) :
  payloads (d :: q) = payloads [d] ++ payloads q.
Proof. unfold payloads. cbn [List.filter]. now destruct (negb _). Qed.

(** The reader queues the frames one behind the other. *)
Lemma reader_queues_all (w : option goerror) (id : string) (l : nat)
    (ds : list string) (c : Connection) (S : Sys) :
  clientConns (state S) !! id = Some l ->
  heap (state S) !! l = Some c ->
  ch_closed (dataChan c) = false ->
  Z.of_nat (List.length (ch_buf (dataChan c)) + List.length ds)
  <= ch_cap (dataChan c) ->
  Forall (fun d => snd (DecodeString d) = None) ds ->
  let S' := run (data_frames w id ds) S in
  tasks S' = tasks S
  /\ sent (state S') = sent (state S)
  /\ heap (state S') !! l
     = Some (mkConnection (conn c)
               (mkChan (ch_cap (dataChan c))
                       (ch_buf (dataChan c)
                        ++ List.map (fun d => fst (DecodeString d)) ds)
                       false)).
Proof.
  revert c S. induction ds as [| d ds IH]; intros c S Hid Hl Hopen Hlen Hdec.
  - cbn [data_frames List.map run foldl app]. rewrite app_nil_r.
    split; [reflexivity |]. split; [reflexivity |].
    rewrite Hl. destruct c as [s [cap buf closed]]. cbn in Hopen.
    now subst closed.
  - apply Forall_cons in Hdec. destruct Hdec as [Hd Hds].
    cbn [data_frames List.map]. rewrite run_cons.
    cbn [List.length] in Hlen.
    rewrite (reader_queues w id d l c S Hid Hl Hopen) by (lia || exact Hd).
    set (c1 := mkConnection (conn c) _).
    set (S1 := mkSys _ (tasks S)).
    assert (Hl1 : heap (state S1) !! l = Some c1)
      by (unfold S1; cbn [state heap set_heap]; apply lookup_insert_eq).
    destruct (IH c1 S1) as (Ht & Hs & Hh); try assumption.
    + unfold c1. cbn [dataChan ch_buf ch_cap]. rewrite length_app.
      cbn [List.length]. lia.
    + split; [exact Ht |]. split; [exact Hs |].
      fold (data_frames w id ds). rewrite Hh. unfold c1.
      cbn [conn dataChan ch_cap ch_buf]. now rewrite <- app_assoc.
Qed.

(** The draining task writes what waits in the queue, in order. *)
Lemma drain_all (o : Oracle) (i l : nat) (id : string)
    (q : list (list byte)) (c : Connection) (S : Sys) :
  tasks S !! i = Some (RelayChanToConn l id) ->
  heap (state S) !! l = Some c ->
  sock_closed (conn c) = false ->
  ch_buf (dataChan c) = q ->
  o_sock_write o = None ->
  let S' := run (repeat (ETask i o) (List.length q)) S in
  sent (state S') = sent (state S)
  /\ heap (state S') !! l
     = Some (mkConnection
               (mkSocket (remote (conn c)) false
                         (sock_written (conn c) ++ payloads q)
                         (sock_tuning (conn c)))
               (mkChan (ch_cap (dataChan c)) [] (ch_closed (dataChan c)))).
Proof.
  revert c S. induction q as [| d q IH]; intros c S Ht Hl Hopen Hbuf Hw.
  - cbn [List.length repeat run foldl]. split; [reflexivity |].
    rewrite Hl. cbn [payloads List.filter]. rewrite app_nil_r.
    destruct c as [[r cl wr tu] [cap buf closed]]. cbn in Hopen, Hbuf.
    now subst cl buf.
  - cbn [List.length repeat]. rewrite run_cons.
    destruct (drain_one o i l id c d q S Ht Hl Hopen Hbuf Hw)
      as (st' & -> & Hs & Hh).
    set (c1 := mkConnection _ _) in Hh.
    destruct (IH c1 (mkSys st' (tasks S))) as (Hs' & Hh');
      [exact Ht | exact Hh | reflexivity | reflexivity | exact Hw |].
    split; [now rewrite Hs' |].
    rewrite Hh'. unfold c1. cbn [conn dataChan remote sock_written sock_tuning
                                 ch_cap ch_closed].
    now rewrite (payloads_cons d q), app_assoc.
Qed.

(** X19.  What the server sends for a sub-connection reaches the
    destination whole and in order: when the reader receives the DATA
    frames of [ds], one after the other, for a registered sub-connection
    with an empty queue, and the draining task then takes as many turns
    with a socket that accepts the writes, the socket has been given the
    decoded payloads in the order of the frames, the empty ones left
    out, and the queue is empty again.  Nothing is written on the control
    stream. *)
Theorem data_delivered_in_order (S : Sys) (w : option goerror) (o : Oracle)
    (i l : nat) (id : string) (c : Connection) (ds : list string) :
  clientConns (state S) !! id = Some l ->
  heap (state S) !! l = Some c ->
  sock_closed (conn c) = false ->
  dataChan c = mkChan 10000 [] false ->
  tasks S !! i = Some (RelayChanToConn l id) ->
  o_sock_write o = None ->
  Forall (fun d => snd (DecodeString d) = None) ds ->
  Z.of_nat (List.length ds) <= 10000 ->
  let S' := run (data_frames w id ds
                 ++ repeat (ETask i o) (List.length ds)) S in
  heap (state S') !! l
  = Some (mkConnection
            (mkSocket (remote (conn c)) false
               (sock_written (conn c)
                ++ payloads (List.map (fun d => fst (DecodeString d)) ds))
               (sock_tuning (conn c)))
            (mkChan 10000 [] false))
  /\ sent (state S') = sent (state S).
Proof.
  intros Hid Hl Hopen Hch Ht Hw Hdec Hlen S'. subst S'.
  unfold run. rewrite foldl_app. fold (run (data_frames w id ds) S).
  destruct (reader_queues_all w id l ds c S Hid Hl) as (Ht1 & Hs1 & Hh1);
    [now rewrite Hch | rewrite Hch; cbn [ch_buf ch_cap List.length]; lia
     | exact Hdec |].
  rewrite Hch in Hh1. cbn [ch_cap ch_buf app] in Hh1.
  set (S1 := run (data_frames w id ds) S) in *.
  set (q := List.map (fun d => fst (DecodeString d)) ds) in *.
  assert (Hq : List.length ds = List.length q)
    by (unfold q; now rewrite length_map).
  rewrite Hq.
  fold (run (repeat (ETask i o) (List.length q)) S1).
  destruct (drain_all o i l id q _ S1 (eq_trans (f_equal (.!! i) Ht1) Ht)
              Hh1 Hopen eq_refl Hw) as (Hs2 & Hh2).
  split; [exact Hh2 | now rewrite Hs2].
Qed.

End WithLibraries.

End OrderFacts.


Module QueueExamples.
Import Msg Net Dial Conn Scenarios Queue QueueFacts TeardownFacts OrderFacts.

#[local] Existing Instance plain_netlib.
#[local] Existing Instance plain_base64.

Lemma queue_never_over_capacity_witness :
  exists cc,
    heap (state (run session_then_connect (mkSys initial []))) !! 0%nat
    = Some cc
    /\ ch_cap (dataChan cc) = 10000
    /\ Z.of_nat (List.length (ch_buf (dataChan cc))) <= 10000.
Proof.
  eexists. split; [vm_compute; reflexivity |].
  apply (queue_never_over_capacity session_then_connect 0%nat).
  vm_compute. reflexivity.
Defined.

Lemma DisconnectQuic_closes_all_witness :
  let st := state (run session_then_connect (mkSys initial [])) in
  clientConns (DisconnectQuic st) = ∅
  /\ exists cc, heap st !! 0%nat = Some cc
                /\ heap (DisconnectQuic st) !! 0%nat
                   = Some (close_connection cc).
Proof.
  intros st.
  pose proof (DisconnectQuic_closes_all session_then_connect) as T.
  cbv zeta in T. destruct T as (Ht & _ & _ & _ & _ & Hreg & _).
  split; [exact Ht |]. apply (Hreg "y"%string 0%nat).
  vm_compute. reflexivity.
Defined.

Lemma relay_tasks_end_after_disconnect_witness :
  let st := state (run session_then_connect (mkSys initial [])) in
  exists st2,
    task_step o_accept (RelayConnToQuic 0 "y") (DisconnectQuic st)
    = Some (st2, [], true)
    /\ sent st2 = sent st.
Proof.
  intros st.
  pose proof (relay_tasks_end_after_disconnect session_then_connect o_accept
                "y" "y" 0%nat) as T.
  cbv zeta in T.
  destruct T as [(st2 & Hstep & Hs & _) _]; [vm_compute; reflexivity |].
  exists st2. split; [exact Hstep | exact Hs].
Defined.

Lemma inbound_close_idempotent_witness :
  let m := mkMessage "close" "x" "" "" in
  let st1 := fst (fst (quicReader_step None (Received m) full_queue)) in
  clientConns st1 !! "x"%string = None
  /\ sent (sendCloseMessage (o_close_write o_accept) "x" st1)
     = [closeMsg "x"]
  /\ quicReader_step None (Received m) st1 = (st1, [], Continue).
Proof.
  intros m st1.
  pose proof (inbound_close_idempotent None None o_accept m full_queue eq_refl)
    as T.
  cbv zeta in T. destruct T as (_ & Hnone & _ & Hanswer & Hagain).
  split; [exact Hnone |]. split; [exact Hanswer | exact Hagain].
Defined.

(** The server sends "hello", an empty payload and "world" for ["x"]. *)
Lemma data_delivered_in_order_witness :
  let ds := ["hello"; ""; "world"]%string in
  let S' := run (data_frames None "x" ds ++ repeat (ETask 1 o_accept) 3)
                one_open in
  heap (state S') !! 0%nat
  = Some (mkConnection
            (mkSocket "a.example:80" false
               [list_byte_of_string "hello"; list_byte_of_string "world"] None)
            (mkChan 10000 [] false))
  /\ sent (state S') = [].
Proof.
  intros ds S'.
  assert (Hdec : Forall (fun d => snd (DecodeString d) = None) ds)
    by repeat constructor.
  assert (Hlen : Z.of_nat (List.length ds) <= 10000) by (cbn; lia).
  exact (data_delivered_in_order one_open None o_accept 1 0 "x"
           (mkConnection (mkSocket "a.example:80" false [] None)
                         (mkChan 10000 [] false)) ds
           eq_refl eq_refl eq_refl eq_refl eq_refl eq_refl Hdec Hlen).
Defined.

End QueueExamples.


(** ** Credentials *)

Module AccountFacts.
Import Net Config ConfigFacts Account.

Lemma NewSecureStorage_user (u : string) :
  u <> EmptyString -> NewSecureStorage u = mkSecureStorage KeyringService u.
Proof.
  intros Hu. unfold NewSecureStorage. apply String.eqb_neq in Hu.
  now rewrite Hu.
Qed.

(** What [SaveToken] does to the keyring, and that it does nothing else
    but log. *)
Lemma SaveToken_world (o : Oracle) (s : SecureStorage) (token : string)
    (w : World) :
  let w' := fst (SaveToken o s token w) in
  home w' = home w /\ files w' = files w /\ dirs w' = dirs w
  /\ keyring w'
     = (if String.eqb token "" then keyring w
        else match keyring_err o with
             | Some _ => keyring w
             | None => <[(service s, userID s) := token]> (keyring w)
             end)
  /\ (snd (SaveToken o s token w) = None
      <-> token <> EmptyString /\ keyring_err o = None).
Proof.
  cbv zeta. unfold SaveToken.
  destruct (String.eqb_spec token "") as [-> | Hne].
  - cbn [fst snd]. do 4 (split; [reflexivity |]).
    split; [discriminate |]. intros [Hc _]. now destruct Hc.
  - destruct (keyring_err o) as [e|];
      cbn [fst snd log home files dirs keyring];
      do 4 (split; [reflexivity |]).
    + split; [discriminate |]. intros [_ Hc]. discriminate.
    + split; [now intros _ | reflexivity].
Qed.

Lemma GetToken_ok (ko : KeyOracle) (s : SecureStorage) (w : World)
    (token : string) :
  GetToken ko s w = (token, None)
  <-> get_err ko = None /\ token <> EmptyString
      /\ keyring w !! (service s, userID s) = Some token.
Proof.
  unfold GetToken. destruct (get_err ko).
  { split; [discriminate | now intros [[=] _]]. }
  destruct (keyring w !! (service s, userID s)) as [t|].
  - destruct (String.eqb_spec t "") as [-> | Hne].
    + split; [discriminate |]. intros (_ & Hne & [= <-]). now destruct Hne.
    + split.
      * intros [= <-]. repeat split. exact Hne.
      * intros (_ & _ & [= ->]). reflexivity.
  - split; [discriminate | now intros (_ & _ & [=])].
Qed.

Lemma GetToken_err (ko : KeyOracle) (s : SecureStorage) (w : World) :
  snd (GetToken ko s w) = None
  \/ fst (GetToken ko s w) = EmptyString.
Proof.
  unfold GetToken. destruct (get_err ko); [now right |].
  destruct (keyring w !! (service s, userID s)) as [t|]; [| now right].
  destruct (String.eqb t ""); [now right | now left].
Qed.

Lemma HasToken_iff (ko : KeyOracle) (s : SecureStorage) (w : World) :
  HasToken ko s w = true
  <-> get_err ko = None
      /\ exists t, t <> EmptyString
                   /\ keyring w !! (service s, userID s) = Some t.
Proof.
  unfold HasToken.
  destruct (GetToken ko s w) as [t e] eqn:E. cbn [snd].
  destruct e as [e|].
  - split; [discriminate |]. intros (Hg & t' & Hne & Hk).
    assert (Hok : GetToken ko s w = (t', None)) by now apply GetToken_ok.
    congruence.
  - apply GetToken_ok in E. destruct E as (Hg & Hne & Hk).
    split; [| reflexivity]. intros _. split; [exact Hg |]. now exists t.
Qed.

Section WithConfigLib.
Context `{ConfigLib}.

(** What [SaveConfig] does to the keyring and to the home directory. *)
Lemma SaveConfig_keyring (o : Oracle) (c : Config) (w : World) :
  home (fst (SaveConfig o c w)) = home w
  /\ keyring (fst (SaveConfig o c w))
     = if negb (String.eqb (APIToken c) "")
          && negb (String.eqb (UserID c) "")
       then match mkdir_err o, keyring_err o with
            | None, None =>
                <[(KeyringService, UserID c) := APIToken c]> (keyring w)
            | _, _ => keyring w
            end
       else keyring w.
Proof.
  unfold SaveConfig.
  destruct (mkdir_err o).
  { cbn [fst]. split; [reflexivity |]. now destruct (_ && _). }
  set (w1 := mkWorld _ _ _ _ _).
  destruct (String.eqb_spec (APIToken c) "") as [Ht | Ht]; cbn [negb andb].
  { destruct (write_err o); split; reflexivity. }
  destruct (String.eqb_spec (UserID c) "") as [Hu | Hu]; cbn [negb andb].
  { destruct (write_err o); split; reflexivity. }
  pose proof (SaveToken_world o (NewSecureStorage (UserID c)) (APIToken c) w1)
    as Hs.
  cbv zeta in Hs. destruct Hs as (Hh & _ & _ & Hk & _).
  rewrite (NewSecureStorage_user _ Hu) in *. cbn [service userID] in Hk.
  apply String.eqb_neq in Ht. rewrite Ht in Hk.
  destruct (SaveToken o _ (APIToken c) w1) as [w2 [e|]]; cbn [fst] in *;
    destruct (write_err o); cbn [fst home keyring log WriteFile];
    rewrite ?Hh, ?Hk; split; try reflexivity;
    destruct (keyring_err o); reflexivity.
Qed.

(** The file after a [SaveConfig] that the disk accepts. *)
Lemma SaveConfig_file (o : Oracle) (c : Config) (w : World) :
  mkdir_err o = None -> write_err o = None ->
  files (fst (SaveConfig o c w)) !! getConfigPath w
  = Some (MarshalIndent c,
          match files w !! getConfigPath w with
          | Some (_, m) => m
          | None => 384
          end).
Proof.
  intros Hm Hw. rewrite SaveConfig_files, Hm, Hw.
  unfold WriteFile. cbn [files]. now rewrite lookup_insert_eq.
Qed.

End WithConfigLib.

(** What a deletion the keyring accepts leaves of the machine. *)
Lemma deleted_token_facts (ko : KeyOracle) (s : SecureStorage) (w : World) :
  delete_err ko = None ->
  snd (DeleteToken ko s w) = None
  /\ keyring (fst (DeleteToken ko s w))
     = delete (service s, userID s) (keyring w)
  /\ home (fst (DeleteToken ko s w)) = home w
  /\ files (fst (DeleteToken ko s w)) = files w.
Proof.
  intros Hd. unfold DeleteToken. rewrite Hd.
  destruct (keyring w !! (service s, userID s)) eqn:E; cbn;
    repeat split; auto.
  symmetry. now apply delete_id.
Qed.

(** X20.  A token that [SaveToken] accepted is the one [GetToken] returns
    for the same account, as long as the keyring answers; [HasToken] is
    then true.  Saving touches no other account and no file. *)
Theorem saved_token_is_retrieved (o : Oracle) (ko : KeyOracle)
    (s : SecureStorage) (token : string) (w w' : World) :
  SaveToken o s token w = (w', None) ->
  get_err ko = None ->
  GetToken ko s w' = (token, None)
  /\ HasToken ko s w' = true
  /\ (forall k, k <> (service s, userID s) ->
                keyring w' !! k = keyring w !! k)
  /\ files w' = files w.
Proof.
  intros Hs Hg.
  pose proof (SaveToken_world o s token w) as Hw. cbv zeta in Hw.
  rewrite Hs in Hw. cbn [fst snd] in Hw.
  destruct Hw as (_ & Hf & _ & Hk & Hok).
  destruct (proj1 Hok eq_refl) as [Hne Hke].
  apply String.eqb_neq in Hne. rewrite Hne, Hke in Hk.
  apply String.eqb_neq in Hne.
  assert (Hl : keyring w' !! (service s, userID s) = Some token)
    by (rewrite Hk; apply lookup_insert_eq).
  split; [now apply GetToken_ok |].
  split; [apply HasToken_iff; split; [exact Hg | now exists token] |].
  split; [| exact Hf].
  intros k Hkne. rewrite Hk. now apply lookup_insert_ne.
Qed.

(** X21.  When the keyring accepts the deletion, [DeleteToken] succeeds
    whether there was a token or not, the account has no token
    afterwards ([GetToken] fails and [HasToken] is false, whatever the
    keyring answers then), the other accounts keep theirs, and deleting
    again succeeds and changes nothing in the keyring. *)
Theorem deleted_token_is_gone (ko ko' : KeyOracle) (s : SecureStorage)
    (w : World) :
  delete_err ko = None ->
  let w' := fst (DeleteToken ko s w) in
  snd (DeleteToken ko s w) = None
  /\ keyring w' = delete (service s, userID s) (keyring w)
  /\ HasToken ko' s w' = false
  /\ fst (GetToken ko' s w') = EmptyString
  /\ snd (DeleteToken ko s w') = None
  /\ keyring (fst (DeleteToken ko s w')) = keyring w'.
Proof.
  intros Hd w'.
  assert (Hstep : forall w0,
            snd (DeleteToken ko s w0) = None
            /\ keyring (fst (DeleteToken ko s w0))
               = delete (service s, userID s) (keyring w0)).
  { intros w0. unfold DeleteToken. rewrite Hd.
    destruct (keyring w0 !! (service s, userID s)) eqn:E; cbn; split; auto.
    symmetry. now apply delete_id. }
  destruct (Hstep w) as [He Hk]. fold w' in Hk.
  assert (Hnone : keyring w' !! (service s, userID s) = None)
    by (rewrite Hk; apply lookup_delete_eq).
  assert (Hhas : HasToken ko' s w' = false).
  { destruct (HasToken ko' s w') eqn:E; [| reflexivity].
    apply HasToken_iff in E. destruct E as (_ & t & _ & Ht). congruence. }
  split; [exact He |]. split; [exact Hk |]. split; [exact Hhas |].
  split.
  { destruct (GetToken_err ko' s w') as [Hok | Hempty]; [| exact Hempty].
    unfold HasToken in Hhas. rewrite Hok in Hhas. discriminate. }
  destruct (Hstep w') as [He' Hk']. split; [exact He' |].
  rewrite Hk'. now apply delete_id.
Qed.

(** [IsLoggedIn] is true exactly when a configuration is loaded,
    it names a user, and either it holds a token in memory or the keyring
    answers with a non-empty token for that user under the service
    "vyx-proxy-client". *)
Theorem IsLoggedIn_iff (ko : KeyOracle) (p : Pkg) :
  IsLoggedIn ko p = true
  <-> exists c,
        GlobalConfig p = Some c
        /\ UserID c <> EmptyString
        /\ (APIToken c <> EmptyString
            \/ (get_err ko = None
                /\ exists t, t <> EmptyString
                     /\ keyring (world p) !! ("vyx-proxy-client"%string, UserID c)
                        = Some t)).
Proof.
  unfold IsLoggedIn. destruct (GlobalConfig p) as [c|].
  2: { split; [discriminate | now intros (c & [=] & _)]. }
  destruct (String.eqb_spec (UserID c) "") as [Hu | Hu].
  { split; [discriminate |]. intros (c' & [= <-] & Hne & _). now destruct Hne. }
  destruct (String.eqb_spec (APIToken c) "") as [Ht | Ht]; cbn [negb].
  - rewrite HasToken_iff, (NewSecureStorage_user _ Hu). cbn [service userID].
    split.
    + intros Hk. exists c. split; [reflexivity |]. split; [exact Hu |].
      now right.
    + intros (c' & [= <-] & _ & [Hne | Hk]); [now destruct Hne | exact Hk].
  - split; [| reflexivity]. intros _. exists c. repeat split; auto.
Qed.

Section WithConfigLib2.
Context `{ConfigLib}.

(** What a logout leaves when the keyring accepts the deletion. *)
Lemma logout_accepted (ko ko' : KeyOracle) (o : Oracle) (p : Pkg)
    (c : Config) :
  GlobalConfig p = Some c ->
  UserID c <> EmptyString ->
  delete_err ko = None ->
  let cleared := mkConfig (ServerURL c) "" "" "" (VerboseLogging c)
                          (AutoStart c) in
  exists p' e,
    Logout ko o p = Some (p', e)
    /\ GlobalConfig p' = Some cleared
    /\ IsLoggedIn ko' p' = false
    /\ keyring (world p')
       = delete (KeyringService, UserID c) (keyring (world p))
    /\ (mkdir_err o = None -> write_err o = None ->
        e = None
        /\ exists mode,
             files (world p') !! getConfigPath (world p)
             = Some (MarshalIndent cleared, mode)).
Proof.
  intros Hg Hu Hd cleared.
  pose proof (deleted_token_facts ko (NewSecureStorage (UserID c)) (world p) Hd)
    as (He & Hk & Hhome & Hfiles).
  rewrite (NewSecureStorage_user _ Hu) in *. cbn [service userID] in Hk.
  unfold Logout, ClearAuthToken. rewrite Hg.
  apply String.eqb_neq in Hu. rewrite Hu.
  rewrite (NewSecureStorage_user _ (proj1 (String.eqb_neq _ _) Hu)).
  destruct (DeleteToken ko _ (world p)) as [w1 e1]. cbn [fst snd] in *.
  subst e1. cbn [GlobalConfig world with_token ServerURL VerboseLogging
                 AutoStart].
  fold cleared.
  pose proof (SaveConfig_keyring o cleared w1) as [Hh2 Hk2].
  pose proof (SaveConfig_files o cleared w1) as Hf2.
  destruct (SaveConfig o cleared w1) as [w2 e2] eqn:Es. cbn [fst] in *.
  exists (mkPkg (Some cleared) w2), e2. split; [reflexivity |].
  split; [reflexivity |]. split; [reflexivity |].
  split; [cbn [world]; rewrite Hk2; exact Hk |].
  intros Hm Hw. split.
  - unfold SaveConfig in Es. rewrite Hm, Hw in Es. cbn in Es. congruence.
  - rewrite Hm, Hw in Hf2. cbn [world]. rewrite Hf2.
    unfold WriteFile. cbn [files].
    replace (getConfigPath w1) with (getConfigPath (world p))
      by (unfold getConfigPath; now rewrite Hhome).
    rewrite lookup_insert_eq. eauto.
Qed.

(** X22.  [Logout] is all or nothing.  When the keyring accepts the
    deletion, the token of the user is gone from the keyring, the
    configuration in memory has no token, user id or email, [IsLoggedIn]
    is false whatever the keyring answers, and the file the disk accepts
    is the text of that cleared configuration.  When the keyring refuses,
    [Logout] returns the error and changes nothing. *)
Theorem Logout_all_or_nothing (ko ko' : KeyOracle) (o : Oracle) (p : Pkg)
    (c : Config) :
  GlobalConfig p = Some c ->
  UserID c <> EmptyString ->
  let cleared := mkConfig (ServerURL c) "" "" "" (VerboseLogging c)
                          (AutoStart c) in
  (delete_err ko = None ->
   exists p' e,
     Logout ko o p = Some (p', e)
     /\ GlobalConfig p' = Some cleared
     /\ IsLoggedIn ko' p' = false
     /\ keyring (world p')
        = delete (KeyringService, UserID c) (keyring (world p))
     /\ (mkdir_err o = None -> write_err o = None ->
         e = None
         /\ exists mode,
              files (world p') !! getConfigPath (world p)
              = Some (MarshalIndent cleared, mode)))
  /\ (forall err, delete_err ko = Some err ->
        Logout ko o p
        = Some (p, Some ("failed to clear authentication token: "
                         +:+ ("failed to delete token from secure storage: "
                              +:+ err)))).
Proof.
  intros Hg Hu cleared. split.
  - intros Hd. exact (logout_accepted ko ko' o p c Hg Hu Hd).
  - intros err Hd. unfold Logout, ClearAuthToken. rewrite Hg.
    apply String.eqb_neq in Hu. rewrite Hu.
    unfold DeleteToken. rewrite Hd. rewrite <- Hg. now destruct p.
Qed.

End WithConfigLib2.

End AccountFacts.


(** ** Logging in and loading the configuration *)

Module LoginFacts.
Import Net Config ConfigFacts Account AccountFacts.

Section WithConfigLib.
Context `{ConfigLib}.

(** What a login the server accepts leaves in memory and on the
    machine. *)
Lemma Login_accepted (o : Oracle) (p : Pkg) (c : Config) (a : AuthResponse)
    (body : string) :
  GlobalConfig p = Some c ->
  let c' := mkConfig (ServerURL c) (Token a) (ID (User a)) (Email_ (User a))
                     (VerboseLogging c) (AutoStart c) in
  Login (Response 200 body (inr a)) o p
  = Some (mkPkg (Some c') (fst (SaveConfig o c' (world p))),
          snd (SaveConfig o c' (world p))).
Proof.
  intros Hg c'. unfold Login. cbn [Z.eqb StatusOK Pos.eqb negb]. rewrite Hg.
  fold c'. now destruct (SaveConfig o c' (world p)).
Qed.



(** X25.  [SetAutoStartEnabled] and [GetAutoStartEnabled]: without a
    loaded configuration the preference reads as enabled and cannot be
    set; with one, what was set is what is read back, even when the
    configuration could not be saved, and the file the disk accepts is
    the text of the configuration with that preference. *)
Theorem AutoStart_roundtrip (o : Oracle) (enabled : bool) (p : Pkg) :
  match GlobalConfig p with
  | None =>
      GetAutoStartEnabled p = true
      /\ SetAutoStartEnabled o enabled p
         = (p, Some "config not initialized"%string)
  | Some c =>
      let p' := fst (SetAutoStartEnabled o enabled p) in
      GetAutoStartEnabled p' = enabled
      /\ GlobalConfig p' = Some (with_AutoStart (Some enabled) c)
      /\ match mkdir_err o, write_err o with
         | None, None =>
             snd (SetAutoStartEnabled o enabled p) = None
             /\ exists mode,
                 files (world p') !! getConfigPath (world p)
                 = Some (MarshalIndent (with_AutoStart (Some enabled) c),
                         mode)
         | _, _ => files (world p') = files (world p)
         end
  end.
Proof.
  unfold SetAutoStartEnabled, GetAutoStartEnabled.
  destruct (GlobalConfig p) as [c|] eqn:Hg; [| now split].
  cbv zeta.
  pose proof (SaveConfig_files o (with_AutoStart (Some enabled) c) (world p))
    as Hf.
  destruct (SaveConfig o (with_AutoStart (Some enabled) c) (world p))
    as [w e] eqn:Es.
  cbn [fst snd GlobalConfig world AutoStart with_AutoStart] in *.
  split; [reflexivity |]. split; [reflexivity |].
  destruct (mkdir_err o) eqn:Hm; [exact Hf |].
  destruct (write_err o) eqn:Hw; [exact Hf |].
  split.
  - unfold SaveConfig in Es. rewrite Hm, Hw in Es. cbn in Es. congruence.
  - rewrite Hf. unfold WriteFile. cbn [files]. rewrite lookup_insert_eq. eauto.
Qed.

End WithConfigLib.

End LoginFacts.


(** ** Loading the configuration *)

Module LoadFacts.
Import Net Config ConfigFacts Account AccountFacts.

(** The lookup that ends [LoadConfig] changes nothing on the machine but
    the log, and the token it sets is the one the keyring holds for the
    user. *)
Lemma retrieve_token_facts (ko : KeyOracle) (c : Config) (w : World) :
  let r := retrieve_token ko c w in
  keyring (snd r) = keyring w
  /\ files (snd r) = files w
  /\ (fst r = c
      \/ exists t, t <> EmptyString
           /\ keyring w !! (KeyringService, UserID c) = Some t
           /\ fst r = with_token t c).
Proof.
  cbv zeta. unfold retrieve_token.
  destruct (String.eqb_spec (UserID c) "") as [Hu | Hu]; cbn [negb].
  { cbn [fst snd]. repeat split. now left. }
  destruct (GetToken ko (NewSecureStorage (UserID c)) w) as [t e] eqn:E.
  destruct e as [e|]; cbn [fst snd].
  { repeat split. now left. }
  apply GetToken_ok in E. destruct E as (_ & Hne & Hk).
  rewrite (NewSecureStorage_user _ Hu) in Hk. cbn [service userID] in Hk.
  repeat split. right. now exists t.
Qed.

Section WithLibraries.
Context `{ConfigLib} `{ConfigReader}.

(** The migration block when the file holds a token and a user id and
    the keyring takes the token. *)
Lemma migrate_legacy_done (lo : LoadOracle) (data : string) (c : Config)
    (w : World) (legacy : string) :
  Unmarshal_legacy data = inr legacy ->
  legacy <> EmptyString -> UserID c <> EmptyString ->
  keyring_err (o_migrate lo) = None ->
  let r := migrate_legacy lo data c w in
  fst r = with_token legacy c
  /\ keyring (snd r) !! (KeyringService, UserID c) = Some legacy
  /\ files (snd r)
     = match mkdir_err (o_resave lo), write_err (o_resave lo) with
       | None, None =>
           files (WriteFile (getConfigPath w)
                            (MarshalIndent (with_token legacy c)) 384 w)
       | _, _ => files w
       end.
Proof.
  intros Hleg Hl Hu Hkerr. cbv zeta. unfold migrate_legacy. rewrite Hleg.
  pose proof Hl as Hl'. apply String.eqb_neq in Hl'.
  pose proof Hu as Hu'. apply String.eqb_neq in Hu'.
  rewrite Hl', Hu'. cbn [negb].
  unfold MigrateFromPlaintextConfig. rewrite Hl'.
  set (w0 := log _ w).
  pose proof (SaveToken_world (o_migrate lo) (NewSecureStorage (UserID c))
                legacy w0) as Hs.
  cbv zeta in Hs. destruct Hs as (Hh1 & Hf1 & _ & Hk1 & Hok1).
  rewrite Hl', Hkerr in Hk1.
  rewrite (NewSecureStorage_user _ Hu) in *. cbn [service userID] in Hk1.
  destruct (SaveToken (o_migrate lo) _ legacy w0) as [w1 [e1|]];
    cbn [fst snd] in *.
  { destruct Hok1 as [_ Hok1]. now specialize (Hok1 (conj Hl Hkerr)). }
  set (w2 := log _ w1).
  set (c1 := with_token legacy c).
  pose proof (SaveConfig_keyring (o_resave lo) c1 w2) as [Hh3 Hk3].
  pose proof (SaveConfig_files (o_resave lo) c1 w2) as Hf3.
  assert (Hk3' : keyring (fst (SaveConfig (o_resave lo) c1 w2))
                 !! (KeyringService, UserID c) = Some legacy).
  { rewrite Hk3. cbn [APIToken UserID c1 with_token].
    rewrite Hl', Hu'. cbn [negb andb].
    destruct (mkdir_err (o_resave lo));
      [cbn [w2 log keyring]; rewrite Hk1; apply lookup_insert_eq |].
    destruct (keyring_err (o_resave lo));
      [cbn [w2 log keyring]; rewrite Hk1; apply lookup_insert_eq |].
    apply lookup_insert_eq. }
  assert (Hf3' : files (fst (SaveConfig (o_resave lo) c1 w2))
                 = match mkdir_err (o_resave lo), write_err (o_resave lo) with
                   | None, None =>
                       files (WriteFile (getConfigPath w)
                                        (MarshalIndent c1) 384 w)
                   | _, _ => files w
                   end).
  { rewrite Hf3.
    assert (Hp : getConfigPath w2 = getConfigPath w)
      by (unfold getConfigPath, w2; cbn [log home]; now rewrite Hh1).
    assert (Hfw : files w2 = files w) by (unfold w2; cbn [log files]; exact Hf1).
    destruct (mkdir_err (o_resave lo)); [exact Hfw |].
    destruct (write_err (o_resave lo)); [exact Hfw |].
    unfold WriteFile. cbn [files]. now rewrite Hp, Hfw. }
  destruct (SaveConfig (o_resave lo) c1 w2) as [w3 [e3|]]; cbn [fst snd] in *;
    (split; [reflexivity |]); split; assumption.
Qed.

(** What the migration block leaves in any case: the configuration it was
    given and the keyring as it was, or the configuration with a token
    that the keyring now holds for the user. *)
Lemma migrate_legacy_facts (lo : LoadOracle) (data : string) (c : Config)
    (w : World) :
  let r := migrate_legacy lo data c w in
  (fst r = c /\ keyring (snd r) = keyring w)
  \/ exists legacy,
       fst r = with_token legacy c
       /\ keyring (snd r) !! (KeyringService, UserID c) = Some legacy.
Proof.
  cbv zeta.
  destruct (Unmarshal_legacy data) as [e | legacy] eqn:Hleg.
  { left. unfold migrate_legacy. rewrite Hleg. now split. }
  destruct (String.eqb_spec legacy "") as [Hl | Hl].
  { left. unfold migrate_legacy. rewrite Hleg, Hl. now split. }
  destruct (String.eqb_spec (UserID c) "") as [Hu | Hu].
  { left. unfold migrate_legacy. rewrite Hleg, Hu.
    apply String.eqb_neq in Hl. rewrite Hl. now split. }
  destruct (keyring_err (o_migrate lo)) as [e|] eqn:Hk.
  - left. unfold migrate_legacy, MigrateFromPlaintextConfig, SaveToken.
    rewrite Hleg, Hk. apply String.eqb_neq in Hl, Hu. rewrite Hl, Hu.
    now split.
  - right. exists legacy.
    destruct (migrate_legacy_done lo data c w legacy Hleg Hl Hu Hk)
      as (Hc & Hkr & _).
    now split.
Qed.

(** X26.  On a machine without config.json, [LoadConfig] never fails: it
    returns the default configuration (server "proxy.vyx.network", no
    user, no token), makes it the global one, leaves the keyring alone,
    and the user is not logged in.  When the disk accepts it, the file is
    created with the text of that configuration and mode 0600. *)
Theorem LoadConfig_first_run (lo : LoadOracle) (ko : KeyOracle) (p : Pkg) :
  files (world p) !! getConfigPath (world p) = None ->
  let p' := fst (LoadConfig lo p) in
  snd (LoadConfig lo p) = inr defaultConfig
  /\ GlobalConfig p' = Some defaultConfig
  /\ keyring (world p') = keyring (world p)
  /\ IsLoggedIn ko p' = false
  /\ (mkdir_err (o_default lo) = None -> write_err (o_default lo) = None ->
      files (world p') !! getConfigPath (world p)
      = Some (MarshalIndent defaultConfig, 384)).
Proof.
  intros Hnone p'. subst p'. unfold LoadConfig. rewrite Hnone.
  cbn [fst snd GlobalConfig world].
  split; [reflexivity |]. split; [reflexivity |].
  split; [apply (SaveConfig_keyring (o_default lo) defaultConfig (world p)) |].
  split; [reflexivity |].
  intros Hm Hw. rewrite (SaveConfig_file _ _ _ Hm Hw), Hnone. reflexivity.
Qed.

(** X27.  A token that an older version left in config.json is moved to
    the keyring: when the file holds a non-empty "api_token" and a user
    id, and the keyring accepts the token, [LoadConfig] returns the
    configuration of the file with that token, the keyring holds the
    token under the user id, and the file the disk accepts is the text of
    the configuration, which has no token in it; the file keeps its
    permission bits. *)
Theorem LoadConfig_migrates (lo : LoadOracle) (p : Pkg) (data : string)
    (mode : Z) (c0 : Config) (legacy : string) :
  files (world p) !! getConfigPath (world p) = Some (data, mode) ->
  read_err lo = None ->
  Unmarshal_Config data = inr c0 ->
  Unmarshal_legacy data = inr legacy ->
  legacy <> EmptyString ->
  UserID c0 <> EmptyString ->
  keyring_err (o_migrate lo) = None ->
  let p' := fst (LoadConfig lo p) in
  snd (LoadConfig lo p) = inr (with_token legacy c0)
  /\ GlobalConfig p' = Some (with_token legacy c0)
  /\ keyring (world p') !! (KeyringService, UserID c0) = Some legacy
  /\ (mkdir_err (o_resave lo) = None -> write_err (o_resave lo) = None ->
      files (world p') !! getConfigPath (world p)
      = Some (MarshalIndent c0, mode)).
Proof.
  intros Hfile Hread Hc0 Hleg Hne Hu Hkerr p'. subst p'.
  unfold LoadConfig. rewrite Hfile, Hread, Hc0.
  pose proof (migrate_legacy_done lo data (with_token "" c0) (world p) legacy
                Hleg Hne Hu Hkerr) as Hm.
  cbv zeta in Hm.
  destruct (migrate_legacy lo data (with_token "" c0) (world p)) as [c1 w1].
  cbn [fst snd] in Hm. destruct Hm as (-> & Hk1 & Hf1).
  pose proof (retrieve_token_facts (o_key lo)
                (with_token legacy (with_token "" c0)) w1) as Hr.
  cbv zeta in Hr.
  destruct (retrieve_token (o_key lo) _ w1) as [c2 w2].
  cbn [fst snd GlobalConfig world UserID with_token] in *.
  destruct Hr as (Hk2 & Hf2 & Hc2).
  assert (Hc : c2 = with_token legacy c0).
  { destruct Hc2 as [-> | (t & _ & Ht & ->)]; [reflexivity |].
    rewrite Hk1 in Ht. now injection Ht as <-. }
  subst c2. split; [reflexivity |]. split; [reflexivity |].
  split; [now rewrite Hk2 |].
  intros Hm Hw. rewrite Hf2, Hf1, Hm, Hw. unfold WriteFile. cbn [files].
  now rewrite lookup_insert_eq, Hfile.
Qed.

(** X28.  Whatever is in the file and whatever the machine answers, a
    token in the configuration [LoadConfig] returns is the token the
    keyring holds for the user of that configuration: the token is never
    taken from the file alone. *)
Theorem LoadConfig_token_from_keyring (lo : LoadOracle) (p : Pkg)
    (c : Config) :
  snd (LoadConfig lo p) = inr c ->
  GlobalConfig (fst (LoadConfig lo p)) = Some c
  /\ (APIToken c = EmptyString
      \/ keyring (world (fst (LoadConfig lo p))) !! (KeyringService, UserID c)
         = Some (APIToken c)).
Proof.
  unfold LoadConfig.
  destruct (files (world p) !! getConfigPath (world p)) as [[data mode]|].
  2: { intros [= <-]. split; [reflexivity | now left]. }
  destruct (read_err lo); [discriminate |].
  destruct (Unmarshal_Config data) as [e | c0]; [discriminate |].
  pose proof (migrate_legacy_facts lo data (with_token "" c0) (world p)) as Hm.
  cbv zeta in Hm.
  destruct (migrate_legacy lo data (with_token "" c0) (world p)) as [c1 w1].
  cbn [fst snd] in Hm.
  pose proof (retrieve_token_facts (o_key lo) c1 w1) as Hr. cbv zeta in Hr.
  destruct (retrieve_token (o_key lo) c1 w1) as [c2 w2].
  cbn [fst snd GlobalConfig world] in *.
  destruct Hr as (Hk2 & _ & Hc2).
  intros [= <-]. split; [reflexivity |].
  destruct Hc2 as [-> | (t & _ & Ht & ->)].
  - destruct Hm as [[-> _] | (l & -> & Hl)]; [now left |].
    right. rewrite Hk2. exact Hl.
  - right. rewrite Hk2. exact Ht.
Qed.

End WithLibraries.

End LoadFacts.


Module AccountExamples.
Import Net Config Scenarios Account AccountFacts LoginFacts LoadFacts.

#[local] Existing Instance plain_configlib.
#[local] Existing Instance old_reader.

Lemma saved_token_is_retrieved_witness :
  let s := NewSecureStorage "u1" in
  let w' := fst (SaveToken all_fine s "secret" fresh_machine) in
  GetToken key_fine s w' = ("secret"%string, None)
  /\ HasToken key_fine s w' = true.
Proof.
  intros s w'.
  destruct (saved_token_is_retrieved all_fine key_fine s "secret"
              fresh_machine w' eq_refl eq_refl) as (Hg & Hh & _).
  split; [exact Hg | exact Hh].
Defined.

Lemma deleted_token_is_gone_witness :
  let s := NewSecureStorage "u1" in
  let w' := fst (DeleteToken key_fine s (world logged_in)) in
  delete_err key_fine = None
  /\ snd (DeleteToken key_fine s (world logged_in)) = None
  /\ HasToken key_fine s w' = false.
Proof.
  intros s w'. split; [reflexivity |].
  destruct (deleted_token_is_gone key_fine key_fine s (world logged_in) eq_refl)
    as (He & _ & Hh & _).
  split; [exact He | exact Hh].
Defined.

Lemma Logout_all_or_nothing_witness :
  exists p' e,
    Logout key_fine all_fine logged_in = Some (p', e)
    /\ IsLoggedIn key_fine p' = false
    /\ keyring (world p')
       = delete (KeyringService, "u1"%string) (keyring (world logged_in)).
Proof.
  destruct (Logout_all_or_nothing key_fine key_fine all_fine logged_in
              (mkConfig "proxy.vyx.network" "secret" "u1" "u@example.org"
                        false None) eq_refl ltac:(discriminate))
    as [Hyes _].
  destruct (Hyes eq_refl) as (p' & e & Hout & _ & Hlog & Hk & _).
  exists p', e. split; [exact Hout |]. split; [exact Hlog | exact Hk].
Defined.



Lemma LoadConfig_first_run_witness :
  files (world loaded) !! getConfigPath (world loaded) = None
  /\ snd (LoadConfig load_fine loaded) = inr defaultConfig
  /\ files (world (fst (LoadConfig load_fine loaded)))
     !! getConfigPath (world loaded)
     = Some (MarshalIndent defaultConfig, 384).
Proof.
  split; [reflexivity |].
  destruct (LoadConfig_first_run load_fine key_fine loaded eq_refl)
    as (Hr & _ & _ & _ & Hf).
  split; [exact Hr | exact (Hf eq_refl eq_refl)].
Defined.

Lemma LoadConfig_migrates_witness :
  snd (LoadConfig load_fine old_machine) = inr (with_token "old-token" old_config)
  /\ keyring (world (fst (LoadConfig load_fine old_machine)))
     !! (KeyringService, "u1"%string) = Some "old-token"%string
  /\ files (world (fst (LoadConfig load_fine old_machine)))
     !! getConfigPath (world old_machine)
     = Some (MarshalIndent old_config, 420).
Proof.
  assert (Hfile : files (world old_machine) !! getConfigPath (world old_machine)
                  = Some (old_file, 420)) by (vm_compute; reflexivity).
  assert (Hc : Unmarshal_Config old_file = inr old_config)
    by (vm_compute; reflexivity).
  assert (Hl : Unmarshal_legacy old_file = inr "old-token"%string)
    by (vm_compute; reflexivity).
  destruct (LoadConfig_migrates load_fine old_machine old_file 420 old_config
              "old-token" Hfile eq_refl Hc Hl
              ltac:(discriminate) ltac:(discriminate) eq_refl)
    as (Hr & _ & Hk & Hf).
  split; [exact Hr |]. split; [exact Hk | exact (Hf eq_refl eq_refl)].
Defined.

Lemma LoadConfig_token_from_keyring_witness :
  let c := with_token "old-token" old_config in
  snd (LoadConfig load_fine old_machine) = inr c
  /\ GlobalConfig (fst (LoadConfig load_fine old_machine)) = Some c.
Proof.
  intros c.
  assert (Hr : snd (LoadConfig load_fine old_machine) = inr c)
    by (vm_compute; reflexivity).
  split; [exact Hr |].
  exact (proj1 (LoadConfig_token_from_keyring load_fine old_machine c Hr)).
Defined.

End AccountExamples.


(** ** The connection loop *)

Module SupervisorFacts.
Import Msg Net Dial Conn ConnFacts Directory Backoff Supervisor.

Lemma shouldAutoReconnect_sendMessage (w : option goerror) (m : Message)
    (st : State) :
  shouldAutoReconnect (fst (sendMessage w m st)) = shouldAutoReconnect st.
Proof. unfold sendMessage. destruct (quicStream st), w; reflexivity. Qed.

Lemma shouldAutoReconnect_sendCloseMessage (w : option goerror) (id : string)
    (st : State) :
  shouldAutoReconnect (sendCloseMessage w id st) = shouldAutoReconnect st.
Proof.
  unfold sendCloseMessage.
  destruct (clientConns (fst (sendMessage w (closeMsg id) st)) !! id);
    cbn [shouldAutoReconnect set_clientConns set_heap];
    apply shouldAutoReconnect_sendMessage.
Qed.

Lemma shouldAutoReconnect_conn_Write (w : option goerror) (l : nat)
    (d : list byte) (st : State) :
  shouldAutoReconnect (fst (conn_Write w l d st)) = shouldAutoReconnect st.
Proof.
  unfold conn_Write. destruct (heap st !! l) as [cc|]; [| reflexivity].
  destruct (sock_closed (conn cc)); [reflexivity |]. now destruct w.
Qed.

Section WithLibraries.
Context `{NetLib} `{Base64}.

Lemma shouldAutoReconnect_handleConnect (o : Oracle) (msg : Message)
    (st : State) :
  shouldAutoReconnect (fst (handleConnect o msg st)) = shouldAutoReconnect st.
Proof.
  unfold handleConnect.
  destruct (dialWithDNSFallback (o_net o) (Addr msg)) as [[err | c] tr].
  - cbn [fst]. now rewrite shouldAutoReconnect_sendCloseMessage.
  - change (heap (set_logs (logs st ++ log_lines tr) st)) with (heap st).
    set (st1 := set_clientConns _ _).
    assert (H1 : shouldAutoReconnect st1 = shouldAutoReconnect st)
      by reflexivity.
    clearbody st1.
    pose proof (shouldAutoReconnect_sendMessage (o_stream_write o)
                  (mkMessage "connected" (Msg.ID msg) "" "") st1) as H2.
    destruct (sendMessage (o_stream_write o) _ st1) as [st2 [e|]];
      cbn [fst] in *; [cbn; congruence |].
    destruct (negb (String.eqb (Data msg) "")); [| cbn [fst]; congruence].
    pose proof (shouldAutoReconnect_conn_Write (o_sock_write o)
                  (fresh (dom (heap st))) (fst (DecodeString (Data msg))) st2)
      as H3.
    destruct (conn_Write (o_sock_write o) _ _ st2) as [st3 [e|]];
      cbn [fst] in *; [| congruence].
    rewrite shouldAutoReconnect_sendCloseMessage. cbn. congruence.
Qed.

Lemma shouldAutoReconnect_task_step (o : Oracle) (t : Task) (st st' : State)
    (spawned : list Task) (ended : bool) :
  task_step o t st = Some (st', spawned, ended) ->
  shouldAutoReconnect st' = shouldAutoReconnect st.
Proof.
  intros Hstep. destruct t as [msg | cc id | cc id]; cbn [task_step] in Hstep.
  - pose proof (shouldAutoReconnect_handleConnect o msg st) as Hh.
    destruct (handleConnect o msg st) as [st1 sp]. now injection Hstep as <- _ _.
  - unfold relayFromConnToQuic_step in Hstep.
    destruct (match heap st !! cc with Some _ => _ | None => _ end)
      as [e | buf].
    + injection Hstep as <- _ _. apply shouldAutoReconnect_sendCloseMessage.
    + destruct (take (Z.to_nat (256 * 1024)) buf) as [| b bs].
      * now injection Hstep as <- _ _.
      * pose proof (shouldAutoReconnect_sendMessage (o_stream_write o)
                      (mkMessage "data" id "" (EncodeToString (b :: bs))) st)
          as H1.
        destruct (sendMessage (o_stream_write o) _ st) as [st1 [e|]];
          cbn [fst] in *; injection Hstep as <- _ _; [| exact H1].
        rewrite shouldAutoReconnect_sendCloseMessage. exact H1.
  - unfold relayFromChanToConn_step in Hstep.
    destruct (heap st !! cc) as [c|]; [| discriminate].
    destruct (ch_buf (dataChan c)) as [| data rest].
    + destruct (ch_closed (dataChan c)); [| discriminate].
      injection Hstep as <- _ _. apply shouldAutoReconnect_sendCloseMessage.
    + set (st1 := set_heap _ st) in Hstep.
      assert (H1 : shouldAutoReconnect st1 = shouldAutoReconnect st)
        by reflexivity.
      clearbody st1.
      destruct data as [| b bs]; [now injection Hstep as <- _ _ |].
      pose proof (shouldAutoReconnect_conn_Write (o_sock_write o) cc (b :: bs)
                    st1) as H2.
      destruct (conn_Write (o_sock_write o) cc (b :: bs) st1) as [st2 [e|]];
        cbn [fst] in *; injection Hstep as <- _ _; [| congruence].
      rewrite shouldAutoReconnect_sendCloseMessage. congruence.
Qed.

Lemma shouldAutoReconnect_quicReader_step (w : option goerror)
    (inp : ReaderInput) (st : State) :
  shouldAutoReconnect (fst (fst (quicReader_step w inp st)))
  = shouldAutoReconnect st.
Proof.
  unfold quicReader_step.
  destruct inp as [| | e | msg]; cbn [fst]; try reflexivity.
  destruct (String.eqb (Type_ msg) "connect"); [reflexivity |].
  destruct (String.eqb (Type_ msg) "data").
  { destruct (clientConns st !! Msg.ID msg) as [l|]; [| reflexivity].
    destruct (heap st !! l) as [cc|]; [| reflexivity].
    destruct (DecodeString (Data msg)) as [data [e|]]; [reflexivity |].
    destruct (ch_closed (dataChan cc)); [reflexivity |].
    destruct (try_send data (dataChan cc)); reflexivity. }
  destruct (String.eqb (Type_ msg) "close").
  { destruct (clientConns st !! Msg.ID msg); reflexivity. }
  destruct (String.eqb (Type_ msg) "ping").
  { pose proof (shouldAutoReconnect_sendMessage w
                  (mkMessage "pong" (Msg.ID msg) "" "") st) as H1.
    destruct (sendMessage w _ st) as [st1 [e|]]; cbn [fst] in *; exact H1. }
  reflexivity.
Qed.

(** Only [DisconnectQuic] turns auto-reconnect off. *)
Lemma shouldAutoReconnect_sys_step (ev : Event) (S : Sys) :
  stays_on ev = true ->
  shouldAutoReconnect (state S) = true ->
  shouldAutoReconnect (state (sys_step ev S)) = true.
Proof.
  intros Hev Hon. destruct ev as [w inp | i o | | | c s]; cbn [sys_step].
  - pose proof (shouldAutoReconnect_quicReader_step w inp (state S)) as Hr.
    destruct (quicReader_step w inp (state S)) as [[st sp] r].
    cbn [fst state] in *. congruence.
  - destruct (tasks S !! i) as [t|]; [| exact Hon].
    destruct (task_step o t (state S)) as [[[st sp] e]|] eqn:Et; [| exact Hon].
    cbn [state]. rewrite (shouldAutoReconnect_task_step _ _ _ _ _ _ Et).
    exact Hon.
  - discriminate.
  - reflexivity.
  - exact Hon.
Qed.

Lemma shouldAutoReconnect_run (evs : list Event) (S : Sys) :
  forallb stays_on evs = true ->
  shouldAutoReconnect (state S) = true ->
  shouldAutoReconnect (state (run evs S)) = true.
Proof.
  revert S. induction evs as [| ev evs IH]; intros S Hev Hon; [exact Hon |].
  cbn [forallb] in Hev. apply andb_prop in Hev. destruct Hev as [Hev Hevs].
  change (run (ev :: evs) S) with (run evs (sys_step ev S)).
  apply IH; [exact Hevs |]. now apply shouldAutoReconnect_sys_step.
Qed.

End WithLibraries.

Section WithFmt.
Context `{NetLib} `{Base64} `{Fmt}.

(** The body of the loop from the choice of the server on, seen through
    its waits, its dials and its discoveries. *)
Lemma attempt_view (cfg : Settings) (t : Turn) (L : Loop) (S0 : Sys) :
  let r := attempt cfg t L S0 in
  List.length (dials (snd r)) = 1%nat
  /\ discoveries (snd r)
     = (if DebugMode cfg then []
        else [(production_apiURL (ServerURL cfg),
               "us.vyx.network:8443"%string)])
  /\ match t_dial t with
     | inl _ =>
         sleeps (snd r)
         = [getRetryDelay (connectionAttempts L + 1) false false]
         /\ fst r = (mkLoop (connectionAttempts L + 1)
                            (consecutiveAuthFailures L)
                            (lastConnectionSuccessful L), S0)
     | inr c =>
         match t_stream t with
         | inl _ =>
             sleeps (snd r)
             = [100 * Millisecond;
                getRetryDelay (connectionAttempts L + 1) false false]
             /\ fst r = (mkLoop (connectionAttempts L + 1)
                                (consecutiveAuthFailures L)
                                (lastConnectionSuccessful L), S0)
         | inr s =>
             let S1 := mkSys (set_quic (Some c) (Some s) (state S0))
                             (tasks S0) in
             if t_auth t then
               sleeps (snd r) = [100 * Millisecond; 2 * Second]
               /\ fst r = (mkLoop 0 0 false, run (t_session t) S1)
             else
               sleeps (snd r)
               = [100 * Millisecond;
                  getRetryDelay (connectionAttempts L + 1) true
                                (negb (t_loggedIn t))]
               /\ fst r = (mkLoop (connectionAttempts L + 1)
                                  (consecutiveAuthFailures L + 1)
                                  (lastConnectionSuccessful L), S1)
         end
     end.
Proof.
  cbv zeta. unfold attempt, buildTLSConfig, retry.
  destruct (DebugMode cfg); destruct (0 <? connectionAttempts L);
    destruct (String.eqb _ "localhost" || _);
    destruct (t_dial t) as [e | c]; try destruct (t_stream t) as [e | s];
    try destruct (t_auth t); try destruct (t_loggedIn t);
    cbn -[getRetryDelay run Z.mul Z.add production_apiURL GetOptimalServer];
    repeat split; reflexivity.
Qed.

(** One turn of the loop: it sleeps five seconds when auto-reconnect is
    off, panics when it is on and there is no configuration, and goes on
    with the configuration otherwise. *)
Lemma turn_cases (t : Turn) (L : Loop) (S : Sys) :
  let S0 := run (t_meanwhile t) S in
  if shouldAutoReconnect (state S0) then
    match t_config t with
    | None => turn t L S = None
    | Some cfg => turn t L S = Some (attempt cfg t L S0)
    end
  else turn t L S = Some (L, S0, [UpdateStatus "Stopped"; Sleep (5 * Second)]).
Proof.
  cbv zeta. unfold turn.
  destruct (shouldAutoReconnect (state (run (t_meanwhile t) S)));
    cbn [negb]; [| reflexivity].
  now destruct (t_config t).
Qed.

Lemma getRetryDelay_range (n : Z) (a b : bool) :
  0 <= getRetryDelay n a b <= 5 * Minute.
Proof.
  unfold getRetryDelay, Minute, Second.
  repeat match goal with
         | |- context [if ?c then _ else _] => destruct c
         end; lia.
Qed.

Lemma production_apiURL_scheme (u : string) :
  has_scheme (production_apiURL u) = true.
Proof.
  unfold production_apiURL, has_scheme.
  destruct (String.eqb u ""); [reflexivity |].
  destruct (String.prefix "http://" u) eqn:E1; cbn [negb andb];
    [now rewrite E1 |].
  destruct (String.prefix "https://" u) eqn:E2; cbn [negb];
    [now rewrite E1, E2 |].
  cbn. destruct u; reflexivity.
Qed.

(** What the body of the loop keeps: the flag stays off, the attempts go
    up by one at most, it sleeps at least once and never for more than
    five minutes, dials once, and discovers with a URL that names its
    protocol. *)
Lemma attempt_keeps (cfg : Settings) (t : Turn) (L : Loop) (S0 : Sys) :
  lastConnectionSuccessful L = false ->
  0 <= connectionAttempts L ->
  let r := attempt cfg t L S0 in
  lastConnectionSuccessful (fst (fst r)) = false
  /\ 0 <= connectionAttempts (fst (fst r)) <= connectionAttempts L + 1
  /\ Forall (fun d => 0 <= d <= 5 * Minute) (sleeps (snd r))
  /\ (1 <= List.length (sleeps (snd r)))%nat
  /\ (List.length (dials (snd r)) <= 1)%nat
  /\ Forall (fun uf => has_scheme (fst uf) = true
                       /\ snd uf = "us.vyx.network:8443"%string)
            (discoveries (snd r)).
Proof.
  intros Hflag Hn. cbv zeta.
  pose proof (attempt_view cfg t L S0) as Hv. cbv zeta in Hv.
  assert (Hms : 0 <= 100 * Millisecond <= 5 * Minute)
    by (unfold Millisecond, Minute, Second; lia).
  assert (H2s : 0 <= 2 * Second <= 5 * Minute)
    by (unfold Minute, Second; lia).
  destruct Hv as (Hd & Hdisc & Hv).
  assert (Hdisc' : Forall (fun uf => has_scheme (fst uf) = true
                             /\ snd uf = "us.vyx.network:8443"%string)
                     (discoveries (snd (attempt cfg t L S0)))).
  { rewrite Hdisc. destruct (DebugMode cfg); repeat constructor.
    apply production_apiURL_scheme. }
  destruct (t_dial t) as [e | c].
  { destruct Hv as [Hs ->]. rewrite Hs, Hd. cbn [fst snd List.length
      lastConnectionSuccessful connectionAttempts].
    repeat split; try assumption; try lia.
    repeat constructor; apply getRetryDelay_range. }
  destruct (t_stream t) as [e | s].
  { destruct Hv as [Hs ->]. rewrite Hs, Hd. cbn [fst snd List.length
      lastConnectionSuccessful connectionAttempts].
    repeat split; try assumption; try lia.
    repeat constructor; try apply getRetryDelay_range; lia. }
  destruct (t_auth t); destruct Hv as [Hs ->]; rewrite Hs, Hd;
    cbn [fst snd List.length lastConnectionSuccessful connectionAttempts];
    repeat split; try assumption; try lia;
    repeat constructor; try apply getRetryDelay_range; lia.
Qed.

(** What one turn that does not panic keeps. *)
Lemma turn_keeps (t : Turn) (L L1 : Loop) (S S1 : Sys) (a : list Action) :
  lastConnectionSuccessful L = false ->
  0 <= connectionAttempts L ->
  turn t L S = Some (L1, S1, a) ->
  lastConnectionSuccessful L1 = false
  /\ 0 <= connectionAttempts L1 <= connectionAttempts L + 1
  /\ Forall (fun d => 0 <= d <= 5 * Minute) (sleeps a)
  /\ (1 <= List.length (sleeps a))%nat
  /\ (List.length (dials a) <= 1)%nat
  /\ Forall (fun uf => has_scheme (fst uf) = true
                       /\ snd uf = "us.vyx.network:8443"%string)
            (discoveries a).
Proof.
  intros Hflag Hn Ht.
  pose proof (turn_cases t L S) as Hc. cbv zeta in Hc.
  destruct (shouldAutoReconnect (state (run (t_meanwhile t) S))).
  - destruct (t_config t) as [cfg|]; [| congruence].
    rewrite Hc in Ht.
    pose proof (attempt_keeps cfg t L (run (t_meanwhile t) S) Hflag Hn) as Hk.
    cbv zeta in Hk.
    destruct (attempt cfg t L (run (t_meanwhile t) S)) as [[L' S'] a'].
    injection Ht as <- <- <-. exact Hk.
  - rewrite Hc in Ht. injection Ht as <- <- <-.
    cbn [sleeps dials discoveries omap list_omap List.length].
    assert (H5s : 0 <= 5 * Second <= 5 * Minute)
      by (unfold Minute, Second; lia).
    repeat split; try assumption; try lia; repeat constructor; lia.
Qed.

(** A turn panics only when it finds no configuration. *)
Lemma turn_panic (t : Turn) (L : Loop) (S : Sys) :
  turn t L S = None ->
  t_config t = None
  /\ shouldAutoReconnect (state (run (t_meanwhile t) S)) = true.
Proof.
  intros Ht. pose proof (turn_cases t L S) as Hc. cbv zeta in Hc.
  destruct (shouldAutoReconnect (state (run (t_meanwhile t) S)));
    [| congruence].
  destruct (t_config t); [congruence | now split].
Qed.

(** X29.  The loop of [ConnectQuicServer] from its initial variables,
    however the network, the server and the user behave.  It panics only
    in a turn that finds [config.GlobalConfig] nil, which the loop
    dereferences without a check once auto-reconnect is on; short of
    that, it sleeps in every turn: there are at least as many sleeps as
    turns.  In either case no sleep is negative or longer than five
    minutes, there are no more dials than turns, a discovery is always
    made with a URL that names its protocol and with the fallback
    us.vyx.network:8443, the flag [lastConnectionSuccessful] is false
    again after every turn, and the attempt counter is at most the
    number of turns. *)
Theorem ConnectQuicServer_waits (ts : list Turn) (S : Sys) :
  let r := ConnectQuicServer ts loop0 S in
  lastConnectionSuccessful (vars r) = false
  /\ 0 <= connectionAttempts (vars r) <= Z.of_nat (List.length ts)
  /\ Forall (fun d => 0 <= d <= 5 * Minute) (sleeps (actions r))
  /\ (List.length (dials (actions r)) <= List.length ts)%nat
  /\ Forall (fun uf => has_scheme (fst uf) = true
                       /\ snd uf = "us.vyx.network:8443"%string)
            (discoveries (actions r))
  /\ (if panicked r
      then exists t, In t ts /\ t_config t = None
      else (List.length ts <= List.length (sleeps (actions r)))%nat).
Proof.
  cbv zeta.
  enough (Hgen : forall L S,
            lastConnectionSuccessful L = false ->
            0 <= connectionAttempts L ->
            let r := ConnectQuicServer ts L S in
            lastConnectionSuccessful (vars r) = false
            /\ 0 <= connectionAttempts (vars r)
               <= connectionAttempts L + Z.of_nat (List.length ts)
            /\ Forall (fun d => 0 <= d <= 5 * Minute) (sleeps (actions r))
            /\ (List.length (dials (actions r)) <= List.length ts)%nat
            /\ Forall (fun uf => has_scheme (fst uf) = true
                                 /\ snd uf = "us.vyx.network:8443"%string)
                      (discoveries (actions r))
            /\ (if panicked r
                then exists t, In t ts /\ t_config t = None
                else (List.length ts <= List.length (sleeps (actions r)))%nat)).
  { exact (Hgen loop0 S eq_refl (Z.le_refl 0)). }
  clear S. induction ts as [| t ts IH]; intros L S Hflag Hn; cbv zeta.
  - cbn [ConnectQuicServer vars actions panicked sleeps dials discoveries
         omap list_omap List.length].
    repeat split; try assumption; try lia; constructor.
  - cbn [ConnectQuicServer].
    destruct (turn t L S) as [[[L1 S1] a] |] eqn:Et.
    + destruct (turn_keeps t L L1 S S1 a Hflag Hn Et)
        as (Hf1 & Hn1 & Hs1 & Hl1 & Hd1 & Hu1).
      specialize (IH L1 S1 Hf1 (proj1 Hn1)). cbv zeta in IH.
      destruct IH as (Hf2 & Hn2 & Hs2 & Hd2 & Hu2 & Hp2).
      cbn [vars actions panicked].
      unfold sleeps, dials, discoveries in *. rewrite !omap_app, !length_app.
      cbn [List.length].
      split; [exact Hf2 |]. split; [lia |].
      split; [now apply Forall_app |]. split; [lia |].
      split; [now apply Forall_app |].
      destruct (panicked (ConnectQuicServer ts L1 S1)).
      * destruct Hp2 as (t' & Hin & Hnone). exists t'. split; [now right | exact Hnone].
      * lia.
    + apply turn_panic in Et. destruct Et as [Hnone _].
      cbn [vars actions panicked sleeps dials discoveries omap list_omap
           List.length].
      split; [exact Hflag |]. split; [lia |]. split; [constructor |].
      split; [lia |]. split; [constructor |].
      exists t. split; [now left | exact Hnone].
Qed.

(** X30.  Failed dials back off by the schedule: in a run of turns whose
    dial fails, with auto-reconnect on and the attempt counter at [n],
    the [k]-th turn dials once and then waits [getRetryDelay (n + k)],
    and the counter ends at [n] plus the number of turns.  The loop does
    not panic. *)
Theorem failed_dials_back_off (ts : list Turn) (L : Loop) (S : Sys) :
  shouldAutoReconnect (state S) = true ->
  forallb dial_fails ts = true ->
  let r := ConnectQuicServer ts L S in
  sleeps (actions r)
  = List.map (fun k => getRetryDelay (connectionAttempts L + Z.of_nat k)
                                     false false)
             (seq 1 (List.length ts))
  /\ connectionAttempts (vars r)
     = connectionAttempts L + Z.of_nat (List.length ts)
  /\ List.length (dials (actions r)) = List.length ts
  /\ shouldAutoReconnect (state (sys r)) = true
  /\ panicked r = false.
Proof.
  revert L S. induction ts as [| t ts IH]; intros L S Hon Hall; cbv zeta.
  - cbn [ConnectQuicServer vars sys actions panicked sleeps dials omap
         list_omap List.length seq List.map].
    repeat split; [lia | exact Hon].
  - cbn [forallb] in Hall. apply andb_prop in Hall. destruct Hall as [Ht Hts].
    unfold dial_fails in Ht. apply andb_prop in Ht. destruct Ht as [Hm Hd].
    cbn [ConnectQuicServer].
    pose proof (turn_cases t L S) as Hc. cbv zeta in Hc.
    rewrite (shouldAutoReconnect_run _ _ Hm Hon) in Hc.
    destruct (t_config t) as [cfg|]; [| discriminate].
    rewrite Hc.
    pose proof (attempt_view cfg t L (run (t_meanwhile t) S)) as Hv.
    cbv zeta in Hv. destruct Hv as (Hd1 & _ & Hv).
    destruct (t_dial t) as [e | c]; [| discriminate].
    destruct Hv as [Hs1 Hr1].
    destruct (attempt cfg t L (run (t_meanwhile t) S)) as [[L1 S1] a].
    cbn [fst snd] in *. injection Hr1 as -> ->.
    specialize (IH (mkLoop (connectionAttempts L + 1)
                           (consecutiveAuthFailures L)
                           (lastConnectionSuccessful L))
                  (run (t_meanwhile t) S)
                  (shouldAutoReconnect_run _ _ Hm Hon) Hts).
    cbv zeta in IH. cbn [connectionAttempts] in IH.
    destruct IH as (Hs2 & Hn2 & Hd2 & Hon2 & Hp2).
    cbn [vars sys actions panicked].
    unfold sleeps, dials in *. rewrite !omap_app, length_app, Hs1, Hs2, Hd1, Hd2.
    cbn [List.length seq List.map app].
    split; [| split; [lia | split; [reflexivity | split; [exact Hon2 | exact Hp2]]]].
    f_equal.
    rewrite <- (seq_shift (List.length ts) 1), List.map_map. apply List.map_ext.
    intros k. f_equal. lia.
Qed.

End WithFmt.

End SupervisorFacts.


Module SupervisorExamples.
Import Msg Net Dial Conn Directory Backoff Scenarios Supervisor SupervisorFacts.

#[local] Existing Instance plain_netlib.
#[local] Existing Instance plain_base64.
#[local] Existing Instance plain_fmt.

(** Three refused dials from the start: no wait, then twice five
    seconds. *)
Lemma failed_dials_back_off_witness :
  let r := ConnectQuicServer [refused; refused; refused] loop0
                             (mkSys initial []) in
  sleeps (actions r) = [0; 5 * Second; 5 * Second]
  /\ connectionAttempts (vars r) = 3.
Proof.
  intros r.
  destruct (failed_dials_back_off [refused; refused; refused]
              loop0 (mkSys initial []) eq_refl eq_refl) as (Hs & Hn & _).
  split; [exact Hs | exact Hn].
Defined.

(** Started without a configuration, the loop panics in its first turn,
    before any dial or sleep. *)
Example first_turn_without_configuration :
  ConnectQuicServer [unconfigured; refused] loop0 (mkSys initial [])
  = mkRun loop0 (mkSys initial []) [] true.
Proof. reflexivity. Qed.

End SupervisorExamples.
